(** * OpenManus: agent loop, tool registry and planning tool

A shallow embedding of the agent core ([app/agent/base.py]), the
tool-calling agent ([app/agent/toolcall.py]), the tool registry
([app/tool/tool_collection.py]), the planning tool
([app/tool/planning.py]) and the plan parser of the planning agent
([app/agent/planning.py]).

Conventions.
- Python [str] values are kept as [string]s holding UTF-8; operations
  that Python performs on code points ([len], [splitlines], [strip],
  [in]) go through [utf8_decode].
- Python exceptions deriving from [Exception] are values of [exn];
  a computation that can raise returns an [outcome].
- Mutable objects are threaded explicitly: a method becomes a function
  from the object's state to an outcome and the new state. *)

From Stdlib Require Import ZArith Lia.
From stdpp Require Import base option list strings pretty gmap fin_maps.

Open Scope string_scope.

(** ** Python basics *)

Module Py.

(** Exception classes that the modelled code raises or catches. *)
Inductive exn_class : Type :=
  | ToolError
  | RuntimeError
  | ValueError
  | TypeError
  | IndexError
  | ZeroDivisionError
  | AttributeError
  | OtherException (class_name : string).

Record exn : Type := mk_exn { exn_cls : exn_class; exn_msg : string }.

Inductive outcome (A : Type) : Type :=
  | Ret (a : A)
  | Raise (e : exn).
Arguments Ret {A} a.
Arguments Raise {A} e.

Definition raises {A} (o : outcome A) : bool :=
  match o with Ret _ => false | Raise _ => true end.

Definition is_ToolError (e : exn) : bool :=
  match exn_cls e with ToolError => true | _ => false end.

Definition nl : string := String (Ascii.ascii_of_nat 10) EmptyString.

(** [bool(s)] for an [Optional[str]]: [None] and [""] are falsy. *)
Definition truthy (o : option string) : bool :=
  match o with
  | None => false
  | Some s => negb (String.eqb s "")
  end.

(** [str(x)] inside an f-string for an [Optional[str]]. *)
Definition fmt_opt (o : option string) : string :=
  match o with None => "None" | Some s => s end.

(** Code points of a UTF-8 text. *)
Fixpoint utf8_decode (s : string) : list N :=
  match s with
  | EmptyString => []
  | String b0 r0 =>
    let n0 := Ascii.N_of_ascii b0 in
    if (n0 <? 192)%N then n0 :: utf8_decode r0
    else
      match r0 with
      | EmptyString => [n0]
      | String b1 r1 =>
        let n1 := N.land (Ascii.N_of_ascii b1) 63 in
        if (n0 <? 224)%N then (N.land n0 31 * 64 + n1)%N :: utf8_decode r1
        else
          match r1 with
          | EmptyString => [n0; n1]
          | String b2 r2 =>
            let n2 := N.land (Ascii.N_of_ascii b2) 63 in
            if (n0 <? 240)%N
            then (N.land n0 15 * 4096 + n1 * 64 + n2)%N :: utf8_decode r2
            else
              match r2 with
              | EmptyString => [n0; n1; n2]
              | String b3 r3 =>
                let n3 := N.land (Ascii.N_of_ascii b3) 63 in
                (N.land n0 7 * 262144 + n1 * 4096 + n2 * 64 + n3)%N
                  :: utf8_decode r3
              end
          end
      end
  end.

(** [len(s)]: the number of code points. *)
Definition len (s : string) : nat := length (utf8_decode s).

(** ["=" * n] and friends. *)
Fixpoint repeat_str (s : string) (n : nat) : string :=
  match n with
  | O => ""
  | S n' => s +:+ repeat_str s n'
  end.

Definition mem_N (c : N) (l : list N) : bool := existsb (N.eqb c) l.

(** Line boundaries of [str.splitlines]. *)
Definition is_linebreak (c : N) : bool :=
  mem_N c [10; 11; 12; 13; 28; 29; 30; 133; 8232; 8233]%N.

(** White space of [str.strip] ([str.isspace]). *)
Definition is_space (c : N) : bool :=
  mem_N c [9; 10; 11; 12; 13; 28; 29; 30; 31; 32; 133; 160; 5760;
           8232; 8233; 8239; 8287; 12288]%N
  || ((8192 <=? c)%N && (c <=? 8202)%N).

Fixpoint splitlines_aux (cs cur : list N) : list (list N) :=
  match cs with
  | [] => match cur with [] => [] | _ => [rev cur] end
  | c :: r =>
    if (c =? 13)%N then
      rev cur ::
        match r with
        | d :: r' => if (d =? 10)%N then splitlines_aux r' [] else splitlines_aux r []
        | [] => []
        end
    else if is_linebreak c then rev cur :: splitlines_aux r []
    else splitlines_aux r (c :: cur)
  end.

Definition splitlines (cs : list N) : list (list N) := splitlines_aux cs [].

Fixpoint lstrip (cs : list N) : list N :=
  match cs with
  | c :: r => if is_space c then lstrip r else cs
  | [] => []
  end.

Definition strip (cs : list N) : list N := rev (lstrip (rev (lstrip cs))).

Fixpoint starts_with (needle hay : list N) : bool :=
  match needle, hay with
  | [], _ => true
  | n :: needle', h :: hay' => (n =? h)%N && starts_with needle' hay'
  | _ :: _, [] => false
  end.

(** [needle in hay] for strings. *)
Fixpoint contains (needle hay : list N) : bool :=
  starts_with needle hay ||
    match hay with
    | [] => false
    | _ :: hay' => contains needle hay'
    end.

Definition cps_eqb (a b : list N) : bool :=
  bool_decide (a = b).

End Py.

Import Py.

(** ** Insertion-ordered dictionaries

[PlanningTool.plans] is a Python [dict] that [_list_plans] iterates in
insertion order, so it is kept as an association list with unique keys:
assigning to an existing key keeps its position, a new key goes last. *)

Module Dict.

Definition t (V : Type) : Type := list (string * V).

Fixpoint get {V} (d : t V) (k : string) : option V :=
  match d with
  | [] => None
  | (k', v) :: r => if String.eqb k k' then Some v else get r k
  end.

Definition mem {V} (d : t V) (k : string) : bool :=
  match get d k with Some _ => true | None => false end.

Fixpoint set {V} (d : t V) (k : string) (v : V) : t V :=
  match d with
  | [] => [(k, v)]
  | (k', v') :: r =>
    if String.eqb k k' then (k, v) :: r else (k', v') :: set r k v
  end.

Fixpoint del {V} (d : t V) (k : string) : t V :=
  match d with
  | [] => []
  | (k', v') :: r => if String.eqb k k' then r else (k', v') :: del r k
  end.

End Dict.

(** ** Tool results ([app/tool/base.py]) *)

Module ToolBase.

Inductive result_class : Type :=
  | ToolResultClass
  | CLIResultClass
  | ToolFailureClass.

Record ToolResult : Type := mk_result {
    result_cls : result_class;
    output : option string;
    error : option string;
    system : option string
  }.

(** [ToolResult(output=s)] *)
Definition result_output (s : string) : ToolResult :=
  mk_result ToolResultClass (Some s) None None.

(** [ToolFailure(error=s)] *)
Definition ToolFailure (s : string) : ToolResult :=
  mk_result ToolFailureClass None (Some s) None.

Definition is_failure (r : ToolResult) : bool :=
  match result_cls r with ToolFailureClass => true | _ => false end.

(** [ToolResult.__bool__] *)
Definition result_bool (r : ToolResult) : bool :=
  truthy (output r) || truthy (error r) || truthy (system r).

(** What a tool's [execute] hands back: [Terminate] returns a [str],
    the planning tool a [ToolResult]. *)
Inductive tool_value : Type :=
  | VStr (s : string)
  | VResult (r : ToolResult).

End ToolBase.

Import ToolBase.

(** ** The planning tool ([app/tool/planning.py]) *)

Module Planning.

Record Plan : Type := mk_plan {
    plan_id : string;
    title : string;
    steps : list string;
    step_statuses : list string;
    step_notes : list string
  }.

Record PlanningTool : Type := mk_tool {
    plans : Dict.t Plan;
    _current_plan_id : option string
  }.

Definition empty_tool : PlanningTool := mk_tool [] None.

(** The [steps] argument as the tool may receive it from decoded JSON:
    absent, something that is not a list ([non_list_truthy] is its
    [bool()]), or a list whose items may fail [isinstance(s, str)]. *)
Inductive step_item : Type :=
  | SStr (s : string)
  | SOther.

Inductive steps_arg : Type :=
  | StepsNone
  | StepsNonList (non_list_truthy : bool)
  | StepsList (items : list step_item).

Definition steps_truthy (a : steps_arg) : bool :=
  match a with
  | StepsNone => false
  | StepsNonList b => b
  | StepsList [] => false
  | StepsList (_ :: _) => true
  end.

(** [isinstance(steps, list) and all(isinstance(s, str) for s in steps)],
    giving the strings when it holds. *)
Fixpoint all_str (items : list step_item) : option (list string) :=
  match items with
  | [] => Some []
  | SStr s :: r =>
    match all_str r with Some l => Some (s :: l) | None => None end
  | SOther :: _ => None
  end.

Definition str_list (a : steps_arg) : option (list string) :=
  match a with
  | StepsList items => all_str items
  | _ => None
  end.

Definition tool_error {A} (msg : string) : outcome A :=
  Raise (mk_exn ToolError msg).

Definition index_error {A} : outcome A :=
  Raise (mk_exn IndexError "list index out of range").

(** [l[i]] for [0 <= i]. *)
Definition list_get (l : list string) (i : nat) : outcome string :=
  match l !! i with
  | Some x => Ret x
  | None => index_error
  end.

(** [l[i] = v] for [0 <= i]. *)
Definition list_set (l : list string) (i : nat) (v : string)
  : outcome (list string) :=
  if (i <? length l)%nat then Ret (<[i:=v]> l)
  else Raise (mk_exn IndexError "list assignment index out of range").

Definition valid_statuses : list string :=
  ["not_started"; "in_progress"; "completed"; "blocked"].

Definition str_in (s : string) (l : list string) : bool :=
  existsb (String.eqb s) l.

Definition count_str (s : string) (l : list string) : nat :=
  length (filter (fun x => String.eqb x s = true) l).

Definition status_sym (status : string) : string :=
  if String.eqb status "not_started" then "□"
  else if String.eqb status "in_progress" then "▶"
  else if String.eqb status "completed" then "✓"
  else if String.eqb status "blocked" then "‼"
  else "□".

(** The loop of [_format_plan] over
    [enumerate(zip(steps, step_statuses, step_notes))]. *)
Fixpoint format_steps (i : nat) (sts stats notes : list string) : string :=
  match sts, stats, notes with
  | step :: sts', status :: stats', note :: notes' =>
    pretty i +:+ ". " +:+ status_sym status +:+ " " +:+ step +:+ nl
      +:+ (if String.eqb note "" then ""
           else "   备注：" +:+ note +:+ nl)
      +:+ format_steps (S i) sts' stats' notes'
  | _, _, _ => ""
  end.

Section WithPercent.

(** The text of [f"{(completed/total*100):.1f}"] for [total > 0]: a
    binary floating-point division and a decimal rounding, kept
    abstract. *)
Variable percent_1f : nat -> nat -> string.

Definition _format_plan (plan : Plan) : outcome string :=
  let output := "计划：" +:+ title plan +:+ " (ID：" +:+ plan_id plan +:+ ")" +:+ nl in
  let output := output +:+ repeat_str "=" (len output) +:+ nl +:+ nl in
  let total := length (steps plan) in
  let completed := count_str "completed" (step_statuses plan) in
  match total with
  | O => Raise (mk_exn ZeroDivisionError "division by zero")
  | S _ =>
    let output := output +:+ "进度：" +:+ pretty completed +:+ "/" +:+ pretty total
                    +:+ " (" +:+ percent_1f completed total +:+ "%)" +:+ nl in
    let output := output +:+ "状态：完成" +:+ pretty completed
                    +:+ "个，进行中" +:+ pretty (count_str "in_progress" (step_statuses plan))
                    +:+ "个，阻塞" +:+ pretty (count_str "blocked" (step_statuses plan))
                    +:+ "个，未开始" +:+ pretty (count_str "not_started" (step_statuses plan))
                    +:+ "个" +:+ nl +:+ nl in
    let output := output +:+ "步骤详情：" +:+ nl in
    Ret (output +:+ format_steps 0 (steps plan) (step_statuses plan) (step_notes plan))
  end.

(** [ToolResult(output=f"{head}{self._format_plan(plan)}")] in state [t]. *)
Definition formatted (head : string) (plan : Plan) (t : PlanningTool)
  : outcome tool_value * PlanningTool :=
  match _format_plan plan with
  | Ret s => (Ret (VResult (result_output (head +:+ s))), t)
  | Raise e => (Raise e, t)
  end.

Definition _create_plan (plan_id title : option string) (steps : steps_arg)
    (t : PlanningTool) : outcome tool_value * PlanningTool :=
  match plan_id with
  | None | Some EmptyString => (tool_error "创建计划时必须指定plan_id", t)
  | Some pid =>
    if Dict.mem (plans t) pid then
      (tool_error ("ID为" +:+ pid +:+ "的计划已存在"), t)
    else
      match title with
      | None | Some EmptyString => (tool_error "必须提供计划标题", t)
      | Some ttl =>
        match (if steps_truthy steps then str_list steps else None) with
        | None => (tool_error "步骤必须为非空字符串列表", t)
        | Some sts =>
          let plan := {| plan_id := pid;
                         title := ttl;
                         steps := sts;
                         step_statuses := replicate (length sts) "not_started";
                         step_notes := replicate (length sts) "" |} in
          let t' := {| plans := Dict.set (plans t) pid plan;
                       _current_plan_id := Some pid |} in
          formatted ("计划创建成功：" +:+ pid +:+ nl +:+ nl) plan t'
        end
      end
  end.

(** The loop of [_update_plan]: statuses and notes are carried over
    where the step text at the same index is unchanged. *)
Fixpoint carry_over (i : nat) (new_steps : list string)
    (old_steps old_statuses old_notes new_statuses new_notes : list string)
  : outcome (list string * list string) :=
  match new_steps with
  | [] => Ret (new_statuses, new_notes)
  | step :: rest =>
    if bool_decide (old_steps !! i = Some step) then
      match list_get old_statuses i with
      | Raise e => Raise e
      | Ret status =>
        match list_get old_notes i with
        | Raise e => Raise e
        | Ret note =>
          carry_over (S i) rest old_steps old_statuses old_notes
            (new_statuses ++ [status]) (new_notes ++ [note])
        end
      end
    else
      carry_over (S i) rest old_steps old_statuses old_notes
        (new_statuses ++ ["not_started"]) (new_notes ++ [""])
  end.

Definition set_title (ttl : string) (p : Plan) : Plan :=
  {| plan_id := plan_id p; title := ttl; steps := steps p;
     step_statuses := step_statuses p; step_notes := step_notes p |}.

Definition set_steps (sts stats notes : list string) (p : Plan) : Plan :=
  {| plan_id := plan_id p; title := title p; steps := sts;
     step_statuses := stats; step_notes := notes |}.

Definition set_statuses (stats : list string) (p : Plan) : Plan :=
  set_steps (steps p) stats (step_notes p) p.

Definition set_notes (notes : list string) (p : Plan) : Plan :=
  set_steps (steps p) (step_statuses p) notes p.

(** Writes through the plan object that [self.plans[pid]] refers to. *)
Definition store (pid : string) (p : Plan) (t : PlanningTool) : PlanningTool :=
  {| plans := Dict.set (plans t) pid p;
     _current_plan_id := _current_plan_id t |}.

Definition _update_plan (plan_id title : option string) (steps : steps_arg)
    (t : PlanningTool) : outcome tool_value * PlanningTool :=
  match plan_id with
  | None | Some EmptyString => (tool_error "更新计划时必须指定plan_id", t)
  | Some pid =>
    match Dict.get (plans t) pid with
    | None => (tool_error ("未找到ID为" +:+ pid +:+ "的计划"), t)
    | Some plan =>
      let plan := match title with
                  | None | Some EmptyString => plan
                  | Some ttl => set_title ttl plan
                  end in
      let t := match title with
               | None | Some EmptyString => t
               | Some _ => store pid plan t
               end in
      if steps_truthy steps then
        match str_list steps with
        | None => (tool_error "步骤必须为字符串列表", t)
        | Some sts =>
          match carry_over 0 sts (Planning.steps plan) (step_statuses plan)
                  (step_notes plan) [] [] with
          | Raise e => (Raise e, t)
          | Ret (new_statuses, new_notes) =>
            let plan := set_steps sts new_statuses new_notes plan in
            formatted ("计划更新成功：" +:+ pid +:+ nl +:+ nl) plan (store pid plan t)
          end
        end
      else formatted ("计划更新成功：" +:+ pid +:+ nl +:+ nl) plan t
    end
  end.

(** The loop of [_list_plans] over [self.plans.items()]. *)
Fixpoint list_lines (current : option string) (items : Dict.t Plan) : string :=
  match items with
  | [] => ""
  | (pid, p) :: rest =>
    "• " +:+ pid
      +:+ (if bool_decide (Some pid = current) then " (当前)" else "")
      +:+ ": " +:+ title p +:+ " - "
      +:+ pretty (count_str "completed" (step_statuses p)) +:+ "/"
      +:+ pretty (length (steps p)) +:+ "步骤完成" +:+ nl
      +:+ list_lines current rest
  end.

Definition _list_plans (t : PlanningTool) : outcome tool_value * PlanningTool :=
  match plans t with
  | [] => (Ret (VResult (result_output "暂无任何计划，请使用create指令创建")), t)
  | _ =>
    (Ret (VResult (result_output
       ("可用计划列表：" +:+ nl +:+ list_lines (_current_plan_id t) (plans t)))), t)
  end.

(** [plan_id or self._current_plan_id] *)
Definition or_current (plan_id : option string) (t : PlanningTool) : option string :=
  if truthy plan_id then plan_id else _current_plan_id t.

Definition _get_plan (plan_id : option string) (t : PlanningTool)
  : outcome tool_value * PlanningTool :=
  if negb (truthy plan_id) && negb (truthy (_current_plan_id t)) then
    (tool_error "未指定计划ID且没有当前激活计划", t)
  else
    let plan_id := or_current plan_id t in
    match plan_id ≫= Dict.get (plans t) with
    | None => (tool_error ("未找到ID为" +:+ fmt_opt plan_id +:+ "的计划"), t)
    | Some plan => formatted "" plan t
    end.

Definition _set_active_plan (plan_id : option string) (t : PlanningTool)
  : outcome tool_value * PlanningTool :=
  match plan_id with
  | None | Some EmptyString => (tool_error "必须指定要激活的plan_id", t)
  | Some pid =>
    match Dict.get (plans t) pid with
    | None => (tool_error ("未找到ID为" +:+ pid +:+ "的计划"), t)
    | Some plan =>
      formatted ("已激活计划：" +:+ pid +:+ nl +:+ nl) plan
        {| plans := plans t; _current_plan_id := Some pid |}
    end
  end.

Definition _mark_step (plan_id : option string) (step_index : option Z)
    (step_status step_notes : option string) (t : PlanningTool)
  : outcome tool_value * PlanningTool :=
  match or_current plan_id t with
  | None | Some EmptyString => (tool_error "未指定计划ID且没有当前激活计划", t)
  | Some pid =>
    match Dict.get (plans t) pid with
    | None => (tool_error ("未找到ID为" +:+ pid +:+ "的计划"), t)
    | Some plan =>
      match step_index with
      | None => (tool_error "必须指定步骤索引", t)
      | Some idx =>
        if (idx <? 0)%Z || (idx >=? Z.of_nat (length (steps plan)))%Z then
          (tool_error ("步骤索引" +:+ pretty idx +:+ "超出范围"), t)
        else
        if truthy step_status
           && negb (str_in (fmt_opt step_status) valid_statuses) then
          (tool_error "无效的状态值", t)
        else
          let i := Z.to_nat idx in
          match (if truthy step_status
                 then list_set (step_statuses plan) i (fmt_opt step_status)
                 else Ret (step_statuses plan)) with
          | Raise e => (Raise e, t)
          | Ret stats =>
            let plan := set_statuses stats plan in
            let t := if truthy step_status then store pid plan t else t in
            match (if truthy step_notes
                   then list_set (Planning.step_notes plan) i (fmt_opt step_notes)
                   else Ret (Planning.step_notes plan)) with
            | Raise e => (Raise e, t)
            | Ret notes =>
              let plan := set_notes notes plan in
              let t := if truthy step_notes then store pid plan t else t in
              formatted ("步骤" +:+ pretty idx +:+ "已更新" +:+ nl +:+ nl) plan t
            end
          end
      end
    end
  end.

Definition _delete_plan (plan_id : option string) (t : PlanningTool)
  : outcome tool_value * PlanningTool :=
  match plan_id with
  | None | Some EmptyString => (tool_error "必须指定要删除的plan_id", t)
  | Some pid =>
    if Dict.mem (plans t) pid then
      (Ret (VResult (result_output ("已删除计划：" +:+ pid))),
       {| plans := Dict.del (plans t) pid;
          _current_plan_id :=
            if bool_decide (_current_plan_id t = Some pid) then None
            else _current_plan_id t |})
    else (tool_error ("未找到ID为" +:+ pid +:+ "的计划"), t)
  end.

(** Keyword arguments of [execute], with the types that the parameter
    schema of the tool declares for them: [plan_id], [title],
    [step_status] and [step_notes] are texts, [step_index] is an integer.
    A value of another type (a text or a fraction as index, a list as
    id), on which Python's operators raise a [TypeError], is outside this
    model. [command = None] is a call that omits the required keyword
    [command]. *)
Record kwargs : Type := mk_kwargs {
    command : option string;
    kw_plan_id : option string;
    kw_title : option string;
    kw_steps : steps_arg;
    kw_step_index : option Z;
    kw_step_status : option string;
    kw_step_notes : option string
  }.

Definition no_kwargs : kwargs :=
  mk_kwargs None None None StepsNone None None None.

Definition execute (kw : kwargs) (t : PlanningTool)
  : outcome tool_value * PlanningTool :=
  match command kw with
  | None =>
    (Raise (mk_exn TypeError
       "PlanningTool.execute() missing 1 required keyword-only argument: 'command'"), t)
  | Some cmd =>
    if String.eqb cmd "create" then
      _create_plan (kw_plan_id kw) (kw_title kw) (kw_steps kw) t
    else if String.eqb cmd "update" then
      _update_plan (kw_plan_id kw) (kw_title kw) (kw_steps kw) t
    else if String.eqb cmd "list" then _list_plans t
    else if String.eqb cmd "get" then _get_plan (kw_plan_id kw) t
    else if String.eqb cmd "set_active" then _set_active_plan (kw_plan_id kw) t
    else if String.eqb cmd "mark_step" then
      _mark_step (kw_plan_id kw) (kw_step_index kw) (kw_step_status kw)
        (kw_step_notes kw) t
    else if String.eqb cmd "delete" then _delete_plan (kw_plan_id kw) t
    else (tool_error ("不支持的指令：" +:+ cmd), t)
  end.

End WithPercent.

End Planning.

(** ** The tool registry ([app/tool/tool_collection.py])

Tools act on a world [W] (the state of the objects they wrap) and take
their keyword arguments as a value of type [I]. *)

Module ToolCollection.

Section Registry.

Context {W I : Type}.

(** The empty keyword dictionary [{}]. *)
Variable empty_input : I.

(** [BaseTool]: static metadata and the [execute] capability. *)
Record BaseTool : Type := mk_base_tool {
    name : string;
    description : string;
    parameters : option string;
    tool_execute : I -> W -> outcome tool_value * W
  }.

(** The dictionary built by [BaseTool.to_param]. *)
Record Param : Type := mk_param {
    param_type : string;
    function_name : string;
    function_description : string;
    function_parameters : option string
  }.

Definition to_param (tool : BaseTool) : Param :=
  {| param_type := "function";
     function_name := name tool;
     function_description := description tool;
     function_parameters := parameters tool |}.

Record ToolCollection : Type := mk_collection {
    tools : list BaseTool;
    tool_map : gmap string BaseTool
  }.

(** The constructor: [tool_map] is the comprehension
    [{tool.name: tool for tool in tools}]. *)
Definition __init__ (ts : list BaseTool) : ToolCollection :=
  {| tools := ts;
     tool_map := foldl (fun m tool => <[name tool := tool]> m) ∅ ts |}.

Definition to_params (c : ToolCollection) : list Param :=
  map to_param (tools c).

Definition execute (c : ToolCollection) (name : string)
    (tool_input : option I) (w : W) : outcome tool_value * W :=
  match tool_map c !! name with
  | None => (Ret (VResult (ToolFailure ("工具不存在：" +:+ name))), w)
  | Some tool =>
    match tool_execute tool (default empty_input tool_input) w with
    | (Ret result, w') => (Ret result, w')
    | (Raise e, w') =>
      if is_ToolError e then (Ret (VResult (ToolFailure (exn_msg e))), w')
      else (Raise e, w')
    end
  end.

Definition get_tool (c : ToolCollection) (name : string) : option BaseTool :=
  tool_map c !! name.

Definition add_tool (c : ToolCollection) (tool : BaseTool) : ToolCollection :=
  {| tools := tools c ++ [tool];
     tool_map := <[name tool := tool]> (tool_map c) |}.

Definition add_tools (c : ToolCollection) (ts : list BaseTool) : ToolCollection :=
  foldl add_tool c ts.

End Registry.

Arguments BaseTool : clear implicits.
Arguments ToolCollection : clear implicits.

End ToolCollection.

(** ** Messages and agent states

[app/schema.py] is not among the sources; its declarations are taken
from the data model of the specification. *)

Module Schema.

(** Modelled from the spec: the enum [AgentState] of [app/schema.py],
    "enum {IDLE, RUNNING, FINISHED, ERROR}". *)
Inductive AgentState : Type := IDLE | RUNNING | FINISHED | ERROR.

#[global] Instance AgentState_eq_dec : EqDecision AgentState.
Proof. solve_decision. Defined.

(** Modelled from the spec: the message roles of [app/schema.py],
    "role ∈ {user, system, assistant, tool}". *)
Inductive Role : Type := User | System | Assistant | Tool.

#[global] Instance Role_eq_dec : EqDecision Role.
Proof. solve_decision. Defined.

(** Modelled from the spec: [ToolCall] of [app/schema.py], "id, function
    name, raw argument payload", in the shape [toolcall.py] reads it:
    [command.id] and [command.function], the latter with [name] and
    [arguments]. The model client is "possibly faulty", and [execute_tool]
    (line 136) reckons with a call that has no [function]: such a call
    has [None] there. *)
Record Function : Type := mk_function {
    fn_name : string;
    fn_arguments : string
  }.

Record ToolCall : Type := mk_tool_call {
    call_id : string;
    call_function : option Function
  }.

(** A call as the contract describes it. *)
Definition mk_call (id function_name arguments : string) : ToolCall :=
  mk_tool_call id (Some (mk_function function_name arguments)).

(** [command.function.name] and [command.function.arguments], read as
    empty when the call has no function: the guard of [execute_tool]
    rejects a missing function and an empty name alike, and nothing else
    of [execute_tool] runs on such a call. *)
Definition call_function_name (c : ToolCall) : string :=
  match call_function c with
  | Some f => fn_name f
  | None => ""
  end.

Definition call_arguments (c : ToolCall) : string :=
  match call_function c with
  | Some f => fn_arguments f
  | None => ""
  end.

(** Modelled from the spec: [Message] of [app/schema.py], "role; content
    (nullable text); optional list of ToolCall; optional tool_call_id +
    tool name". *)
Record Message : Type := mk_message {
    role : Role;
    content : option string;
    tool_calls : list ToolCall;
    tool_name : option string;
    tool_call_id : option string
  }.

(** Modelled from the spec: the factories [Message.user_message],
    [Message.system_message] and [Message.assistant_message]. *)
Definition user_message (c : string) : Message :=
  mk_message User (Some c) [] None None.

Definition system_message (c : string) : Message :=
  mk_message System (Some c) [] None None.

Definition assistant_message (c : option string) : Message :=
  mk_message Assistant c [] None None.

(** Modelled from the spec: [Memory.add_message], an append to the
    "ordered, append-only log". *)
Definition add_message (m : Message) (messages : list Message) : list Message :=
  messages ++ [m].

End Schema.

Import Schema.

(** ** The agent core ([app/agent/base.py]) *)

Module BaseAgent.

(** ["\n".join(l)] and the like. *)
Fixpoint join (sep : string) (l : list string) : string :=
  match l with
  | [] => ""
  | [x] => x
  | x :: r => x +:+ sep +:+ join sep r
  end.

Section Core.

(** The fields that subclasses add to the agent. *)
Context {X : Type}.

Record BaseAgent : Type := mk_agent {
    name : string;
    system_prompt : option string;
    next_step_prompt : option string;
    messages : list Message;
    state : AgentState;
    max_steps : Z;
    current_step : Z;
    duplicate_threshold : Z;
    ext : X
  }.

Definition set_state (s : AgentState) (a : BaseAgent) : BaseAgent :=
  mk_agent (name a) (system_prompt a) (next_step_prompt a) (messages a) s
    (max_steps a) (current_step a) (duplicate_threshold a) (ext a).

Definition set_current_step (n : Z) (a : BaseAgent) : BaseAgent :=
  mk_agent (name a) (system_prompt a) (next_step_prompt a) (messages a)
    (state a) (max_steps a) n (duplicate_threshold a) (ext a).

Definition set_next_step_prompt (p : option string) (a : BaseAgent) : BaseAgent :=
  mk_agent (name a) (system_prompt a) p (messages a) (state a)
    (max_steps a) (current_step a) (duplicate_threshold a) (ext a).

Definition set_messages (ms : list Message) (a : BaseAgent) : BaseAgent :=
  mk_agent (name a) (system_prompt a) (next_step_prompt a) ms (state a)
    (max_steps a) (current_step a) (duplicate_threshold a) (ext a).

Definition set_ext (x : X) (a : BaseAgent) : BaseAgent :=
  mk_agent (name a) (system_prompt a) (next_step_prompt a) (messages a)
    (state a) (max_steps a) (current_step a) (duplicate_threshold a) x.

(** [state_context]: the scoped state transition around a body. A body
    that does not come back within its fuel is [None]. *)
Definition state_context {A} (new_state : AgentState)
    (body : BaseAgent -> option (outcome A * BaseAgent)) (a : BaseAgent)
  : option (outcome A * BaseAgent) :=
  let previous_state := state a in
  let a := set_state new_state a in
  match body a with
  | None => None
  | Some (Ret v, a) => Some (Ret v, set_state previous_state a)
  | Some (Raise e, a) =>
    let a := set_state ERROR a in
    Some (Raise e, set_state previous_state a)
  end.

(** [update_memory("user", content)] *)
Definition update_memory_user (c : string) (a : BaseAgent) : BaseAgent :=
  set_messages (add_message (user_message c) (messages a)) a.

Definition is_stuck (a : BaseAgent) : bool :=
  if (length (messages a) <? 2)%nat then false
  else
    match last (messages a) with
    | None => false
    | Some last_message =>
      if negb (truthy (content last_message)) then false
      else
        let duplicate_count :=
          sum_list
            (map (fun _ => 1%nat)
               (filter (fun msg => role msg = Assistant
                                   ∧ content msg = content last_message)
                  (rev (removelast (messages a))))) in
        bool_decide (Z.of_nat duplicate_count >= duplicate_threshold a)%Z
    end.

Definition stuck_prompt : string :=
  "        观察到重复响应。考虑新的策略，避免重复已经尝试过的无效路径。".

Definition handle_stuck_state (a : BaseAgent) : BaseAgent :=
  set_next_step_prompt
    (Some (stuck_prompt +:+ nl +:+ fmt_opt (next_step_prompt a))) a.

(** The abstract method [step], supplied by the subclass. *)
Variable step : BaseAgent -> outcome string * BaseAgent.

(** The text of [str(self.state)] in the start-state error. *)
Variable state_str : AgentState -> string.

(** How the [while] loop of [run] was left. [loop_calls] counts the
    invocations of [step]. *)
Record loop_result : Type := mk_loop {
    loop_outcome : outcome unit;
    loop_agent : BaseAgent;
    loop_results : list string;
    loop_calls : nat
  }.

Fixpoint run_loop (fuel : nat) (a : BaseAgent) (results : list string)
    (calls : nat) : option loop_result :=
  if bool_decide (current_step a < max_steps a)%Z
     && bool_decide (state a ≠ FINISHED) then
    match fuel with
    | O => None
    | S fuel' =>
      let a := set_current_step (current_step a + 1) a in
      match step a with
      | (Raise e, a) => Some (mk_loop (Raise e) a results (S calls))
      | (Ret step_result, a) =>
        let a := if is_stuck a then handle_stuck_state a else a in
        run_loop fuel' a
          (results ++ ["步骤 " +:+ pretty (current_step a) +:+ ": " +:+ step_result])
          (S calls)
      end
    end
  else Some (mk_loop (Ret ()) a results calls).

Definition max_steps_notice (a : BaseAgent) : string :=
  "终止: 达到最大步骤数 (" +:+ pretty (max_steps a) +:+ ")".

(** The statements of the [async with] block after the loop. *)
Definition after_loop (l : loop_result) : outcome (list string) * BaseAgent :=
  match loop_outcome l with
  | Raise e => (Raise e, loop_agent l)
  | Ret _ =>
    let a := loop_agent l in
    if bool_decide (current_step a >= max_steps a)%Z then
      (Ret (loop_results l ++ [max_steps_notice a])%list,
       set_state IDLE (set_current_step 0 a))
    else (Ret (loop_results l), a)
  end.

Definition run_body (fuel : nat) (a : BaseAgent)
  : option (outcome (list string) * BaseAgent) :=
  after_loop <$> run_loop fuel a [] 0.

(** The agent as it enters the scope: the request, if any, is in memory. *)
Definition with_request (request : option string) (a : BaseAgent) : BaseAgent :=
  if truthy request then update_memory_user (fmt_opt request) a else a.

Definition summary (results : list string) : string :=
  match results with
  | [] => "未执行任何步骤"
  | _ => join nl results
  end.

Definition run (fuel : nat) (request : option string) (a : BaseAgent)
  : option (outcome string * BaseAgent) :=
  if bool_decide (state a ≠ IDLE) then
    Some (Raise (mk_exn RuntimeError
                   ("无法从状态运行代理: " +:+ state_str (state a))), a)
  else
    match state_context RUNNING (run_body fuel) (with_request request a) with
    | None => None
    | Some (Ret results, a) => Some (Ret (summary results), a)
    | Some (Raise e, a) => Some (Raise e, a)
    end.

End Core.

Arguments BaseAgent : clear implicits.
Arguments loop_result : clear implicits.

End BaseAgent.

(** ** The ReAct step ([app/agent/react.py]) *)

Module ReActAgent.

Section React.

Context {X : Type}.

Variable think : BaseAgent.BaseAgent X -> outcome bool * BaseAgent.BaseAgent X.
Variable act : BaseAgent.BaseAgent X -> outcome string * BaseAgent.BaseAgent X.

Definition step (a : BaseAgent.BaseAgent X)
  : outcome string * BaseAgent.BaseAgent X :=
  match think a with
  | (Raise e, a) => (Raise e, a)
  | (Ret should_act, a) =>
    if negb should_act then (Ret "思考完成 - 无需操作", a)
    else act a
  end.

End React.

End ReActAgent.

(** ** The tool-calling agent ([app/agent/toolcall.py]) *)

Module ToolCallAgent.

Import BaseAgent.

(** Modelled from the spec: [ToolChoice] of [app/schema.py], "tool-choice
    mode ∈ {AUTO, REQUIRED, NONE}". *)
Inductive ToolChoice : Type := NONE | AUTO | REQUIRED.

#[global] Instance ToolChoice_eq_dec : EqDecision ToolChoice.
Proof. solve_decision. Defined.

(** What [LLM.ask_tool] answers: "{ content: optional text, tool_calls:
    ordered list }". The client ([app/llm.py]) is "an opaque,
    possibly-faulty black box": where [ask_tool] is used, its answer is
    an [option Response], with [None] for Python's [None], the empty
    answer. *)
Record Response : Type := mk_response {
    response_content : option string;
    response_tool_calls : list ToolCall
  }.

(** The text of the [AttributeError] of a failed attribute read. *)
Definition attribute_error (type_name attribute : string) : exn :=
  mk_exn AttributeError
    ("'" +:+ type_name +:+ "' object has no attribute '" +:+ attribute +:+ "'").

(** [[call.function.name for call in response.tool_calls]], which
    [think] evaluates for its log line before the [try] block: the read
    [call.function.name] raises on a call without function. *)
Fixpoint logged_names (calls : list ToolCall) : outcome (list string) :=
  match calls with
  | [] => Ret []
  | call :: rest =>
    match call_function call with
    | None => Raise (attribute_error "NoneType" "name")
    | Some f =>
      match logged_names rest with
      | Ret names => Ret (fn_name f :: names)
      | Raise e => Raise e
      end
    end
  end.

Section Think.

Context {W I : Type}.

(** The fields of [ToolCallAgent]. *)
Record Fields : Type := mk_fields {
    available_tools : ToolCollection.ToolCollection W I;
    tool_choices : ToolChoice;
    special_tool_names : list string;
    tool_calls : list ToolCall
  }.

Definition Agent : Type := BaseAgent Fields.

Definition set_tool_calls (calls : list ToolCall) (a : Agent) : Agent :=
  set_ext (mk_fields (available_tools (ext a)) (tool_choices (ext a))
             (special_tool_names (ext a)) calls) a.

(** The model client, [app/llm.py]: an opaque call that answers or
    raises. *)
Variable ask_tool :
  list Message -> option (list Message) -> list ToolCollection.Param
  -> ToolChoice -> outcome (option Response).

(** [Message.from_tool_calls], [app/schema.py]: it serialises every
    call of the response into the message and may raise on a
    malformed one. *)
Variable from_tool_calls : option string -> list ToolCall -> outcome Message.

Definition has_calls (a : Agent) : bool :=
  match tool_calls (ext a) with [] => false | _ :: _ => true end.

Definition remember (m : Message) (a : Agent) : Agent :=
  set_messages (add_message m (messages a)) a.

(** The body of the [try] block of [think]. *)
Definition think_try (response : Response) (a : Agent) : outcome bool * Agent :=
  if bool_decide (tool_choices (ext a) = NONE) then
    if truthy (response_content response) then
      (Ret true, remember (assistant_message (response_content response)) a)
    else (Ret false, a)
  else
    match (if has_calls a
           then from_tool_calls (response_content response) (tool_calls (ext a))
           else Ret (assistant_message (response_content response))) with
    | Raise e => (Raise e, a)
    | Ret assistant_msg =>
      let a := remember assistant_msg a in
      if bool_decide (tool_choices (ext a) = REQUIRED) && negb (has_calls a) then
        (Ret true, a)
      else if bool_decide (tool_choices (ext a) = AUTO) && negb (has_calls a) then
        (Ret (truthy (response_content response)), a)
      else (Ret (has_calls a), a)
    end.

Definition error_message (e : exn) : Message :=
  assistant_message (Some ("Error encountered while processing: " +:+ exn_msg e)).

(** The agent once the standing next-step prompt, if any, is in memory. *)
Definition prompted (a : Agent) : Agent :=
  if truthy (next_step_prompt a)
  then set_messages (messages a ++ [user_message (fmt_opt (next_step_prompt a))]) a
  else a.

(** The call [self.llm.ask_tool(...)] of [think]. *)
Definition ask (a : Agent) : outcome (option Response) :=
  ask_tool (messages a)
    (if truthy (system_prompt a)
     then Some [system_message (fmt_opt (system_prompt a))] else None)
    (ToolCollection.to_params (available_tools (ext a)))
    (tool_choices (ext a)).

(** [think]. Between the call of the client and the [try] block it
    reads [response.tool_calls] (line 54), [response.content] (line 57)
    and, when there are calls, [call.function.name] of each (line 63);
    a fault of these reads is not caught. *)
Definition think (a : Agent) : outcome bool * Agent :=
  let a := prompted a in
  match ask a with
  | Raise e => (Raise e, a)
  | Ret None => (Raise (attribute_error "NoneType" "tool_calls"), a)
  | Ret (Some response) =>
    let a := set_tool_calls (response_tool_calls response) a in
    match logged_names (response_tool_calls response) with
    | Raise e => (Raise e, a)
    | Ret _ =>
      match think_try response a with
      | (Ret b, a) => (Ret b, a)
      | (Raise e, a) => (Ret false, remember (error_message e) a)
      end
    end
  end.

End Think.

Arguments Fields : clear implicits.
Arguments Agent : clear implicits.

End ToolCallAgent.

(** ** The plan parser of the planning agent ([app/agent/planning.py]) *)

Module PlanningAgent.

Import Planning.

Definition steps_marker : list N := utf8_decode "Steps:".
Definition not_started_marker : list N := utf8_decode "[ ]".
Definition in_progress_marker : list N := utf8_decode "[→]".

(** The first loop of [_get_current_step_index]: the index of the first
    line that is ["Steps:"] once stripped. *)
Fixpoint find_steps_line (i : nat) (plan_lines : list (list N)) : option nat :=
  match plan_lines with
  | [] => None
  | line :: rest =>
    if cps_eqb (strip line) steps_marker then Some i
    else find_steps_line (S i) rest
  end.

(** The second loop: the offset of the first line that carries the
    not-started or the in-progress marker. *)
Fixpoint find_active_line (i : nat) (lines : list (list N)) : option nat :=
  match lines with
  | [] => None
  | line :: rest =>
    if contains not_started_marker line || contains in_progress_marker line
    then Some i
    else find_active_line (S i) rest
  end.

Section Overlay.

Context {W : Type}.

Variable available_tools : ToolCollection.ToolCollection W kwargs.

Definition call_planning (kw : kwargs) (w : W) : outcome tool_value * W :=
  ToolCollection.execute no_kwargs available_tools "planning" (Some kw) w.

(** The result is [None] when the registry answers with a result whose
    [output] is [None]. *)
Definition get_plan (active_plan_id : option string) (w : W)
  : outcome (option string) * W :=
  if negb (truthy active_plan_id) then
    (Ret (Some "No active plan. Please create a plan first."), w)
  else
    match call_planning
            (mk_kwargs (Some "get") active_plan_id None StepsNone None None None) w with
    | (Raise e, w) => (Raise e, w)
    | (Ret (VResult result), w) => (Ret (output result), w)
    | (Ret (VStr s), w) => (Ret (Some s), w)
    end.

Definition _get_current_step_index (active_plan_id : option string) (w : W)
  : outcome (option nat) * W :=
  if negb (truthy active_plan_id) then (Ret None, w)
  else
    match get_plan active_plan_id w with
    | (Raise e, w) => (Raise e, w)
    | (Ret None, w) => (Ret None, w)
    | (Ret (Some plan), w) =>
      let plan_lines := splitlines (utf8_decode plan) in
      match find_steps_line 0 plan_lines with
      | None => (Ret None, w)
      | Some steps_index =>
        match find_active_line 0 (drop (S steps_index) plan_lines) with
        | None => (Ret None, w)
        | Some i =>
          match call_planning
                  (mk_kwargs (Some "mark_step") active_plan_id None StepsNone
                     (Some (Z.of_nat i)) (Some "in_progress") None) w with
          | (Ret _, w) => (Ret (Some i), w)
          | (Raise _, w) => (Ret None, w)
          end
        end
      end
    end.

End Overlay.

(** [PlanningTool()] as a registered tool; [schema] is its [parameters]
    dictionary. *)
Definition planning_tool (percent_1f : nat -> nat -> string) (schema : string)
  : ToolCollection.BaseTool PlanningTool kwargs :=
  {| ToolCollection.name := "planning";
     ToolCollection.description :=
       nl +:+ "A planning tool that allows the agent to create and manage plans for solving complex tasks."
          +:+ nl +:+ "The tool provides functionality for creating plans, updating plan steps, and tracking progress."
          +:+ nl;
     ToolCollection.parameters := Some schema;
     ToolCollection.tool_execute := execute percent_1f |}.

End PlanningAgent.

(** ** Scenarios *)

Module Scenario.

Import Planning.

(** ["".join(line + "\n" for line in l)] *)
Fixpoint unlines (l : list string) : string :=
  match l with
  | [] => ""
  | x :: r => x +:+ nl +:+ unlines r
  end.

Section WithPercent.

Variable percent_1f : nat -> nat -> string.

(** Scenario D: [create] a plan with three steps ... *)
Definition created : PlanningTool :=
  snd (_create_plan percent_1f (Some "p") (Some "T")
         (StepsList [SStr "a"; SStr "b"; SStr "c"]) empty_tool).

(** ... and [mark_step] index 1 as completed. *)
Definition marked : outcome tool_value * PlanningTool :=
  _mark_step percent_1f (Some "p") (Some 1%Z) (Some "completed") None created.

(** A registry that holds the planning tool. *)
Definition registry : ToolCollection.ToolCollection PlanningTool kwargs :=
  ToolCollection.__init__ [PlanningAgent.planning_tool percent_1f "{}"].

End WithPercent.

(** [Terminate()] ([app/tool/terminate.py]) as a registered tool; its
    input is the keyword [status], absent when [None]. *)
Definition terminate_tool : ToolCollection.BaseTool () (option string) :=
  {| ToolCollection.name := "terminate";
     ToolCollection.description :=
       "终止交互工具描述：" +:+ nl
         +:+ "当任务完成或助手无法继续处理时调用此工具结束交互。" +:+ nl
         +:+ "当所有任务完成后，调用该工具终止工作流程。";
     ToolCollection.parameters := Some "{}";
     ToolCollection.tool_execute := fun status w =>
       match status with
       | Some status => (Ret (VStr ("交互已完成，状态：" +:+ status)), w)
       | None =>
         (Raise (mk_exn TypeError
            "Terminate.execute() missing 1 required positional argument: 'status'"), w)
       end |}.

(** Another tool that also calls itself [terminate]. *)
Definition other_terminate : ToolCollection.BaseTool () (option string) :=
  {| ToolCollection.name := "terminate";
     ToolCollection.description := "stop";
     ToolCollection.parameters := None;
     ToolCollection.tool_execute := fun _ w => (Ret (VStr "stopped"), w) |}.

Definition terminate_registry : ToolCollection.ToolCollection () (option string) :=
  ToolCollection.__init__ [terminate_tool].

(** Agents without subclass fields, and some [step] methods. *)
Definition agent_in (s : AgentState) (max_steps current_step : Z)
  : BaseAgent.BaseAgent () :=
  BaseAgent.mk_agent "agent" None None [] s max_steps current_step 2 ().

Definition plain_step (a : BaseAgent.BaseAgent ())
  : outcome string * BaseAgent.BaseAgent () :=
  (Ret "ok", a).

Definition finishing_step (a : BaseAgent.BaseAgent ())
  : outcome string * BaseAgent.BaseAgent () :=
  (Ret "done",
   if bool_decide (BaseAgent.current_step a = 2%Z)
   then BaseAgent.set_state FINISHED a else a).

Definition failing_step (a : BaseAgent.BaseAgent ())
  : outcome string * BaseAgent.BaseAgent () :=
  (Raise (mk_exn ValueError "boom"), a).

Definition state_name (s : AgentState) : string :=
  match s with
  | IDLE => "IDLE"
  | RUNNING => "RUNNING"
  | FINISHED => "FINISHED"
  | ERROR => "ERROR"
  end.

(** A tool-calling agent, a model client that is unreachable, one that
    answers with a call, and a message factory that rejects it. *)
Definition toolcall_agent (choice : ToolCallAgent.ToolChoice)
  : ToolCallAgent.Agent () (option string) :=
  BaseAgent.mk_agent "toolcall" None (Some "next?") [] RUNNING 30 1 2
    (ToolCallAgent.mk_fields terminate_registry choice ["terminate"] []).

Definition unreachable_llm (_ : list Message) (_ : option (list Message))
    (_ : list ToolCollection.Param) (_ : ToolCallAgent.ToolChoice)
  : outcome (option ToolCallAgent.Response) :=
  Raise (mk_exn (OtherException "APIConnectionError") "Connection error.").

Definition calling_llm (_ : list Message) (_ : option (list Message))
    (_ : list ToolCollection.Param) (_ : ToolCallAgent.ToolChoice)
  : outcome (option ToolCallAgent.Response) :=
  Ret (Some (ToolCallAgent.mk_response None [mk_call "call_1" "terminate" "{}"])).

(** A model client that hands back the empty answer, and one whose
    answer holds a call without function. *)
Definition silent_llm (_ : list Message) (_ : option (list Message))
    (_ : list ToolCollection.Param) (_ : ToolCallAgent.ToolChoice)
  : outcome (option ToolCallAgent.Response) :=
  Ret None.

Definition garbled_llm (_ : list Message) (_ : option (list Message))
    (_ : list ToolCollection.Param) (_ : ToolCallAgent.ToolChoice)
  : outcome (option ToolCallAgent.Response) :=
  Ret (Some (ToolCallAgent.mk_response (Some "ok") [mk_tool_call "call_1" None])).

Definition rejecting_factory (_ : option string) (_ : list ToolCall)
  : outcome Message :=
  Raise (mk_exn AttributeError "'NoneType' object has no attribute 'model_dump'").

(** A stand-in for the percentage text; it is the right one for one
    completed step out of three. *)
Definition one_third (_ _ : nat) : string := "33.3".

(** The rendering of the plan of scenario D. *)
Definition rendered : string :=
  unlines [ "计划：T (ID：p)";
            "============";
            "";
            "进度：1/3 (33.3%)";
            "状态：完成1个，进行中0个，阻塞0个，未开始2个";
            "";
            "步骤详情：";
            "0. □ a";
            "1. ✓ b";
            "2. □ c" ].

End Scenario.

(** ** Invariants and specification-side definitions *)

Module Spec.

Import Planning BaseAgent.

(** The parallel arrays of a plan have one length. *)
Definition plan_wf (p : Plan) : Prop :=
  length (steps p) = length (step_statuses p)
  ∧ length (step_statuses p) = length (step_notes p).

(** Every plan held by the tool is well formed. *)
Definition store_wf (t : PlanningTool) : Prop :=
  Forall (fun entry => plan_wf (snd entry)) (plans t).

(** The content of the last message, if there is one. *)
Definition last_content (ms : list Message) : option string :=
  last ms ≫= content.

(** "The number of messages before the last one that have role assistant
    and content equal to the last message's content." *)
Definition prior_duplicates (ms : list Message) : nat :=
  length (filter (fun m => role m = Assistant ∧ content m = last_content ms)
            (removelast ms)).

(** A [step] method leaves the step counter and the step budget alone,
    as every [step] of the repository does. *)
Definition step_frame {X} (step : BaseAgent X → outcome string * BaseAgent X)
  : Prop :=
  ∀ a, current_step (snd (step a)) = current_step a
       ∧ max_steps (snd (step a)) = max_steps a.

(** The agent on which the loop of [run] starts. *)
Definition entered {X} (request : option string) (a : BaseAgent X) : BaseAgent X :=
  set_state RUNNING (with_request request a).

(** "Loop iterations (step invocations)": [invoked step a lines a'] says
    that, from the agent [a], [step] was invoked once per line of [lines],
    each time because the counter was below the budget and the state not
    FINISHED, on the agent the invocation before it left with the counter
    incremented; that every invocation returned, its result making the
    line; and that the last one, stuck handling included, left [a']. *)
Inductive invoked {X} (step : BaseAgent X → outcome string * BaseAgent X)
  : BaseAgent X → list string → BaseAgent X → Prop :=
| invoked_none a : invoked step a [] a
| invoked_more a step_result a1 lines a' :
    (current_step a < max_steps a)%Z →
    state a ≠ FINISHED →
    step (set_current_step (current_step a + 1) a) = (Ret step_result, a1) →
    invoked step (if is_stuck a1 then handle_stuck_state a1 else a1) lines a' →
    invoked step a
      (("步骤 "
          +:+ pretty (current_step (if is_stuck a1 then handle_stuck_state a1 else a1))
          +:+ ": " +:+ step_result) :: lines)
      a'.

End Spec.

(** ** Further invariants of the planning tool *)

Module Invariant.

Import Planning Spec.

(** A stored plan carries its key as [plan_id], has at least one step,
    parallel arrays of one length, and only valid statuses. *)
Definition plan_ok (pid : string) (p : Plan) : Prop :=
  plan_id p = pid ∧ steps p ≠ [] ∧ plan_wf p
  ∧ Forall (fun s => str_in s valid_statuses = true) (step_statuses p).

(** The dictionary of plans has one entry per key, each of them a plan
    as above. *)
Definition store_ok (t : PlanningTool) : Prop :=
  NoDup (map fst (plans t))
  ∧ Forall (fun entry => plan_ok (fst entry) (snd entry)) (plans t).

(** What a command guarantees on a store that satisfies the invariant:
    the invariant again, and when it raises, a [ToolError] and (if
    [frame] holds) the state it started from. *)
Definition guarded (frame : Prop) (t : PlanningTool)
    (r : outcome tool_value * PlanningTool) : Prop :=
  store_ok (snd r)
  ∧ ∀ e, fst r = Raise e → is_ToolError e = true ∧ (frame → snd r = t).

End Invariant.

(** ** Tool results, continued ([app/tool/base.py]) *)

Module ToolResultMore.

(** The helper [combine_fields] of [ToolResult.__add__]. *)
Definition combine_fields (field other_field : option string) (concatenate : bool)
  : outcome (option string) :=
  if truthy field && truthy other_field then
    if concatenate then Ret (Some (fmt_opt field +:+ fmt_opt other_field))
    else Raise (mk_exn ValueError "Cannot combine tool results")
  else Ret (if truthy field then field else other_field).

(** [self + other]: every field is combined with [concatenate] at its
    default, and the sum is built by [ToolResult(...)]. *)
Definition __add__ (self other : ToolResult) : outcome ToolResult :=
  match combine_fields (output self) (output other) true with
  | Raise e => Raise e
  | Ret out =>
    match combine_fields (error self) (error other) true with
    | Raise e => Raise e
    | Ret err =>
      match combine_fields (system self) (system other) true with
      | Raise e => Raise e
      | Ret sys => Ret (mk_result ToolResultClass out err sys)
      end
    end
  end.

(** [ToolResult.__str__]: what the method returns. *)
Definition __str__ (self : ToolResult) : option string :=
  if truthy (error self) then Some ("Error: " +:+ fmt_opt (error self))
  else output self.

(** [str(result)]: Python refuses a [__str__] that returns [None]. *)
Definition str_result (self : ToolResult) : outcome string :=
  match __str__ self with
  | Some s => Ret s
  | None => Raise (mk_exn TypeError "__str__ returned non-string (type NoneType)")
  end.

End ToolResultMore.

(** ** The tool registry, continued ([app/tool/tool_collection.py]) *)

Module ToolCollectionMore.

Import ToolCollection.

Section Registry.

Context {W I : Type}.

Variable empty_input : I.

(** The loop of [execute_all]: every tool is called without arguments. *)
Fixpoint execute_all_loop (ts : list (BaseTool W I)) (results : list tool_value)
    (w : W) : outcome (list tool_value) * W :=
  match ts with
  | [] => (Ret results, w)
  | tool :: rest =>
    match tool_execute tool empty_input w with
    | (Ret result, w) => execute_all_loop rest (results ++ [result]) w
    | (Raise e, w) =>
      if is_ToolError e
      then execute_all_loop rest (results ++ [VResult (ToolFailure (exn_msg e))]) w
      else (Raise e, w)
    end
  end.

Definition execute_all (c : ToolCollection W I) (w : W)
  : outcome (list tool_value) * W :=
  execute_all_loop (tools c) [] w.

(** The tools run one after the other without arguments, each on the
    world that the tool before it left; a result is handed on as it is, a
    [ToolError] becomes a failure result. *)
Inductive ran_all : list (BaseTool W I) -> W -> list tool_value -> W -> Prop :=
| ran_none w : ran_all [] w [] w
| ran_result tool rest w result w1 results w' :
    tool_execute tool empty_input w = (Ret result, w1) ->
    ran_all rest w1 results w' ->
    ran_all (tool :: rest) w (result :: results) w'
| ran_tool_error tool rest w e w1 results w' :
    tool_execute tool empty_input w = (Raise e, w1) ->
    is_ToolError e = true ->
    ran_all rest w1 results w' ->
    ran_all (tool :: rest) w (VResult (ToolFailure (exn_msg e)) :: results) w'.

(** The lookup map answers, for every name, with the last tool of that
    name in the tool sequence. *)
Definition map_follows_tools (c : ToolCollection W I) : Prop :=
  ∀ n, tool_map c !! n = last (filter (fun tool => name tool = n) (tools c)).

End Registry.

End ToolCollectionMore.

(** ** The tool-calling agent, continued ([app/agent/toolcall.py]) *)

Module ToolCallMore.

Import BaseAgent ToolCallAgent ToolResultMore.

(** The UTF-8 text cut into its code points, grouped as [utf8_decode]
    groups the bytes. *)
Fixpoint utf8_chars (s : string) : list string :=
  match s with
  | EmptyString => []
  | String b0 r0 =>
    let n0 := Ascii.N_of_ascii b0 in
    if (n0 <? 192)%N then String b0 "" :: utf8_chars r0
    else
      match r0 with
      | EmptyString => [String b0 ""]
      | String b1 r1 =>
        if (n0 <? 224)%N then String b0 (String b1 "") :: utf8_chars r1
        else
          match r1 with
          | EmptyString => [String b0 ""; String b1 ""]
          | String b2 r2 =>
            if (n0 <? 240)%N
            then String b0 (String b1 (String b2 "")) :: utf8_chars r2
            else
              match r2 with
              | EmptyString => [String b0 ""; String b1 ""; String b2 ""]
              | String b3 r3 =>
                String b0 (String b1 (String b2 (String b3 ""))) :: utf8_chars r3
              end
          end
      end
  end.

(** [s[:n]] on code points, for any integer [n]. *)
Definition slice_to (n : Z) (s : string) : string :=
  let chars := utf8_chars s in
  let stop := if (0 <=? n)%Z then Z.to_nat n
              else (length chars - Z.to_nat (- n))%nat in
  String.concat "" (take stop chars).

(** What [json.loads] makes of an argument payload: a dictionary; a value
    that is falsy and so gives way to [{}] in [tool_input or {}]; or any
    other value, on which the unpacking [**] raises a [TypeError] with the
    text [unpack_error]. *)
Inductive json_args (I : Type) : Type :=
| ArgsDict (kw : I)
| ArgsFalsy
| ArgsOther (unpack_error : string).
Arguments ArgsDict {I} kw.
Arguments ArgsFalsy {I}.
Arguments ArgsOther {I} unpack_error.

Definition is_JSONDecodeError (e : exn) : bool :=
  match exn_cls e with
  | OtherException c => String.eqb c "JSONDecodeError"
  | _ => false
  end.

(** Modelled from the spec: the factory [Message.tool_message] of
    [app/schema.py], a tool-role message "tagged with the call's id and
    tool name". *)
Definition tool_message (content tool_call_id name : string) : Message :=
  mk_message Tool (Some content) [] (Some name) (Some tool_call_id).

Definition TOOL_CALL_REQUIRED : string := "Tool calls required but none provided".

(** [bool(result)] and [str(result)] for what a tool hands back. *)
Definition value_bool (v : tool_value) : bool :=
  match v with
  | VStr s => negb (String.eqb s "")
  | VResult r => result_bool r
  end.

Definition value_str (v : tool_value) : outcome string :=
  match v with
  | VStr s => Ret s
  | VResult r => str_result r
  end.

Section Act.

Context {W I : Type}.

Variable empty_input : I.

(** [json.loads], which answers or raises [json.JSONDecodeError]. *)
Variable json_loads : string -> outcome (json_args I).

(** [str.lower]. *)
Variable lower : string -> string.

(** The field [max_observe] of the agent. *)
Variable max_observe : option Z.

Definition _is_special_tool (name : string) (a : Agent W I) : bool :=
  existsb (String.eqb (lower name)) (map lower (special_tool_names (ext a))).

Definition _should_finish_execution : bool := true.

Definition _handle_special_tool (name : string) (a : Agent W I) : Agent W I :=
  if negb (_is_special_tool name a) then a
  else if _should_finish_execution then set_state FINISHED a
  else a.

(** [self.available_tools.execute(name=name, tool_input=args)], the
    unpacking of the arguments included. *)
Definition run_tool (name : string) (args : json_args I) (a : Agent W I) (w : W)
  : outcome tool_value * W :=
  match args with
  | ArgsDict kw =>
    ToolCollection.execute empty_input (available_tools (ext a)) name (Some kw) w
  | ArgsFalsy =>
    ToolCollection.execute empty_input (available_tools (ext a)) name None w
  | ArgsOther unpack_error =>
    match ToolCollection.tool_map (available_tools (ext a)) !! name with
    | None => (Ret (VResult (ToolFailure ("工具不存在：" +:+ name))), w)
    | Some _ => (Raise (mk_exn TypeError unpack_error), w)
    end
  end.

Definition observation_of (name : string) (result : tool_value) : outcome string :=
  if value_bool result then
    match value_str result with
    | Ret s => Ret ("Observed output of cmd `" +:+ name +:+ "` executed:" +:+ nl +:+ s)
    | Raise e => Raise e
    end
  else Ret ("Cmd `" +:+ name +:+ "` completed with no output").

(** The body of the [try] block of [execute_tool]. *)
Definition execute_tool_try (name : string) (command : ToolCall)
    (a : Agent W I) (w : W) : outcome string * Agent W I * W :=
  match json_loads (if String.eqb (call_arguments command) "" then "{}"
                    else call_arguments command) with
  | Raise e => (Raise e, a, w)
  | Ret args =>
    match run_tool name args a w with
    | (Raise e, w) => (Raise e, a, w)
    | (Ret result, w) =>
      match observation_of name result with
      | Raise e => (Raise e, a, w)
      | Ret observation => (Ret observation, _handle_special_tool name a, w)
      end
    end
  end.

Definition execute_tool (command : ToolCall) (a : Agent W I) (w : W)
  : string * Agent W I * W :=
  let name := call_function_name command in
  if String.eqb name "" then ("Error: Invalid command format", a, w)
  else
    match ToolCollection.tool_map (available_tools (ext a)) !! name with
    | None => ("Error: Unknown tool '" +:+ name +:+ "'", a, w)
    | Some _ =>
      match execute_tool_try name command a w with
      | (Ret observation, a, w) => (observation, a, w)
      | (Raise e, a, w) =>
        if is_JSONDecodeError e then
          ("Error: Error parsing arguments for " +:+ name +:+ ": Invalid JSON format", a, w)
        else
          ("Error: ⚠️ Tool '" +:+ name +:+ "' encountered a problem: " +:+ exn_msg e, a, w)
      end
    end.

(** [result[: self.max_observe]] when [self.max_observe] is truthy. *)
Definition observe (result : string) : string :=
  match max_observe with
  | Some n => if (n =? 0)%Z then result else slice_to n result
  | None => result
  end.

(** The loop of [act] over [self.tool_calls]. After [execute_tool] the
    loop reads [command.function.name], for its log line and for the
    tool message: on a call without function this read raises. *)
Fixpoint act_loop (calls : list ToolCall) (results : list string)
    (a : Agent W I) (w : W) : outcome (list string) * Agent W I * W :=
  match calls with
  | [] => (Ret results, a, w)
  | command :: rest =>
    let '(result, a, w) := execute_tool command a w in
    let result := observe result in
    match call_function command with
    | None => (Raise (attribute_error "NoneType" "name"), a, w)
    | Some function =>
      let tool_msg := tool_message result (call_id command) (fn_name function) in
      act_loop rest (results ++ [result]) (remember tool_msg a) w
    end
  end.

Definition act (a : Agent W I) (w : W) : outcome string * Agent W I * W :=
  match tool_calls (ext a) with
  | [] =>
    if bool_decide (tool_choices (ext a) = REQUIRED) then
      (Raise (mk_exn ValueError TOOL_CALL_REQUIRED), a, w)
    else
      match last (messages a) with
      | None => (Raise (mk_exn IndexError "list index out of range"), a, w)
      | Some m =>
        (Ret (if truthy (content m) then fmt_opt (content m)
              else "No content or commands to execute"), a, w)
      end
  | calls =>
    match act_loop calls [] a w with
    | (Ret results, a, w) => (Ret (join (nl +:+ nl) results), a, w)
    | (Raise e, a, w) => (Raise e, a, w)
    end
  end.

(** The calls executed one after the other: each by [execute_tool] on
    the agent and the world that the call before it left, its observation
    filed in memory as a tool message under the id of the call and the
    name of its function. *)
Inductive executed
  : list ToolCall -> Agent W I -> W -> list string -> Agent W I -> W -> Prop :=
| executed_nil a w : executed [] a w [] a w
| executed_cons command function rest a w text a1 w1 observations a' w' :
    call_function command = Some function ->
    execute_tool command a w = (text, a1, w1) ->
    executed rest
      (remember (tool_message (observe text) (call_id command) (fn_name function)) a1)
      w1 observations a' w' ->
    executed (command :: rest) a w (observe text :: observations) a' w'.

(** The model client and the message factory that [think] uses. *)
Variable ask_tool :
  list Message -> option (list Message) -> list ToolCollection.Param
  -> ToolChoice -> outcome (option Response).
Variable from_tool_calls : option string -> list ToolCall -> outcome Message.

(** [ReActAgent.step] as the tool-calling agent inherits it, with the
    world of the tools threaded through [act]. *)
Definition step (a : Agent W I) (w : W) : outcome string * Agent W I * W :=
  match think ask_tool from_tool_calls a with
  | (Raise e, a) => (Raise e, a, w)
  | (Ret should_act, a) =>
    if negb should_act then (Ret "思考完成 - 无需操作", a, w)
    else act a w
  end.

End Act.

End ToolCallMore.

(** ** The planning agent, continued ([app/agent/planning.py]) *)

Module PlanningAgentMore.

Import Planning PlanningAgent.

(** An entry of [step_execution_tracker]: the dictionary with the keys
    [step_index], [tool_name], [status] and, once the call is done,
    [result]. *)
Record Track : Type := mk_track {
  step_index : nat;
  tool_name : string;
  status : string;
  result : option string
}.

(** The test of the second loop of [_get_current_step_index]:
    ["[ ]" in line or "[→]" in line]. *)
Definition has_marker (line : list N) : bool :=
  contains not_started_marker line || contains in_progress_marker line.

Section Overlay.

Context {W : Type}.

Variable available_tools : ToolCollection.ToolCollection W kwargs.

(** [update_plan_status]: the world after it; a fault of the registry is
    logged and dropped. *)
Definition update_plan_status (active_plan_id : option string)
    (step_execution_tracker : gmap string Track) (tool_call_id : string) (w : W) : W :=
  if negb (truthy active_plan_id) then w
  else
    match step_execution_tracker !! tool_call_id with
    | None => w
    | Some tracker =>
      if negb (String.eqb (status tracker) "completed") then w
      else
        snd (call_planning available_tools
               (mk_kwargs (Some "mark_step") active_plan_id None StepsNone
                  (Some (Z.of_nat (step_index tracker))) (Some "completed") None) w)
    end.

End Overlay.

End PlanningAgentMore.

(** ** Flows over several agents ([app/flow/base.py]) *)

Module Flow.

Section Agents.

Context {A T : Type}.

(** The three shapes [BaseFlow.__init__] accepts for [agents]: one agent,
    a list of agents, or a dictionary of them. *)
Inductive agents_arg : Type :=
| OneAgent (agent : A)
| AgentList (agents : list A)
| AgentDict (agents : Dict.t A).

Record BaseFlow : Type := mk_flow {
  agents : Dict.t A;
  tools : option (list T);
  primary_agent_key : option string
}.

(** The key [f"agent_{i}"]. *)
Definition agent_key (i : nat) : string := "agent_" +:+ pretty i.

(** [{f"agent_{i}": agent for i, agent in enumerate(agents)}]. *)
Definition from_list (l : list A) : Dict.t A :=
  fold_left (fun d entry => Dict.set d (agent_key (fst entry)) (snd entry))
    (imap pair l) [].

(** [next(iter(agents_dict))] on a dictionary that is not empty. *)
Definition first_key (d : Dict.t A) : option string :=
  match d with
  | [] => None
  | (k, _) :: _ => Some k
  end.

(** [__init__(agents, **data)], with the entries [primary_agent_key] and
    [tools] of [data]. *)
Definition __init__ (agents : agents_arg) (primary_agent_key : option string)
    (tools : option (list T)) : BaseFlow :=
  let agents_dict :=
    match agents with
    | OneAgent agent => [("default", agent)]
    | AgentList l => from_list l
    | AgentDict d => d
    end in
  let primary_key := primary_agent_key in
  let primary_key :=
    if negb (truthy primary_key) && negb (bool_decide (agents_dict = []))
    then first_key agents_dict
    else primary_key in
  mk_flow agents_dict tools primary_key.




End Agents.

Arguments agents_arg : clear implicits.
Arguments BaseFlow : clear implicits.

End Flow.

(** ** Scenarios, continued *)

Module ScenarioMore.

Import ToolCallMore.

Definition dq : string := String (Ascii.ascii_of_nat 34) EmptyString.

(** The payload [{"status": "success"}]. *)
Definition success_payload : string :=
  "{" +:+ dq +:+ "status" +:+ dq +:+ ": " +:+ dq +:+ "success" +:+ dq +:+ "}".

(** [json.loads] on the payloads of the scenarios: the one above, the
    empty dictionary, and text that is not JSON. *)
Definition loads (s : string) : outcome (json_args (option string)) :=
  if String.eqb s success_payload then Ret (ArgsDict (Some "success"))
  else if String.eqb s "{}" then Ret (ArgsDict None)
  else Raise (mk_exn (OtherException "JSONDecodeError")
                "Expecting value: line 1 column 1 (char 0)").

(** [str.lower] on the lower-case ASCII names of the scenarios. *)
Definition lower (s : string) : string := s.

(** A special tool that fails with a [ToolError]. *)
Definition refusing_terminate : ToolCollection.BaseTool () (option string) :=
  {| ToolCollection.name := "terminate";
     ToolCollection.description := "refuses";
     ToolCollection.parameters := None;
     ToolCollection.tool_execute := fun _ w =>
       (Raise (mk_exn ToolError "not now"), w) |}.

(** A tool-calling agent that has two calls queued: one of [terminate]
    and one of a tool that is not registered. *)
Definition acting_agent : ToolCallAgent.Agent () (option string) :=
  BaseAgent.mk_agent "toolcall" None None [] RUNNING 30 1 2
    (ToolCallAgent.mk_fields Scenario.terminate_registry ToolCallAgent.AUTO
       ["terminate"]
       [mk_call "call_1" "terminate" success_payload;
        mk_call "call_2" "search" "{}"]).

Definition refusing_agent : ToolCallAgent.Agent () (option string) :=
  BaseAgent.mk_agent "toolcall" None None [] RUNNING 30 1 2
    (ToolCallAgent.mk_fields (ToolCollection.__init__ [refusing_terminate])
       ToolCallAgent.AUTO ["terminate"]
       [mk_call "call_1" "terminate" success_payload]).

(** A model client that answers with text and no tool call. *)
Definition texting_llm (_ : list Message) (_ : option (list Message))
    (_ : list ToolCollection.Param) (_ : ToolCallAgent.ToolChoice)
  : outcome (option ToolCallAgent.Response) :=
  Ret (Some (ToolCallAgent.mk_response (Some "All done.") [])).

(** A model client that answers with text and with a call of
    [terminate]. *)
Definition answering_llm (_ : list Message) (_ : option (list Message))
    (_ : list ToolCollection.Param) (_ : ToolCallAgent.ToolChoice)
  : outcome (option ToolCallAgent.Response) :=
  Ret (Some (ToolCallAgent.mk_response (Some "On it.")
              [mk_call "call_1" "terminate" success_payload])).

(** An agent whose memory holds the same assistant answer three times. *)
Definition repeating_agent : BaseAgent.BaseAgent () :=
  BaseAgent.mk_agent "agent" None None
    [user_message "go"; assistant_message (Some "again");
     assistant_message (Some "again"); assistant_message (Some "again")]
    RUNNING 10 3 2 ().

End ScenarioMore.

(** * Properties *)

Open Scope list_scope.
(** ** Dictionaries *)

Section DictFacts.

Context {V : Type}.
Implicit Types (d : Dict.t V) (k : string) (v : V).

Lemma dict_get_set_eq d k v : Dict.get (Dict.set d k v) k = Some v.
Proof.
  induction d as [|[k' v'] d IH]; simpl.
  - by rewrite String.eqb_refl.
  - destruct (String.eqb k k') eqn:E; simpl.
    + by rewrite String.eqb_refl.
    + by rewrite E.
Qed.

Lemma dict_get_set_ne d k k' v :
  k ≠ k' → Dict.get (Dict.set d k v) k' = Dict.get d k'.
Proof.
  intros Hne. induction d as [|[k0 v0] d IH]; simpl.
  - destruct (String.eqb k' k) eqn:E; [|done].
    apply String.eqb_eq in E. congruence.
  - destruct (String.eqb k k0) eqn:E; simpl.
    + apply String.eqb_eq in E. subst k0.
      destruct (String.eqb k' k) eqn:E'; [|done].
      apply String.eqb_eq in E'. congruence.
    + by rewrite IH.
Qed.

Lemma dict_get_elem d k v : Dict.get d k = Some v → (k, v) ∈ d.
Proof.
  induction d as [|[k' v'] d IH]; simpl; [done|].
  destruct (String.eqb k k') eqn:E.
  - apply String.eqb_eq in E. intros [= ->]. subst. left.
  - intros H. right. auto.
Qed.

Lemma dict_set_Forall (P : string * V → Prop) d k v :
  Forall P d → P (k, v) → Forall P (Dict.set d k v).
Proof.
  intros Hd Hv. induction Hd as [|[k' v'] d Hx Hd IH]; simpl.
  - by constructor.
  - destruct (String.eqb k k'); by constructor.
Qed.

Lemma dict_del_Forall (P : string * V → Prop) d k :
  Forall P d → Forall P (Dict.del d k).
Proof.
  induction 1 as [|[k' v'] d Hx Hd IH]; simpl; [done|].
  destruct (String.eqb k k'); [done|by constructor].
Qed.

Lemma dict_get_Forall (P : string * V → Prop) d k v :
  Forall P d → Dict.get d k = Some v → P (k, v).
Proof.
  intros Hd Hg. apply dict_get_elem in Hg.
  rewrite Forall_forall in Hd. by apply Hd.
Qed.

End DictFacts.

(** ** The planning tool *)

Section PlanningFacts.

Import Planning Spec.

Variable percent_1f : nat -> nat -> string.

Lemma formatted_state head plan t :
  snd (formatted percent_1f head plan t) = t.
Proof. unfold formatted. by destruct (_format_plan _ _). Qed.

Lemma replicate_wf pid ttl (sts : list string) :
  plan_wf (mk_plan pid ttl sts (replicate (length sts) "not_started")
             (replicate (length sts) "")).
Proof. split; simpl; by rewrite !length_replicate. Qed.

Lemma store_wf_store pid p t :
  store_wf t → plan_wf p → store_wf (store pid p t).
Proof. intros Ht Hp. by apply dict_set_Forall. Qed.

Lemma store_wf_get t pid p :
  store_wf t → Dict.get (plans t) pid = Some p → plan_wf p.
Proof.
  intros Ht Hg.
  apply (dict_get_Forall (fun entry => plan_wf (snd entry)) _ _ _ Ht Hg).
Qed.

(** The loop of [_update_plan] adds one status and one note per new step. *)
Lemma carry_over_length new_steps : ∀ i old_steps old_statuses old_notes ns nn ns' nn',
  carry_over i new_steps old_steps old_statuses old_notes ns nn = Ret (ns', nn') →
  length ns' = (length ns + length new_steps)%nat
  ∧ length nn' = (length nn + length new_steps)%nat.
Proof.
  induction new_steps as [|step rest IH]; intros i os ost on ns nn ns' nn'; simpl.
  - intros [= <- <-]. lia.
  - case_bool_decide.
    + unfold list_get. destruct (ost !! i); [|done]. destruct (on !! i); [|done].
      intros Hc. apply IH in Hc. rewrite !length_app in Hc. simpl in Hc. lia.
    + intros Hc. apply IH in Hc. rewrite !length_app in Hc. simpl in Hc. lia.
Qed.

Lemma create_plan_wf plan_id title steps t :
  store_wf t → store_wf (snd (_create_plan percent_1f plan_id title steps t)).
Proof.
  intros Ht. unfold _create_plan.
  destruct plan_id as [[|c pid]|]; [done| |done].
  destruct (Dict.mem _ _); [done|].
  destruct title as [[|c' ttl]|]; [done| |done].
  destruct (if steps_truthy steps then str_list steps else None) as [sts|]; [|done].
  rewrite formatted_state. apply dict_set_Forall; [done|]. apply replicate_wf.
Qed.

Lemma update_plan_wf plan_id title steps t :
  store_wf t → store_wf (snd (_update_plan percent_1f plan_id title steps t)).
Proof.
  intros Ht. unfold _update_plan.
  destruct plan_id as [[|c pid]|]; [done| |done].
  destruct (Dict.get _ _) as [plan|] eqn:Hg; [|done].
  pose proof (store_wf_get _ _ _ Ht Hg) as Hp.
  set (plan' := match title with
                | Some (String _ _ as ttl) => set_title ttl plan
                | _ => plan end).
  set (t' := match title with
             | Some (String _ _) => store (String c pid) plan' t
             | _ => t end).
  assert (Hp' : plan_wf plan') by (subst plan'; by destruct title as [[|]|]).
  assert (Ht' : store_wf t').
  { subst t'. destruct title as [[|]|]; try done. by apply store_wf_store. }
  destruct (steps_truthy steps).
  - destruct (str_list steps) as [sts|]; [|done].
    destruct (carry_over _ _ _ _ _ _ _) as [[ns nn]|e] eqn:Hc; [|done].
    rewrite formatted_state. apply store_wf_store; [done|].
    apply carry_over_length in Hc. simpl in Hc. split; simpl; lia.
  - by rewrite formatted_state.
Qed.

Lemma formatted_ret head plan t r :
  fst (formatted percent_1f head plan t) = Ret r →
  ∃ text, _format_plan percent_1f plan = Ret text
          ∧ r = VResult (result_output (head +:+ text)).
Proof.
  unfold formatted. destruct (_format_plan _ _) as [text|e]; simpl; [|done].
  intros [= <-]. by exists text.
Qed.

Lemma create_plan_stored plan_id title steps t r :
  fst (_create_plan percent_1f plan_id title steps t) = Ret r →
  ∃ pid p, plan_id = Some pid
    ∧ Dict.get (plans (snd (_create_plan percent_1f plan_id title steps t))) pid = Some p
    ∧ plan_wf p.
Proof.
  unfold _create_plan.
  destruct plan_id as [[|c pid]|]; [done| |done].
  destruct (Dict.mem _ _); [done|].
  destruct title as [[|c' ttl]|]; [done| |done].
  destruct (if steps_truthy steps then str_list steps else None) as [sts|]; [|done].
  intros _. rewrite formatted_state. simpl. eexists _, _. split; [done|].
  rewrite dict_get_set_eq. split; [done|]. apply replicate_wf.
Qed.

Lemma update_plan_stored plan_id title steps t r :
  store_wf t →
  fst (_update_plan percent_1f plan_id title steps t) = Ret r →
  ∃ pid p, plan_id = Some pid
    ∧ Dict.get (plans (snd (_update_plan percent_1f plan_id title steps t))) pid = Some p
    ∧ plan_wf p.
Proof.
  intros Ht. unfold _update_plan.
  destruct plan_id as [[|c pid]|]; [done| |done].
  destruct (Dict.get _ _) as [plan|] eqn:Hg; [|done].
  pose proof (store_wf_get _ _ _ Ht Hg) as Hp.
  set (plan' := match title with
                | Some (String _ _ as ttl) => set_title ttl plan
                | _ => plan end).
  set (t' := match title with
             | Some (String _ _) => store (String c pid) plan' t
             | _ => t end).
  assert (Hp' : plan_wf plan') by (subst plan'; by destruct title as [[|]|]).
  assert (Hg' : Dict.get (plans t') (String c pid) = Some plan').
  { subst t' plan'. destruct title as [[|]|]; try done. simpl. apply dict_get_set_eq. }
  destruct (steps_truthy steps).
  - destruct (str_list steps) as [sts|]; [|done].
    destruct (carry_over _ _ _ _ _ _ _) as [[ns nn]|e] eqn:Hc; [|done].
    intros _. rewrite formatted_state. simpl. eexists _, _. split; [done|].
    rewrite dict_get_set_eq. split; [done|].
    apply carry_over_length in Hc. simpl in Hc. split; simpl; lia.
  - intros _. rewrite formatted_state. by eexists _, _.
Qed.

(** C7. After a [create] or an [update] command on a store whose plans
    have parallel arrays of one length, every stored plan still has
    [len(steps) == len(step_statuses) == len(step_notes)]; when the
    command succeeds, the plan it names is stored and satisfies it. *)
Theorem C7_parallel_arrays_preserved plan_id title steps t :
  store_wf t →
  (store_wf (snd (_create_plan percent_1f plan_id title steps t))
   ∧ ∀ r, fst (_create_plan percent_1f plan_id title steps t) = Ret r →
          ∃ pid p, plan_id = Some pid
            ∧ Dict.get (plans (snd (_create_plan percent_1f plan_id title steps t))) pid
              = Some p
            ∧ length (Planning.steps p) = length (step_statuses p)
            ∧ length (step_statuses p) = length (step_notes p))
  ∧ (store_wf (snd (_update_plan percent_1f plan_id title steps t))
     ∧ ∀ r, fst (_update_plan percent_1f plan_id title steps t) = Ret r →
            ∃ pid p, plan_id = Some pid
              ∧ Dict.get (plans (snd (_update_plan percent_1f plan_id title steps t))) pid
                = Some p
              ∧ length (Planning.steps p) = length (step_statuses p)
              ∧ length (step_statuses p) = length (step_notes p)).
Proof.
  intros Ht. repeat split.
  - by apply create_plan_wf.
  - intros r Hr. destruct (create_plan_stored _ _ _ _ _ Hr) as (pid & p & ? & ? & ? & ?).
    by exists pid, p.
  - by apply update_plan_wf.
  - intros r Hr. destruct (update_plan_stored _ _ _ _ _ Ht Hr) as (pid & p & ? & ? & ? & ?).
    by exists pid, p.
Qed.

(** C6. A [mark_step] whose index lies outside [0, len(steps)) of the
    addressed plan raises the tool error and leaves the tool's state,
    hence the plan's steps, statuses and notes, as they were; through the
    registry the caller gets a failure result, again with the state
    unchanged. *)
Theorem C6_mark_step_out_of_range plan_id pid plan idx status notes t :
  or_current plan_id t = Some pid → pid ≠ "" →
  Dict.get (plans t) pid = Some plan →
  (idx < 0 ∨ Z.of_nat (length (Planning.steps plan)) ≤ idx)%Z →
  _mark_step percent_1f plan_id (Some idx) status notes t
    = (tool_error ("步骤索引" +:+ pretty idx +:+ "超出范围"), t)
  ∧ ∀ (reg : ToolCollection.ToolCollection PlanningTool kwargs) tool,
      ToolCollection.tool_map reg !! "planning" = Some tool →
      ToolCollection.tool_execute tool = execute percent_1f →
      ToolCollection.execute no_kwargs reg "planning"
        (Some (mk_kwargs (Some "mark_step") plan_id None StepsNone (Some idx)
                 status notes)) t
      = (Ret (VResult (ToolFailure ("步骤索引" +:+ pretty idx +:+ "超出范围"))), t).
Proof.
  intros Hcur Hne Hget Hidx.
  assert (Hmark : _mark_step percent_1f plan_id (Some idx) status notes t
                  = (tool_error ("步骤索引" +:+ pretty idx +:+ "超出范围"), t)).
  { unfold _mark_step. rewrite Hcur. destruct pid as [|c pid]; [done|].
    rewrite Hget.
    destruct ((idx <? 0)%Z || (idx >=? Z.of_nat (length (Planning.steps plan)))%Z) eqn:E;
      [done|].
    apply orb_false_iff in E as [E1 E2]. lia. }
  split; [done|].
  intros reg tool Hreg Hexec. unfold ToolCollection.execute.
  rewrite Hreg, Hexec. simpl. unfold execute. simpl. by rewrite Hmark.
Qed.

End PlanningFacts.

Lemma C7_parallel_arrays_preserved_witness :
  Spec.store_wf
    (snd (Planning._create_plan Scenario.one_third (Some "p") (Some "T")
            (Planning.StepsList [Planning.SStr "a"]) Planning.empty_tool)).
Proof.
  apply (C7_parallel_arrays_preserved Scenario.one_third (Some "p") (Some "T")
           (Planning.StepsList [Planning.SStr "a"]) Planning.empty_tool).
  constructor.
Defined.

Lemma C6_mark_step_out_of_range_witness :
  Planning._mark_step Scenario.one_third (Some "p") (Some 3%Z) (Some "completed") None
    (Scenario.created Scenario.one_third)
  = (Planning.tool_error ("步骤索引" +:+ pretty 3%Z +:+ "超出范围"),
     Scenario.created Scenario.one_third).
Proof.
  apply (C6_mark_step_out_of_range Scenario.one_third (Some "p") "p"
           (Planning.mk_plan "p" "T" ["a"; "b"; "c"]
              ["not_started"; "not_started"; "not_started"] [""; ""; ""])
           3%Z (Some "completed") None (Scenario.created Scenario.one_third)).
  - reflexivity.
  - discriminate.
  - reflexivity.
  - right. simpl. lia.
Defined.

(** C1. Scenario D on the code: after [create] with three steps and
    [mark_step] of index 1 as completed, the tool renders the steps under
    the header line [步骤详情：] with the markers [□], [✓], [□]; the
    rendering has no line [Steps:] and none of the markers [[ ]], [[→]],
    [[✓]], so the planning agent's [_get_current_step_index], which looks
    for that line and those markers, finds no current step and issues no
    mark-step command. *)
Theorem C1_rendering_scenario_D (percent_1f : nat → nat → string) :
  percent_1f 1%nat 3%nat = "33.3" →
  fst (Scenario.marked percent_1f)
    = Ret (VResult (result_output
             ("步骤1已更新" +:+ nl +:+ nl +:+ Scenario.rendered)))
  ∧ Planning._get_plan percent_1f (Some "p") (snd (Scenario.marked percent_1f))
    = (Ret (VResult (result_output Scenario.rendered)),
       snd (Scenario.marked percent_1f))
  ∧ PlanningAgent.find_steps_line 0 (splitlines (utf8_decode Scenario.rendered)) = None
  ∧ existsb (fun marker => contains (utf8_decode marker) (utf8_decode Scenario.rendered))
      ["[ ]"; "[→]"; "[✓]"; "[!]"] = false
  ∧ PlanningAgent._get_current_step_index (Scenario.registry percent_1f) (Some "p")
      (snd (Scenario.marked percent_1f))
    = (Ret None, snd (Scenario.marked percent_1f)).
Proof.
  intros Hpct.
  assert (Hget : Planning._get_plan percent_1f (Some "p") (snd (Scenario.marked percent_1f))
                 = (Ret (VResult (result_output Scenario.rendered)),
                    snd (Scenario.marked percent_1f))).
  { vm_compute. rewrite Hpct. reflexivity. }
  split; [vm_compute; rewrite Hpct; reflexivity|].
  split; [exact Hget|].
  split; [vm_compute; reflexivity|].
  split; [vm_compute; reflexivity|].
  unfold PlanningAgent._get_current_step_index, PlanningAgent.get_plan,
    PlanningAgent.call_planning, ToolCollection.execute.
  change (truthy (Some "p")) with true. cbn [negb].
  change (ToolCollection.tool_map (Scenario.registry percent_1f) !! "planning")
    with (Some (PlanningAgent.planning_tool percent_1f "{}")).
  cbn [ToolCollection.tool_execute PlanningAgent.planning_tool default from_option].
  unfold id.
  change (Planning.execute percent_1f
            (Planning.mk_kwargs (Some "get") (Some "p") None Planning.StepsNone None None None)
            (snd (Scenario.marked percent_1f)))
    with (Planning._get_plan percent_1f (Some "p") (snd (Scenario.marked percent_1f))).
  rewrite Hget. cbn [output result_output].
  vm_compute. reflexivity.
Qed.

Lemma C1_rendering_scenario_D_witness :
  fst (Scenario.marked Scenario.one_third)
    = Ret (VResult (result_output
             ("步骤1已更新" +:+ nl +:+ nl +:+ Scenario.rendered))).
Proof.
  apply (C1_rendering_scenario_D Scenario.one_third). reflexivity.
Defined.

(** ** The tool registry *)

Section RegistryFacts.

Import ToolCollection.

Context {W I : Type}.
Variable empty_input : I.
Implicit Types (c : ToolCollection W I) (tool : BaseTool W I).

Lemma to_params_add_tool c tool :
  to_params (add_tool c tool) = to_params c ++ [to_param tool].
Proof. unfold to_params, add_tool. simpl. by rewrite map_app. Qed.

Lemma to_params_add_tools ts : ∀ c,
  to_params (add_tools c ts) = to_params c ++ map to_param ts.
Proof.
  induction ts as [|tool ts IH]; intros c; simpl.
  - by rewrite app_nil_r.
  - unfold add_tools in *. simpl. rewrite IH, to_params_add_tool.
    by rewrite <- app_assoc.
Qed.

(** C3, as the code has it. [execute] on a name that is not registered
    returns a failure result whose error is [工具不存在：] followed by the
    name, and touches nothing; a [ToolError] raised by the registered tool
    becomes a failure result carrying its message; a result of the tool is
    handed on; any other exception of the tool leaves [execute] as it
    was raised. *)
Theorem C3_execute_tool_error_only c name tool_input w :
  (tool_map c !! name = None →
   execute empty_input c name tool_input w
   = (Ret (VResult (ToolFailure ("工具不存在：" +:+ name))), w))
  ∧ (∀ tool, tool_map c !! name = Some tool →
      (∀ e w', tool_execute tool (default empty_input tool_input) w = (Raise e, w') →
         is_ToolError e = true →
         execute empty_input c name tool_input w
         = (Ret (VResult (ToolFailure (exn_msg e))), w'))
      ∧ (∀ e w', tool_execute tool (default empty_input tool_input) w = (Raise e, w') →
           is_ToolError e = false →
           execute empty_input c name tool_input w = (Raise e, w'))
      ∧ (∀ r w', tool_execute tool (default empty_input tool_input) w = (Ret r, w') →
           execute empty_input c name tool_input w = (Ret r, w'))).
Proof.
  unfold execute. split.
  - by intros ->.
  - intros tool ->. repeat split.
    + by intros e w' -> ->.
    + by intros e w' -> ->.
    + by intros r w' ->.
Qed.

(** C9, as the code has it. [add_tool] overwrites the entry of the
    lookup map under the tool's name and leaves the other names alone,
    but it always appends to the tool sequence: [to_params] lists every
    registration in order, earlier ones of the same name included.
    Registering a tool twice gives the lookup map of registering it once
    and a tool sequence that holds it twice. *)
Theorem C9_add_tool_overwrites_map_appends_tools c tool :
  tool_map (add_tool c tool) !! name tool = Some tool
  ∧ (∀ other, other ≠ name tool →
       tool_map (add_tool c tool) !! other = tool_map c !! other)
  ∧ to_params (add_tool c tool) = to_params c ++ [to_param tool]
  ∧ (∀ ts, to_params (add_tools c ts) = to_params c ++ map to_param ts)
  ∧ tool_map (add_tool (add_tool c tool) tool) = tool_map (add_tool c tool)
  ∧ to_params (add_tool (add_tool c tool) tool)
    = to_params c ++ [to_param tool; to_param tool].
Proof.
  repeat split.
  - apply lookup_insert_eq.
  - intros other Hne. simpl. by rewrite lookup_insert_ne.
  - apply to_params_add_tool.
  - intros ts. apply to_params_add_tools.
  - simpl. apply insert_insert_eq.
  - rewrite !to_params_add_tool. by rewrite <- app_assoc.
Qed.

End RegistryFacts.

(** C3, counterexample. The registered [terminate] tool, run with no
    input, raises a [TypeError] that is not a [ToolError]; [execute] lets
    it through. *)
Lemma C3_counterexample :
  ToolCollection.tool_map Scenario.terminate_registry !! "terminate"
    = Some Scenario.terminate_tool
  ∧ raises (fst (ToolCollection.execute None Scenario.terminate_registry
                   "terminate" None ())) = true.
Proof. split; vm_compute; reflexivity. Qed.

(** C9, counterexample. Registering [terminate] twice advertises it
    twice, and a second tool of the same name does not displace the
    schema of the first. *)
Lemma C9_counterexample :
  ToolCollection.to_params
    (ToolCollection.add_tool
       (ToolCollection.add_tool (ToolCollection.__init__ []) Scenario.terminate_tool)
       Scenario.terminate_tool)
  ≠ ToolCollection.to_params
      (ToolCollection.add_tool (ToolCollection.__init__ []) Scenario.terminate_tool)
  ∧ ToolCollection.to_params
      (ToolCollection.add_tool
         (ToolCollection.add_tool (ToolCollection.__init__ []) Scenario.terminate_tool)
         Scenario.other_terminate)
    = [ToolCollection.to_param Scenario.terminate_tool;
       ToolCollection.to_param Scenario.other_terminate].
Proof. split; [discriminate|reflexivity]. Qed.

(** ** The agent core *)

Section AgentFacts.

Import BaseAgent Spec.

Context {X : Type}.
Implicit Types (a : BaseAgent X) (ms : list Message).

Lemma sum_ones {A} (l : list A) : sum_list (map (fun _ => 1%nat) l) = length l.
Proof. induction l as [|x l IH]; simpl; [done|]. by rewrite IH. Qed.

Lemma filter_rev_length {A} (P : A → Prop) `{∀ x, Decision (P x)} (l : list A) :
  length (filter P (rev l)) = length (filter P l).
Proof.
  induction l as [|x l IH]; simpl; [done|].
  rewrite filter_app, length_app, IH, !filter_cons, filter_nil.
  destruct (decide (P x)); simpl; lia.
Qed.

(** C8. [is_stuck] answers true exactly when there are at least two
    messages, the last one has non-empty content, and the number of
    messages before the last one that are assistant messages with the
    content of the last one is at least [duplicate_threshold]; so it is
    false with fewer than two messages and false when the last message has
    empty content. *)
Theorem C8_is_stuck_iff a :
  (is_stuck a = true ↔
     (2 ≤ length (messages a))%nat
     ∧ truthy (last_content (messages a)) = true
     ∧ (duplicate_threshold a ≤ Z.of_nat (prior_duplicates (messages a)))%Z)
  ∧ ((length (messages a) < 2)%nat → is_stuck a = false)
  ∧ (truthy (last_content (messages a)) = false → is_stuck a = false).
Proof.
  unfold is_stuck, prior_duplicates, last_content.
  destruct (Nat.ltb_spec (length (messages a)) 2) as [Hlen|Hlen].
  { split; [|done]. split; [done|]. intros (? & _). lia. }
  destruct (last (messages a)) as [last_message|] eqn:Hlast; simpl.
  2: { split; [|done]. split; [done|]. by intros (_ & ? & _). }
  destruct (truthy (content last_message)) eqn:Hcontent; simpl.
  2: { split; [|done]. split; [done|]. by intros (_ & ? & _). }
  rewrite sum_ones, filter_rev_length.
  split; [|split; [lia|done]].
  rewrite bool_decide_eq_true. split.
  - intros Hthr. split; [done|]. split; [done|lia].
  - intros (_ & _ & Hthr). lia.
Qed.

Variable step : BaseAgent X → outcome string * BaseAgent X.
Variable state_str : AgentState → string.

Lemma stuck_frame a :
  let a' := if is_stuck a then handle_stuck_state a else a in
  current_step a' = current_step a ∧ max_steps a' = max_steps a
  ∧ state a' = state a.
Proof. by destruct (is_stuck a). Qed.

(** What holds of the loop whenever it is left. *)
Lemma run_loop_inv (Hframe : step_frame step) fuel : ∀ a results calls l,
  run_loop step fuel a results calls = Some l →
  max_steps (loop_agent l) = max_steps a
  ∧ Z.of_nat (loop_calls l)
    = (Z.of_nat calls + (current_step (loop_agent l) - current_step a))%Z
  ∧ (current_step a ≤ current_step (loop_agent l))%Z
  ∧ (current_step (loop_agent l) ≤ Z.max (current_step a) (max_steps a))%Z
  ∧ (loop_outcome l = Ret () →
     (max_steps a ≤ current_step (loop_agent l))%Z
     ∨ state (loop_agent l) = FINISHED)
  ∧ (current_step (loop_agent l) = current_step a → loop_agent l = a).
Proof.
  assert (Hexit : ∀ a results calls,
            ¬ ((current_step a < max_steps a)%Z ∧ state a ≠ FINISHED) →
            let l := mk_loop (Ret ()) a results calls in
            max_steps (loop_agent l) = max_steps a
            ∧ Z.of_nat (loop_calls l)
              = (Z.of_nat calls + (current_step (loop_agent l) - current_step a))%Z
            ∧ (current_step a ≤ current_step (loop_agent l))%Z
            ∧ (current_step (loop_agent l) ≤ Z.max (current_step a) (max_steps a))%Z
            ∧ (loop_outcome l = Ret () →
               (max_steps a ≤ current_step (loop_agent l))%Z
               ∨ state (loop_agent l) = FINISHED)
            ∧ (current_step (loop_agent l) = current_step a → loop_agent l = a)).
  { intros a results calls Hcond. simpl. split_and!; try done; try lia.
    intros _. destruct (decide (state a = FINISHED)); [by right|left].
    destruct (decide (current_step a < max_steps a)%Z); [|lia]. by destruct Hcond. }
  induction fuel as [|fuel IH]; intros a results calls l; simpl.
  - case_bool_decide as Hlt; simpl.
    + case_bool_decide as Hfin; simpl; [done|].
      intros [= <-]. apply Hexit. by intros [_ ?].
    + intros [= <-]. apply Hexit. by intros [? _].
  - case_bool_decide as Hlt; simpl.
    2: { intros [= <-]. apply Hexit. by intros [? _]. }
    case_bool_decide as Hfin; simpl.
    2: { intros [= <-]. apply Hexit. by intros [_ ?]. }
    destruct (Hframe (set_current_step (current_step a + 1) a)) as [Hc Hm].
    destruct (step (set_current_step (current_step a + 1) a)) as [[r|e] a2];
      simpl in Hc, Hm.
    + intros Hl. apply IH in Hl.
      destruct (stuck_frame a2) as (Hc' & Hm' & _).
      simpl in Hc', Hm'. rewrite Hc', Hm', Hc, Hm in Hl.
      destruct Hl as (H1 & H2 & H3 & H4 & H5 & H6).
      split_and!; try lia.
      intros Hret. destruct (H5 Hret); [left; lia|by right].
    + intros [= <-]. simpl. rewrite Hc, Hm. split_and!; try lia. done.
Qed.

(** The loop is left once the fuel covers the remaining budget. *)
Lemma run_loop_terminates (Hframe : step_frame step) fuel : ∀ a results calls,
  (max_steps a - current_step a ≤ Z.of_nat fuel)%Z →
  ∃ l, run_loop step fuel a results calls = Some l.
Proof.
  induction fuel as [|fuel IH]; intros a results calls Hfuel; simpl.
  - case_bool_decide as Hlt; simpl; [lia|]. by eexists.
  - case_bool_decide as Hlt; simpl; [|by eexists].
    case_bool_decide as Hfin; simpl; [|by eexists].
    destruct (Hframe (set_current_step (current_step a + 1) a)) as [Hc Hm].
    destruct (step (set_current_step (current_step a + 1) a)) as [[r|e] a2];
      simpl in Hc, Hm; [|by eexists].
    apply IH. destruct (stuck_frame a2) as (Hc' & Hm' & _).
    simpl in Hc', Hm'. rewrite Hc', Hm', Hc, Hm. lia.
Qed.

(** [run] from IDLE, in terms of how the loop was left. *)
Lemma run_idle fuel request a l :
  state a = IDLE →
  run_loop step fuel (entered request a) [] 0 = Some l →
  run step state_str fuel request a
  = Some (match after_loop l with
          | (Ret results, a') => (Ret (summary results), set_state IDLE a')
          | (Raise e, a') => (Raise e, set_state IDLE (set_state ERROR a'))
          end).
Proof.
  intros Hidle Hl. unfold run. rewrite bool_decide_eq_false_2 by (by rewrite Hidle; intros []).
  unfold state_context, run_body. unfold entered in Hl. rewrite Hl. simpl.
  assert (Hst : state (with_request request a) = IDLE).
  { unfold with_request. by destruct (truthy request). }
  rewrite Hst. by destruct (after_loop l) as [[results|e] a'].
Qed.

Lemma run_out_of_fuel fuel request a :
  state a = IDLE →
  run_loop step fuel (entered request a) [] 0 = None →
  run step state_str fuel request a = None.
Proof.
  intros Hidle Hl. unfold run. rewrite bool_decide_eq_false_2 by (by rewrite Hidle; intros []).
  unfold state_context, run_body. unfold entered in Hl. by rewrite Hl.
Qed.

Lemma entered_fields request a :
  state (entered request a) = RUNNING
  ∧ max_steps (entered request a) = max_steps a
  ∧ current_step (entered request a) = current_step a.
Proof. unfold entered, with_request. by destruct (truthy request). Qed.

Lemma str_app_assoc (s1 s2 s3 : string) : (s1 +:+ s2) +:+ s3 = s1 +:+ (s2 +:+ s3).
Proof.
  induction s1 as [|c s1 IH]; [done|].
  change (String c ((s1 +:+ s2) +:+ s3) = String c (s1 +:+ s2 +:+ s3)).
  by f_equal.
Qed.

Lemma join_snoc sep x (rs : list string) :
  ∃ before, join sep (rs ++ [x]) = before +:+ x.
Proof.
  induction rs as [|r rs [before IH]].
  - by exists "".
  - exists (r +:+ sep +:+ before).
    assert (Hcons : join sep ((r :: rs) ++ [x]) = r +:+ sep +:+ join sep (rs ++ [x])).
    { simpl. by destruct (rs ++ [x]) as [|y ys] eqn:E; [destruct rs|]. }
    by rewrite Hcons, IH, !str_app_assoc.
Qed.

Lemma summary_snoc x (rs : list string) :
  ∃ before, summary (rs ++ [x]) = before +:+ x.
Proof.
  destruct (join_snoc nl x rs) as [before Hj]. exists before.
  unfold summary. rewrite <- Hj. by destruct rs.
Qed.

(** More fuel does not change how the loop is left. *)
Lemma run_loop_fuel_mono fuel : ∀ a results calls l k,
  run_loop step fuel a results calls = Some l →
  run_loop step (fuel + k) a results calls = Some l.
Proof.
  induction fuel as [|fuel IH]; intros a results calls l k; simpl.
  - destruct (_ && _) eqn:E; [done|]. intros [= <-]. destruct k; simpl; by rewrite E.
  - destruct (_ && _); [|done].
    destruct (step _) as [[r|e] a2]; [|done]. apply IH.
Qed.

Lemma run_fuel_mono fuel k request a r :
  run step state_str fuel request a = Some r →
  run step state_str (fuel + k) request a = Some r.
Proof.
  unfold run. case_bool_decide; [done|].
  unfold state_context, run_body.
  destruct (run_loop step fuel _ [] 0) as [l|] eqn:Hl; [|done].
  by rewrite (run_loop_fuel_mono _ _ _ _ _ k Hl).
Qed.

(** [run] keeps the step counter non-negative. *)
Lemma run_counter_nonneg (Hframe : step_frame step) fuel request a o a' :
  state a = IDLE → (0 ≤ current_step a)%Z →
  run step state_str fuel request a = Some (o, a') →
  (0 ≤ current_step a')%Z.
Proof.
  intros Hidle Hcur.
  destruct (run_loop step fuel (entered request a) [] 0) as [l|] eqn:Hl.
  - rewrite (run_idle _ _ _ _ Hidle Hl).
    destruct (run_loop_inv Hframe _ _ _ _ _ Hl) as (_ & _ & H3 & _).
    destruct (entered_fields request a) as (_ & _ & Hc). rewrite Hc in H3.
    unfold after_loop.
    destruct (loop_outcome l) as [[]|e]; [case_bool_decide|];
      intros [= <- <-]; simpl; lia.
  - by rewrite (run_out_of_fuel _ _ _ Hidle Hl).
Qed.

(** C4, as the code has it. From a state other than IDLE, [run] raises
    the start-state error at once and hands the agent back untouched (its
    state included, whatever it was). From IDLE, whenever [run] returns or
    raises, the state afterwards is IDLE; when the loop raised, the state
    was ERROR before the scope restored it. With a [step] that leaves the
    counters alone, [run] does come back. *)
Theorem C4_run_start_state_and_restore fuel request a :
  (state a ≠ IDLE →
   run step state_str fuel request a
   = Some (Raise (mk_exn RuntimeError
                    ("无法从状态运行代理: " +:+ state_str (state a))), a))
  ∧ (state a = IDLE → ∀ o a',
       run step state_str fuel request a = Some (o, a') → state a' = IDLE)
  ∧ (state a = IDLE → ∀ l e,
       run_loop step fuel (entered request a) [] 0 = Some l →
       loop_outcome l = Raise e →
       state (set_state ERROR (loop_agent l)) = ERROR
       ∧ run step state_str fuel request a
         = Some (Raise e, set_state IDLE (set_state ERROR (loop_agent l))))
  ∧ (state a = IDLE → step_frame step →
     ∃ r, run step state_str (Z.to_nat (max_steps a - current_step a)) request a
          = Some r).
Proof.
  split_and!.
  - intros Hne. unfold run. by rewrite bool_decide_eq_true_2.
  - intros Hidle o a'.
    destruct (run_loop step fuel (entered request a) [] 0) as [l|] eqn:Hl.
    + rewrite (run_idle _ _ _ _ Hidle Hl).
      by destruct (after_loop l) as [[results|e] a2]; intros [= <- <-].
    + by rewrite (run_out_of_fuel _ _ _ Hidle Hl).
  - intros Hidle l e Hl He. split; [done|].
    rewrite (run_idle _ _ _ _ Hidle Hl). unfold after_loop. by rewrite He.
  - intros Hidle Hframe.
    destruct (entered_fields request a) as (_ & Hm & Hc).
    destruct (run_loop_terminates Hframe (Z.to_nat (max_steps a - current_step a))
                (entered request a) [] 0) as [l Hl]; [rewrite Hm, Hc; lia|].
    eexists. apply (run_idle _ _ _ _ Hidle Hl).
Qed.

(** How the loop is left, in terms of the invocations of [step]. *)
Lemma run_loop_invoked fuel : ∀ a results calls l,
  run_loop step fuel a results calls = Some l →
  ∃ lines a_n,
    invoked step a lines a_n
    ∧ match loop_outcome l with
      | Ret _ =>
        loop_agent l = a_n ∧ loop_results l = results ++ lines
        ∧ ¬ ((current_step a_n < max_steps a_n)%Z ∧ state a_n ≠ FINISHED)
      | Raise e =>
        (current_step a_n < max_steps a_n)%Z ∧ state a_n ≠ FINISHED
        ∧ step (set_current_step (current_step a_n + 1) a_n) = (Raise e, loop_agent l)
      end.
Proof.
  assert (Hexit : ∀ a results,
            ¬ ((current_step a < max_steps a)%Z ∧ state a ≠ FINISHED) →
            ∃ lines a_n,
              invoked step a lines a_n
              ∧ (a = a_n ∧ results = results ++ lines
                 ∧ ¬ ((current_step a_n < max_steps a_n)%Z ∧ state a_n ≠ FINISHED))).
  { intros a results Hcond. exists [], a. split; [constructor|].
    by rewrite app_nil_r. }
  induction fuel as [|fuel IH]; intros a results calls l; simpl.
  - case_bool_decide as Hlt; simpl.
    + case_bool_decide as Hfin; simpl; [done|].
      intros [= <-]. apply (Hexit a results). by intros [_ ?].
    + intros [= <-]. apply (Hexit a results). by intros [? _].
  - case_bool_decide as Hlt; simpl.
    2: { intros [= <-]. apply (Hexit a results). by intros [? _]. }
    case_bool_decide as Hfin; simpl.
    2: { intros [= <-]. apply (Hexit a results). by intros [_ ?]. }
    destruct (step (set_current_step (current_step a + 1) a)) as [[r|e] a2] eqn:Hstep.
    + intros Hl. apply IH in Hl as (lines & a_n & Hinv & Hout).
      eexists (_ :: lines), a_n. split.
      { by apply (invoked_more step a r a2 lines a_n). }
      destruct (loop_outcome l) as [[]|e]; [|done].
      destruct Hout as (-> & -> & Hcond). split; [done|]. split; [|done].
      by rewrite <- app_assoc.
    + intros [= <-]. exists [], a. split; [constructor|]. by simpl.
Qed.

(** Every invocation moves the counter by one and leaves the budget. *)
Lemma invoked_counters (Hframe : step_frame step) a lines a' :
  invoked step a lines a' →
  max_steps a' = max_steps a
  ∧ current_step a' = (current_step a + Z.of_nat (length lines))%Z.
Proof.
  induction 1 as [a|a r a1 lines a' Hlt Hfin Hstep Hinv [IHm IHc]].
  - simpl. split; [done|lia].
  - destruct (Hframe (set_current_step (current_step a + 1) a)) as [Hc Hm].
    rewrite Hstep in Hc, Hm. simpl in Hc, Hm.
    destruct (stuck_frame a1) as (Hc' & Hm' & _). simpl in Hc', Hm'.
    rewrite IHm, IHc, Hc', Hm', Hc, Hm. simpl length. split; [done|lia].
Qed.

Lemma invoked_within (Hframe : step_frame step) a lines a' :
  invoked step a lines a' →
  (current_step a' ≤ Z.max (current_step a) (max_steps a))%Z.
Proof.
  induction 1 as [a|a r a1 lines a' Hlt Hfin Hstep Hinv IH]; [lia|].
  destruct (Hframe (set_current_step (current_step a + 1) a)) as [Hc Hm].
  rewrite Hstep in Hc, Hm. simpl in Hc, Hm.
  destruct (stuck_frame a1) as (Hc' & Hm' & _). simpl in Hc', Hm'.
  rewrite Hc', Hm', Hc, Hm in IH. lia.
Qed.

(** C5. With a budget [max_steps = N >= 1], a [step] that leaves the
    counters alone and a counter that starts non-negative, [run] from
    IDLE comes back, within fuel [N], after invocations of [step] that
    are accounted for one by one: there are lines, one per invocation
    that returned, at most [N] of them, and the step counter has moved by
    their number. Then exactly one of three holds. The budget is used up:
    the number of invocations is what was left of the budget, [run]
    returns normally the lines followed by the max-steps notice, with
    [current_step] back at 0 and the state IDLE. Or the loop stopped
    short of the budget, and then the state had reached FINISHED. Or the
    next invocation, still within the budget, raised. *)
Theorem C5_run_within_max_steps request a N :
  step_frame step →
  state a = IDLE → max_steps a = N → (1 ≤ N)%Z → (0 ≤ current_step a)%Z →
  ∃ lines a_n,
    invoked step (entered request a) lines a_n
    ∧ (Z.of_nat (length lines) ≤ N)%Z
    ∧ current_step a_n = (current_step a + Z.of_nat (length lines))%Z
    ∧ (((N ≤ current_step a_n)%Z
        ∧ Z.of_nat (length lines) = Z.max 0 (N - current_step a)
        ∧ ∀ k, run step state_str (Z.to_nat N + k) request a
               = Some (Ret (join nl (lines ++ ["终止: 达到最大步骤数 (" +:+ pretty N +:+ ")"])),
                       set_state IDLE (set_current_step 0 a_n)))
       ∨ ((current_step a_n < N)%Z ∧ state a_n = FINISHED ∧ lines ≠ []
          ∧ ∀ k, run step state_str (Z.to_nat N + k) request a
                 = Some (Ret (join nl lines), set_state IDLE a_n))
       ∨ ((current_step a_n < N)%Z ∧ state a_n ≠ FINISHED
          ∧ ∃ e a_e,
              step (set_current_step (current_step a_n + 1) a_n) = (Raise e, a_e)
              ∧ ∀ k, run step state_str (Z.to_nat N + k) request a
                     = Some (Raise e, set_state IDLE a_e))).
Proof.
  intros Hframe Hidle HN Hpos Hcur.
  destruct (entered_fields request a) as (Hs & Hm & Hc).
  destruct (run_loop_terminates Hframe (Z.to_nat N) (entered request a) [] 0)
    as [l Hl]; [rewrite Hm, Hc; lia|].
  pose proof (run_idle _ _ _ _ Hidle Hl) as Hrun.
  destruct (run_loop_invoked _ _ _ _ _ Hl) as (lines & a_n & Hinv & Hout).
  destruct (invoked_counters Hframe _ _ _ Hinv) as [Hmax Hcount].
  rewrite Hm in Hmax. rewrite Hc in Hcount. rewrite Hmax, HN in Hout.
  exists lines, a_n. split; [done|].
  unfold after_loop in Hrun.
  destruct (loop_outcome l) as [[]|e].
  - destruct Hout as (Hagent & Hres & Hcond). simpl in Hres.
    rewrite Hagent, Hres, Hmax, HN in Hrun.
    destruct (decide (N ≤ current_step a_n)%Z) as [Hge|Hlt].
    + assert (Hlen : Z.of_nat (length lines) = Z.max 0 (N - current_step a)).
      { pose proof (invoked_within Hframe _ _ _ Hinv) as Hin.
        rewrite Hm, Hc in Hin. lia. }
      split; [lia|]. split; [done|]. left. split; [done|]. split; [done|].
      intros k. apply run_fuel_mono. rewrite Hrun.
      rewrite bool_decide_eq_true_2 by lia. unfold max_steps_notice.
      rewrite Hmax, HN. unfold summary.
      by destruct lines.
    + assert (Hfin : state a_n = FINISHED).
      { destruct (decide (state a_n = FINISHED)); [done|]. destruct Hcond. split; [lia|done]. }
      assert (Hne : lines ≠ []).
      { intros ->. inversion Hinv. congruence. }
      split; [lia|]. split; [done|]. right. left. split; [lia|]. split; [done|].
      split; [done|]. intros k. apply run_fuel_mono. rewrite Hrun.
      rewrite bool_decide_eq_false_2 by lia. unfold summary. by destruct lines.
  - destruct Hout as (Hlt & Hfin & Hstep).
    split; [lia|]. split; [done|]. right. right. split; [done|]. split; [done|].
    exists e, (loop_agent l). split; [done|].
    intros k. apply run_fuel_mono. by rewrite Hrun.
Qed.

(** C10. When the loop of a [run] from IDLE is left in state FINISHED
    with [current_step] below [max_steps], [run] returns with
    [current_step] at that positive value (it is not reset) and the state
    back at IDLE; a following [run] on that agent passes the start-state
    check, any fault it raises comes from its loop, and its loop invokes
    [step] at most [max_steps - current_step] times. *)
Theorem C10_finished_run_keeps_current_step fuel request a l :
  step_frame step →
  state a = IDLE → (0 ≤ current_step a)%Z →
  run_loop step fuel (entered request a) [] 0 = Some l →
  loop_outcome l = Ret () →
  state (loop_agent l) = FINISHED →
  (current_step (loop_agent l) < max_steps (loop_agent l))%Z →
  ∃ trace a1,
    run step state_str fuel request a = Some (Ret trace, a1)
    ∧ current_step a1 = current_step (loop_agent l)
    ∧ (0 < current_step a1)%Z
    ∧ state a1 = IDLE
    ∧ max_steps a1 = max_steps a
    ∧ ∀ request', ∃ l' o a2,
        run_loop step (Z.to_nat (max_steps a1 - current_step a1))
          (entered request' a1) [] 0 = Some l'
        ∧ (Z.of_nat (loop_calls l') ≤ max_steps a1 - current_step a1)%Z
        ∧ run step state_str (Z.to_nat (max_steps a1 - current_step a1)) request' a1
          = Some (o, a2)
        ∧ state a2 = IDLE
        ∧ (∀ e, o = Raise e → loop_outcome l' = Raise e).
Proof.
  intros Hframe Hidle Hcur Hl Hret Hfin Hlt.
  destruct (entered_fields request a) as (Hs & Hm & Hc).
  destruct (run_loop_inv Hframe _ _ _ _ _ Hl) as (H1 & H2 & H3 & H4 & H5 & H6).
  rewrite Hm, Hc in *.
  assert (Hmoved : current_step (loop_agent l) ≠ current_step a).
  { intros Heq. apply H6 in Heq. rewrite Heq, Hs in Hfin. done. }
  eexists _, (set_state IDLE (loop_agent l)).
  split.
  { rewrite (run_idle _ _ _ _ Hidle Hl). unfold after_loop. rewrite Hret.
    by rewrite bool_decide_eq_false_2 by lia. }
  simpl. split_and!; try done; try lia.
  intros request'. set (a1 := set_state IDLE (loop_agent l)).
  assert (Hidle1 : state a1 = IDLE) by done.
  destruct (entered_fields request' a1) as (_ & Hm' & Hc').
  destruct (run_loop_terminates Hframe
              (Z.to_nat (max_steps (loop_agent l) - current_step (loop_agent l)))
              (entered request' a1) [] 0) as [l' Hl'].
  { rewrite Hm', Hc'. simpl. lia. }
  destruct (run_loop_inv Hframe _ _ _ _ _ Hl') as (K1 & K2 & K3 & K4 & K5 & K6).
  rewrite Hm', Hc' in *. simpl in K1, K2, K3, K4.
  pose proof (run_idle _ request' a1 l' Hidle1 Hl') as Hrun.
  destruct (after_loop l') as [[results|e] a2] eqn:Hafter.
  - exists l'. eexists _, _. split_and!; [done|lia|exact Hrun|done|done].
  - exists l'. eexists _, _. split_and!; [done|lia|exact Hrun|done|].
    intros e' [= <-]. unfold after_loop in Hafter.
    destruct (loop_outcome l') as [[]|e2]; [|by injection Hafter as -> _].
    by case_bool_decide.
Qed.

End AgentFacts.

(** C4, counterexample. An agent that is RUNNING when [run] is called:
    [run] raises the start-state error and the state afterwards is still
    RUNNING. *)
Lemma C4_counterexample :
  ∃ e, BaseAgent.run Scenario.plain_step Scenario.state_name 3 None
         (Scenario.agent_in RUNNING 3 0)
       = Some (Raise e, Scenario.agent_in RUNNING 3 0)
       ∧ BaseAgent.state (Scenario.agent_in RUNNING 3 0) = RUNNING.
Proof. eexists. split; reflexivity. Qed.

(** Scenario A: three steps that never finish, then the notice. *)
Example run_scenario_A :
  BaseAgent.run Scenario.plain_step Scenario.state_name 3 None
    (Scenario.agent_in IDLE 3 0)
  = Some (Ret (BaseAgent.join nl
                 ["步骤 1: ok"; "步骤 2: ok"; "步骤 3: ok"; "终止: 达到最大步骤数 (3)"]),
          Scenario.agent_in IDLE 3 0).
Proof. vm_compute. reflexivity. Qed.

(** A faulting step: the fault leaves [run], the state is back at IDLE. *)
Example run_failing_step :
  BaseAgent.run Scenario.failing_step Scenario.state_name 3 None
    (Scenario.agent_in IDLE 3 0)
  = Some (Raise (mk_exn ValueError "boom"), Scenario.agent_in IDLE 3 1).
Proof. vm_compute. reflexivity. Qed.

Lemma C5_run_within_max_steps_witness :
  ∃ lines a_n,
    Spec.invoked Scenario.plain_step
      (Spec.entered None (Scenario.agent_in IDLE 3 0)) lines a_n
    ∧ (Z.of_nat (length lines) ≤ 3)%Z.
Proof.
  destruct (C5_run_within_max_steps Scenario.plain_step Scenario.state_name None
              (Scenario.agent_in IDLE 3 0) 3%Z) as (lines & a_n & Hinv & Hlen & _).
  - intros a. split; reflexivity.
  - reflexivity.
  - reflexivity.
  - lia.
  - simpl. lia.
  - exists lines, a_n. split; [exact Hinv|exact Hlen].
Defined.

Lemma C10_finished_run_keeps_current_step_witness :
  ∃ trace a1,
    BaseAgent.run Scenario.finishing_step Scenario.state_name 5 None
      (Scenario.agent_in IDLE 5 0) = Some (Ret trace, a1)
    ∧ BaseAgent.current_step a1 = 2%Z
    ∧ BaseAgent.state a1 = IDLE.
Proof.
  destruct (C10_finished_run_keeps_current_step Scenario.finishing_step
              Scenario.state_name 5 None (Scenario.agent_in IDLE 5 0)
              (BaseAgent.mk_loop (Ret ()) (Scenario.agent_in FINISHED 5 2)
                 ["步骤 1: done"; "步骤 2: done"] 2))
    as (trace & a1 & Hrun & Hcur & _ & Hstate & _).
  - intros a. unfold Scenario.finishing_step. simpl. by case_bool_decide.
  - reflexivity.
  - simpl. lia.
  - vm_compute. reflexivity.
  - reflexivity.
  - reflexivity.
  - simpl. lia.
  - exists trace, a1. split; [exact Hrun|]. split; [exact Hcur|exact Hstate].
Defined.

(** ** The tool-calling agent *)

Section ThinkFacts.

Import BaseAgent ToolCallAgent.

Context {W I : Type}.
Variable ask_tool :
  list Message → option (list Message) → list ToolCollection.Param
  → ToolChoice → outcome (option Response).
Variable from_tool_calls : option string → list ToolCall → outcome Message.
Implicit Types a : Agent W I.

Lemma think_try_raise response a e a2 :
  think_try from_tool_calls response a = (Raise e, a2) → a2 = a.
Proof.
  unfold think_try. case_bool_decide.
  - by destruct (truthy _).
  - destruct (if has_calls a then _ else _) as [m|e']; [|by intros [= _ <-]].
    by repeat (destruct (_ && _)).
Qed.

Lemma think_try_calls response a b a2 :
  think_try from_tool_calls response a = (Ret b, a2) →
  tool_calls (ext a2) = tool_calls (ext a).
Proof.
  unfold think_try. case_bool_decide.
  - by destruct (truthy _); intros [= _ <-].
  - destruct (if has_calls a then _ else _) as [m|e']; [|done].
    by repeat (destruct (_ && _)); intros [= _ <-].
Qed.

Lemma logged_names_ok (calls : list ToolCall) :
  Forall (fun call => is_Some (call_function call)) calls →
  ∃ names, logged_names calls = Ret names.
Proof.
  induction 1 as [|call calls [f Hf] _ [names IH]]; simpl; [by eexists|].
  rewrite Hf, IH. by eexists.
Qed.

Lemma logged_names_fault (calls : list ToolCall) :
  Exists (fun call => call_function call = None) calls →
  logged_names calls = Raise (attribute_error "NoneType" "name").
Proof.
  induction 1 as [call calls Hcall|call calls _ IH]; simpl.
  - by rewrite Hcall.
  - destruct (call_function call); [|done]. by rewrite IH.
Qed.

(** C2, as the code has it. [think] guards only its [try] block. A
    fault of [ask_tool] leaves [think] as it was raised, with nothing
    recorded beyond the next-step prompt; so does the fault of reading
    the empty answer; and so does, once the calls are stored on the
    agent, the fault of reading the name of a call that has no function.
    On every other answer [think] does not raise: it returns a boolean
    with the calls stored, and when processing the answer faulted it
    returns false with an assistant error message appended to memory. *)
Theorem C2_think_catches_processing_faults a :
  (∀ e, ask ask_tool (prompted a) = Raise e →
        think ask_tool from_tool_calls a = (Raise e, prompted a))
  ∧ (ask ask_tool (prompted a) = Ret None →
     think ask_tool from_tool_calls a
     = (Raise (attribute_error "NoneType" "tool_calls"), prompted a))
  ∧ (∀ response, ask ask_tool (prompted a) = Ret (Some response) →
       (Exists (fun call => call_function call = None)
          (response_tool_calls response) →
        think ask_tool from_tool_calls a
        = (Raise (attribute_error "NoneType" "name"),
           set_tool_calls (response_tool_calls response) (prompted a)))
       ∧ (Forall (fun call => is_Some (call_function call))
            (response_tool_calls response) →
          ∃ b a', think ask_tool from_tool_calls a = (Ret b, a')
            ∧ tool_calls (ext a') = response_tool_calls response
            ∧ (∀ b0 a2,
                 think_try from_tool_calls response
                   (set_tool_calls (response_tool_calls response) (prompted a))
                 = (Ret b0, a2) →
                 b = b0 ∧ a' = a2)
            ∧ ∀ e a2,
                think_try from_tool_calls response
                  (set_tool_calls (response_tool_calls response) (prompted a))
                = (Raise e, a2) →
                b = false
                ∧ messages a' = messages (prompted a) ++ [error_message e]
                ∧ role (error_message e) = Assistant)).
Proof.
  unfold think. split_and!.
  - by intros e ->.
  - by intros ->.
  - intros response ->. split.
    + intros Hbad. by rewrite (logged_names_fault _ Hbad).
    + intros Hgood. destruct (logged_names_ok _ Hgood) as [names ->].
      destruct (think_try _ _ _) as [[b|e] a2] eqn:Htry.
      * exists b, a2. split; [done|]. split; [|split; [|done]].
        -- by rewrite (think_try_calls _ _ _ _ Htry).
        -- by intros b0 a0 [= <- <-].
      * apply think_try_raise in Htry. subst a2.
        exists false. eexists. split; [done|]. split; [done|]. split; [done|].
        by intros e' a2' [= <- <-].
Qed.

End ThinkFacts.

(** C2, counterexample. The model client cannot be reached: the fault
    leaves [think]. *)
Lemma C2_counterexample :
  fst (ToolCallAgent.think Scenario.unreachable_llm Scenario.rejecting_factory
         (Scenario.toolcall_agent ToolCallAgent.AUTO))
  = Raise (mk_exn (OtherException "APIConnectionError") "Connection error.").
Proof. reflexivity. Qed.

(** The empty answer, and an answer with a call that has no function:
    the fault of the read leaves [think]. *)
Example think_faults_on_empty_answer :
  fst (ToolCallAgent.think Scenario.silent_llm Scenario.rejecting_factory
         (Scenario.toolcall_agent ToolCallAgent.AUTO))
  = Raise (mk_exn AttributeError "'NoneType' object has no attribute 'tool_calls'").
Proof. reflexivity. Qed.

Example think_faults_on_call_without_function :
  fst (ToolCallAgent.think Scenario.garbled_llm Scenario.rejecting_factory
         (Scenario.toolcall_agent ToolCallAgent.AUTO))
  = Raise (mk_exn AttributeError "'NoneType' object has no attribute 'name'").
Proof. reflexivity. Qed.

(** A fault of the message factory is caught: [think] answers false and
    memory ends with the assistant error message. *)
Example think_recovers_from_factory_fault :
  let r := ToolCallAgent.think Scenario.calling_llm Scenario.rejecting_factory
             (Scenario.toolcall_agent ToolCallAgent.AUTO) in
  fst r = Ret false
  ∧ last (BaseAgent.messages (snd r))
    = Some (assistant_message
              (Some "Error encountered while processing: 'NoneType' object has no attribute 'model_dump'")).
Proof. split; reflexivity. Qed.

(** * Further properties *)

(** ** Dictionaries, continued *)

Section DictMore.

Context {V : Type}.
Implicit Types (d : Dict.t V) (k : string) (v : V).

Lemma dict_get_None d k : Dict.get d k = None ↔ k ∉ map fst d.
Proof.
  induction d as [|[k' v'] d IH]; simpl.
  - split; [intros _; apply not_elem_of_nil|done].
  - rewrite not_elem_of_cons. destruct (String.eqb k k') eqn:E.
    + apply String.eqb_eq in E. split; [done|]. by intros [? _].
    + apply String.eqb_neq in E. rewrite IH. tauto.
Qed.

Lemma dict_keys_set d k v :
  map fst (Dict.set d k v)
  = if Dict.mem d k then map fst d else map fst d ++ [k].
Proof.
  unfold Dict.mem. induction d as [|[k' v'] d IH]; simpl; [done|].
  destruct (String.eqb k k') eqn:E; simpl.
  - apply String.eqb_eq in E. by subst.
  - rewrite IH. by destruct (Dict.get d k).
Qed.

Lemma dict_set_NoDup d k v :
  NoDup (map fst d) → NoDup (map fst (Dict.set d k v)).
Proof.
  intros Hd. rewrite dict_keys_set. unfold Dict.mem.
  destruct (Dict.get d k) eqn:E; [done|].
  apply dict_get_None in E. apply NoDup_app. split_and!; [done| |apply NoDup_singleton].
  intros x Hx Hk. apply list_elem_of_singleton in Hk. by subst.
Qed.

Lemma dict_del_keys_subset d k x : x ∈ map fst (Dict.del d k) → x ∈ map fst d.
Proof.
  induction d as [|[k' v'] d IH]; simpl; [done|].
  destruct (String.eqb k k'); simpl.
  - by right.
  - rewrite !elem_of_cons. intros [->|?]; [by left|right; auto].
Qed.

Lemma dict_del_NoDup d k :
  NoDup (map fst d) → NoDup (map fst (Dict.del d k)).
Proof.
  induction d as [|[k' v'] d IH]; simpl; [done|].
  rewrite NoDup_cons. intros [Hk Hd].
  destruct (String.eqb k k'); simpl; [done|].
  apply NoDup_cons. split; [|auto].
  intros Hin. by apply dict_del_keys_subset in Hin.
Qed.

Lemma dict_get_del_eq d k :
  NoDup (map fst d) → Dict.get (Dict.del d k) k = None.
Proof.
  induction d as [|[k' v'] d IH]; simpl; [done|].
  rewrite NoDup_cons. intros [Hk Hd].
  destruct (String.eqb k k') eqn:E; simpl.
  - apply String.eqb_eq in E. subst. by apply dict_get_None.
  - rewrite E. auto.
Qed.

Lemma dict_get_del_ne d k k' :
  k ≠ k' → Dict.get (Dict.del d k) k' = Dict.get d k'.
Proof.
  intros Hne. induction d as [|[k0 v0] d IH]; simpl; [done|].
  destruct (String.eqb k k0) eqn:E; simpl.
  - apply String.eqb_eq in E. subst k0.
    destruct (String.eqb k' k) eqn:E'; [|done].
    apply String.eqb_eq in E'. congruence.
  - by rewrite IH.
Qed.

Lemma dict_set_set d k v1 v2 :
  Dict.set (Dict.set d k v1) k v2 = Dict.set d k v2.
Proof.
  induction d as [|[k' v'] d IH]; simpl.
  - by rewrite String.eqb_refl.
  - destruct (String.eqb k k') eqn:E; simpl.
    + by rewrite String.eqb_refl.
    + by rewrite E, IH.
Qed.

Lemma dict_set_fresh d k v :
  Dict.get d k = None → Dict.set d k v = d ++ [(k, v)].
Proof.
  induction d as [|[k' v'] d IH]; simpl; [done|].
  destruct (String.eqb k k'); [done|]. intros H. by rewrite IH.
Qed.

Lemma dict_mem_get d k : Dict.mem d k = true ↔ is_Some (Dict.get d k).
Proof. unfold Dict.mem. destruct (Dict.get d k); split; try done; by intros []. Qed.

End DictMore.

(** ** The planning tool, continued *)

Section PlanningMore.

Import Planning Spec Invariant.

Variable percent_1f : nat -> nat -> string.

Lemma format_plan_ret plan :
  steps plan ≠ [] → ∃ text, _format_plan percent_1f plan = Ret text.
Proof.
  unfold _format_plan. destruct (steps plan); [done|]. intros _. by eexists.
Qed.

Lemma formatted_ok head plan t :
  steps plan ≠ [] → ∃ r, formatted percent_1f head plan t = (Ret r, t).
Proof.
  intros Hs. unfold formatted.
  destruct (format_plan_ret plan Hs) as [text ->]. by eexists.
Qed.

Lemma all_str_length items sts : all_str items = Some sts → length sts = length items.
Proof.
  revert sts. induction items as [|[s|] items IH]; intros sts; simpl.
  - by intros [= <-].
  - destruct (all_str items) as [l|]; [|done]. intros [= <-]. simpl. by rewrite (IH l).
  - done.
Qed.

Lemma steps_given steps sts :
  (if steps_truthy steps then str_list steps else None) = Some sts → sts ≠ [].
Proof.
  destruct steps as [|b|[|item items]]; cbn [steps_truthy str_list]; try done.
  - by destruct b.
  - intros H. apply all_str_length in H. by destruct sts.
Qed.

Lemma store_ok_get t pid p :
  store_ok t → Dict.get (plans t) pid = Some p → plan_ok pid p.
Proof.
  intros [_ Ht] Hg.
  apply (dict_get_Forall (fun entry => plan_ok (fst entry) (snd entry)) _ _ _ Ht Hg).
Qed.

Lemma store_ok_store pid p t :
  store_ok t → plan_ok pid p → store_ok (store pid p t).
Proof.
  intros [Hk Ht] Hp. split; simpl.
  - by apply dict_set_NoDup.
  - by apply dict_set_Forall.
Qed.

Lemma list_set_ok (l : list string) i v :
  (i < length l)%nat → list_set l i v = Ret (<[i:=v]> l).
Proof. intros Hi. unfold list_set. by rewrite (proj2 (Nat.ltb_lt _ _) Hi). Qed.

Lemma guarded_error frame t msg : store_ok t → guarded frame t (tool_error msg, t).
Proof. intros Ht. split; [done|]. by intros e [= <-]. Qed.

Lemma guarded_formatted frame t head plan t' :
  store_ok t' → steps plan ≠ [] →
  guarded frame t (formatted percent_1f head plan t').
Proof.
  intros Ht' Hs. destruct (formatted_ok head plan t' Hs) as [r ->].
  split; [done|]. by intros e [=].
Qed.

Lemma create_guarded plan_id title steps t :
  store_ok t → guarded True t (_create_plan percent_1f plan_id title steps t).
Proof.
  intros Ht. unfold _create_plan.
  destruct plan_id as [[|c pid]|]; try by apply guarded_error.
  destruct (Dict.mem _ _); [by apply guarded_error|].
  destruct title as [[|c' ttl]|]; try by apply guarded_error.
  destruct (if steps_truthy steps then str_list steps else None) as [sts|] eqn:Hsts;
    [|by apply guarded_error].
  apply steps_given in Hsts. apply guarded_formatted; [|done].
  destruct Ht as [Hk Hf]. split; simpl.
  - by apply dict_set_NoDup.
  - apply dict_set_Forall; [done|].
    split_and!; simpl; [done|done|apply replicate_wf|by apply Forall_replicate].
Qed.

Lemma carry_over_ok new_steps : ∀ i old_steps old_statuses old_notes ns nn,
  length old_steps = length old_statuses →
  length old_statuses = length old_notes →
  ∃ ns' nn',
    carry_over i new_steps old_steps old_statuses old_notes ns nn = Ret (ns', nn').
Proof.
  induction new_steps as [|step rest IH]; intros i os ost on ns nn H1 H2; simpl.
  - by eexists _, _.
  - case_bool_decide as Hi; [|by apply IH].
    apply lookup_lt_Some in Hi. unfold list_get.
    destruct (lookup_lt_is_Some_2 ost i) as [status ->]; [lia|].
    destruct (lookup_lt_is_Some_2 on i) as [note ->]; [lia|].
    by apply IH.
Qed.

(** The lists that the loop of [_update_plan] builds, in closed form. *)
Lemma carry_over_imap new_steps : ∀ i os ost on ns nn ns' nn',
  carry_over i new_steps os ost on ns nn = Ret (ns', nn') →
  ns' = ns ++ imap (fun j step =>
                      if bool_decide (os !! (i + j)%nat = Some step)
                      then default "not_started" (ost !! (i + j)%nat)
                      else "not_started") new_steps
  ∧ nn' = nn ++ imap (fun j step =>
                        if bool_decide (os !! (i + j)%nat = Some step)
                        then default "" (on !! (i + j)%nat)
                        else "") new_steps.
Proof.
  induction new_steps as [|step rest IH]; intros i os ost on ns nn ns' nn'; simpl.
  - intros [= <- <-]. by rewrite !app_nil_r.
  - rewrite Nat.add_0_r. case_bool_decide as Hi.
    + unfold list_get. destruct (ost !! i) as [status|]; [|done].
      destruct (on !! i) as [note|]; [|done].
      intros Hc. apply IH in Hc as [-> ->]. rewrite <- !app_assoc. simpl.
      split; do 2 f_equal; apply imap_ext; intros j x _; simpl;
        by rewrite Nat.add_succ_r.
    + intros Hc. apply IH in Hc as [-> ->]. rewrite <- !app_assoc. simpl.
      split; do 2 f_equal; apply imap_ext; intros j x _; simpl;
        by rewrite Nat.add_succ_r.
Qed.

Lemma carried_valid (sts os ost : list string) :
  Forall (fun s => str_in s valid_statuses = true) ost →
  Forall (fun s => str_in s valid_statuses = true)
    (imap (fun j step =>
             if bool_decide (os !! (0 + j)%nat = Some step)
             then default "not_started" (ost !! (0 + j)%nat)
             else "not_started") sts).
Proof.
  intros Hold. apply Forall_lookup. intros j x. rewrite list_lookup_imap.
  destruct (sts !! j) as [step|]; [|done]. simpl. intros [= <-].
  case_bool_decide; [|done].
  destruct (ost !! j) as [status|] eqn:Hst; [|done].
  apply (proj1 (Forall_lookup _ _) Hold j status Hst).
Qed.

Lemma update_guarded plan_id title steps t :
  store_ok t →
  guarded (truthy title = false) t (_update_plan percent_1f plan_id title steps t).
Proof.
  intros Ht. unfold _update_plan.
  destruct plan_id as [[|c pid]|]; try by apply guarded_error.
  destruct (Dict.get _ _) as [plan|] eqn:Hg; [|by apply guarded_error].
  destruct (store_ok_get _ _ _ Ht Hg) as (Hid & Hne & Hwf & Hval).
  set (plan' := match title with
                | Some (String _ _ as ttl) => set_title ttl plan
                | _ => plan end).
  set (t' := match title with
             | Some (String _ _) => store (String c pid) plan' t
             | _ => t end).
  assert (Hp' : plan_ok (String c pid) plan') by (subst plan'; by destruct title as [[|]|]).
  assert (Ht' : store_ok t').
  { subst t'. destruct title as [[|]|]; try done. by apply store_ok_store. }
  assert (Hframe : truthy title = false → t' = t).
  { subst t'. by destruct title as [[|]|]. }
  destruct Hp' as (Hid' & Hne' & Hwf' & Hval').
  destruct (steps_truthy steps) eqn:Htruthy.
  - destruct (str_list steps) as [sts|] eqn:Hsts.
    2: { split; [done|]. by intros e [= <-]. }
    destruct Hwf' as [W1 W2].
    destruct (carry_over_ok sts 0 _ _ _ [] [] W1 W2) as (ns & nn & Hc).
    rewrite Hc. pose proof (carry_over_length _ _ _ _ _ _ _ _ _ Hc) as [L1 L2].
    simpl in L1, L2.
    assert (Hsne : sts ≠ []).
    { apply (steps_given steps). by rewrite Htruthy. }
    destruct (formatted_ok ("计划更新成功：" +:+ String c pid +:+ nl +:+ nl)
                (set_steps sts ns nn plan')
                (store (String c pid) (set_steps sts ns nn plan') t')) as [r ->]; [done|].
    split; [|by intros e [=]].
    apply store_ok_store; [done|]. split_and!; simpl; [done|done|split; simpl; lia|].
    apply carry_over_imap in Hc as [-> _]. by apply carried_valid.
  - destruct (formatted_ok ("计划更新成功：" +:+ String c pid +:+ nl +:+ nl) plan' t')
      as [r ->]; [done|].
    split; [done|]. by intros e [=].
Qed.

Lemma list_guarded t : store_ok t → guarded True t (_list_plans t).
Proof. intros Ht. unfold _list_plans. by destruct (plans t); split. Qed.

Lemma get_guarded plan_id t :
  store_ok t → guarded True t (_get_plan percent_1f plan_id t).
Proof.
  intros Ht. unfold _get_plan.
  destruct (_ && _); [by apply guarded_error|].
  destruct (or_current plan_id t) as [pid|]; simpl; [|by apply guarded_error].
  destruct (Dict.get _ _) as [plan|] eqn:Hg; [|by apply guarded_error].
  destruct (store_ok_get _ _ _ Ht Hg) as (_ & Hne & _ & _).
  by apply guarded_formatted.
Qed.

Lemma set_active_guarded plan_id t :
  store_ok t → guarded True t (_set_active_plan percent_1f plan_id t).
Proof.
  intros Ht. unfold _set_active_plan.
  destruct plan_id as [[|c pid]|]; try by apply guarded_error.
  destruct (Dict.get _ _) as [plan|] eqn:Hg; [|by apply guarded_error].
  destruct (store_ok_get _ _ _ Ht Hg) as (_ & Hne & _ & _).
  by apply guarded_formatted.
Qed.

Lemma set_statuses_same p : set_statuses (step_statuses p) p = p.
Proof. by destruct p. Qed.

Lemma set_notes_same p : set_notes (step_notes p) p = p.
Proof. by destruct p. Qed.

(** [_mark_step] on a valid index of a well-formed plan: the result in
    closed form. *)
Lemma mark_step_ok plan_id pid plan idx status notes t :
  or_current plan_id t = Some pid → pid ≠ "" →
  Dict.get (plans t) pid = Some plan →
  plan_wf plan →
  (0 ≤ idx < Z.of_nat (length (steps plan)))%Z →
  (truthy status = true → str_in (fmt_opt status) valid_statuses = true) →
  let i := Z.to_nat idx in
  let plan1 := if truthy status
               then set_statuses (<[i:=fmt_opt status]> (step_statuses plan)) plan
               else plan in
  let plan2 := if truthy notes
               then set_notes (<[i:=fmt_opt notes]> (step_notes plan1)) plan1
               else plan1 in
  let t2 := if truthy status || truthy notes then store pid plan2 t else t in
  ∃ text, _format_plan percent_1f plan2 = Ret text
    ∧ _mark_step percent_1f plan_id (Some idx) status notes t
      = (Ret (VResult (result_output
                (("步骤" +:+ pretty idx +:+ "已更新" +:+ nl +:+ nl) +:+ text))), t2).
Proof.
  intros Hcur Hne Hget [W1 W2] Hidx Hvalid i plan1 plan2 t2.
  assert (Hsteps : steps plan2 = steps plan).
  { subst plan2 plan1. by destruct (truthy status), (truthy notes). }
  destruct (format_plan_ret plan2) as [text Htext].
  { rewrite Hsteps. destruct (steps plan); [simpl in Hidx; lia|done]. }
  exists text. split; [done|].
  unfold _mark_step. rewrite Hcur. destruct pid as [|c pid]; [done|]. rewrite Hget.
  rewrite (proj2 (orb_false_iff _ _)) by (split; lia).
  fold i. subst t2 plan2 plan1.
  destruct (truthy status) eqn:Hs; cbn [andb orb].
  - rewrite (Hvalid eq_refl). cbn [negb].
    rewrite list_set_ok by (subst i; lia).
    destruct (truthy notes) eqn:Hn.
    + rewrite list_set_ok by (subst i; simpl; lia).
      unfold formatted. rewrite Htext. unfold store. cbn [plans _current_plan_id].
      by rewrite dict_set_set.
    + rewrite set_notes_same. unfold formatted. by rewrite Htext.
  - cbn [negb]. rewrite set_statuses_same. destruct (truthy notes) eqn:Hn.
    + rewrite list_set_ok by (subst i; lia).
      unfold formatted. by rewrite Htext.
    + rewrite set_notes_same. unfold formatted. by rewrite Htext.
Qed.

Lemma mark_step_guarded plan_id step_index status notes t :
  store_ok t →
  guarded True t (_mark_step percent_1f plan_id step_index status notes t).
Proof.
  intros Ht.
  destruct (or_current plan_id t) as [[|c pid]|] eqn:Hcur;
    try (unfold _mark_step; rewrite Hcur; by apply guarded_error).
  destruct (Dict.get (plans t) (String c pid)) as [plan|] eqn:Hget;
    [|unfold _mark_step; rewrite Hcur, Hget; by apply guarded_error].
  destruct step_index as [idx|];
    [|unfold _mark_step; rewrite Hcur, Hget; by apply guarded_error].
  destruct ((idx <? 0)%Z || (idx >=? Z.of_nat (length (steps plan)))%Z) eqn:Hidx;
    [unfold _mark_step; rewrite Hcur, Hget, Hidx; by apply guarded_error|].
  destruct (truthy status && negb (str_in (fmt_opt status) valid_statuses)) eqn:Hv;
    [unfold _mark_step; rewrite Hcur, Hget, Hidx, Hv; by apply guarded_error|].
  destruct (store_ok_get _ _ _ Ht Hget) as (Hid & Hne & Hwf & Hval).
  apply orb_false_iff in Hidx as [I1 I2].
  assert (Hvalid : truthy status = true → str_in (fmt_opt status) valid_statuses = true).
  { intros Hs. rewrite Hs in Hv. by destruct (str_in _ _). }
  destruct (mark_step_ok plan_id (String c pid) plan idx status notes t)
    as (text & _ & ->); try done; [lia|].
  split; [|by intros e [=]]. cbn [snd].
  destruct (truthy status || truthy notes); [|done].
  apply store_ok_store; [done|]. destruct Hwf as [W1 W2].
  destruct (truthy status) eqn:Hs, (truthy notes);
    (split_and!; [exact Hid|exact Hne| |]);
    try (split; simpl; rewrite ?length_insert; done);
    simpl; try done; apply Forall_insert; auto.
Qed.

Lemma delete_guarded plan_id t :
  store_ok t → guarded True t (_delete_plan plan_id t).
Proof.
  intros Ht. unfold _delete_plan.
  destruct plan_id as [[|c pid]|]; try by apply guarded_error.
  destruct (Dict.mem _ _); [|by apply guarded_error].
  split; [|by intros e [=]]. destruct Ht as [Hk Hf]. split; simpl.
  - by apply dict_del_NoDup.
  - by apply dict_del_Forall.
Qed.

Lemma guarded_weaken (F F' : Prop) t r : (F' → F) → guarded F t r → guarded F' t r.
Proof.
  intros HF [Hok Hr]. split; [done|].
  intros e He. destruct (Hr e He) as [? Hframe]. split; [done|]. auto.
Qed.

Lemma execute_guarded kw t cmd :
  store_ok t → command kw = Some cmd →
  guarded (cmd = "update" → truthy (kw_title kw) = false) t (execute percent_1f kw t).
Proof.
  intros Ht Hcmd. unfold execute. rewrite Hcmd.
  destruct (String.eqb cmd "create") eqn:E1;
    [eapply guarded_weaken; [|by apply create_guarded]; done|].
  destruct (String.eqb cmd "update") eqn:E2.
  { apply String.eqb_eq in E2. eapply guarded_weaken; [|by apply update_guarded]. auto. }
  destruct (String.eqb cmd "list") eqn:E3;
    [eapply guarded_weaken; [|by apply list_guarded]; done|].
  destruct (String.eqb cmd "get") eqn:E4;
    [eapply guarded_weaken; [|by apply get_guarded]; done|].
  destruct (String.eqb cmd "set_active") eqn:E5;
    [eapply guarded_weaken; [|by apply set_active_guarded]; done|].
  destruct (String.eqb cmd "mark_step") eqn:E6;
    [eapply guarded_weaken; [|by apply mark_step_guarded]; done|].
  destruct (String.eqb cmd "delete") eqn:E7;
    [eapply guarded_weaken; [|by apply delete_guarded]; done|].
  by apply guarded_error.
Qed.

(** X1. Every command of the planning tool, whether it succeeds or
    raises, keeps the invariant of the store: the keys are distinct, each
    plan is stored under its own id, has at least one step, has steps,
    statuses and notes of one length, and has only valid statuses. *)
Theorem X1_execute_keeps_store_invariant kw t :
  store_ok t → store_ok (snd (execute percent_1f kw t)).
Proof.
  intros Ht. destruct (command kw) as [cmd|] eqn:Hcmd.
  - by destruct (execute_guarded kw t cmd Ht Hcmd).
  - unfold execute. by rewrite Hcmd.
Qed.

(** X3. On a store that satisfies the invariant, a command that raises
    leaves the tool as it was, unless it is an [update] that carries a
    title. *)
Theorem X3_failed_command_changes_nothing kw cmd e t :
  store_ok t → command kw = Some cmd →
  (cmd = "update" → truthy (kw_title kw) = false) →
  fst (execute percent_1f kw t) = Raise e →
  is_ToolError e = true ∧ snd (execute percent_1f kw t) = t.
Proof.
  intros Ht Hcmd Hframe He.
  destruct (execute_guarded kw t cmd Ht Hcmd) as [_ Hraise].
  destruct (Hraise e He) as [? Hsame]. auto.
Qed.

(** X4. An [update] that carries a title and a [steps] value that is not
    a list of strings raises the tool error after it has stored the new
    title. *)
Theorem X4_update_sets_title_before_rejecting_steps pid plan ttl steps t :
  pid ≠ "" → ttl ≠ "" →
  Dict.get (plans t) pid = Some plan →
  steps_truthy steps = true → str_list steps = None →
  fst (_update_plan percent_1f (Some pid) (Some ttl) steps t)
    = tool_error "步骤必须为字符串列表"
  ∧ Dict.get (plans (snd (_update_plan percent_1f (Some pid) (Some ttl) steps t))) pid
    = Some (set_title ttl plan).
Proof.
  intros Hpid Httl Hget Htruthy Hlist. unfold _update_plan.
  destruct pid as [|c pid]; [done|]. destruct ttl as [|c' ttl]; [done|].
  rewrite Hget, Htruthy, Hlist. simpl. split; [done|]. apply dict_get_set_eq.
Qed.

Lemma get_plan_found plan_id pid plan t :
  or_current plan_id t = Some pid → pid ≠ "" →
  Dict.get (plans t) pid = Some plan →
  _get_plan percent_1f plan_id t = formatted percent_1f "" plan t.
Proof.
  intros Hcur Hpid Hget. unfold _get_plan. rewrite Hcur. cbn [mbind option_bind].
  rewrite Hget.
  destruct (negb (truthy plan_id) && negb (truthy (_current_plan_id t))) eqn:E; [|done].
  apply andb_true_iff in E as [E1 E2]. unfold or_current in Hcur.
  destruct (truthy plan_id); [done|]. rewrite Hcur in E2.
  destruct pid; [done|]. done.
Qed.

(** X5. A [create] with a fresh non-empty id, a non-empty title and a
    non-empty list of strings appends the plan to the store with every
    step not started and every note empty, makes it the current plan, and
    answers with the rendering that a following [get], with or without the
    id, returns. *)
Theorem X5_create_then_get pid ttl items sts t :
  pid ≠ "" → ttl ≠ "" →
  Dict.get (plans t) pid = None →
  items ≠ [] → all_str items = Some sts →
  let plan := mk_plan pid ttl sts (replicate (length sts) "not_started")
                (replicate (length sts) "") in
  let t' := mk_tool (plans t ++ [(pid, plan)]) (Some pid) in
  ∃ text,
    _create_plan percent_1f (Some pid) (Some ttl) (StepsList items) t
      = (Ret (VResult (result_output
                (("计划创建成功：" +:+ pid +:+ nl +:+ nl) +:+ text))), t')
    ∧ _get_plan percent_1f (Some pid) t' = (Ret (VResult (result_output text)), t')
    ∧ _get_plan percent_1f None t' = (Ret (VResult (result_output text)), t').
Proof.
  intros Hpid Httl Hfresh Hitems Hstr plan t'.
  assert (Hsts : sts ≠ []).
  { apply all_str_length in Hstr. destruct items; [done|]. by destruct sts. }
  destruct (format_plan_ret plan Hsts) as [text Htext]. exists text.
  assert (Hget : Dict.get (plans t') pid = Some plan).
  { subst t'. simpl. rewrite <- (dict_set_fresh _ _ _ Hfresh). apply dict_get_set_eq. }
  split_and!.
  - unfold _create_plan. destruct pid as [|c pid]; [done|].
    unfold Dict.mem. rewrite Hfresh. destruct ttl as [|c' ttl]; [done|].
    destruct items as [|item items]; [done|]. cbn [steps_truthy str_list]. rewrite Hstr.
    unfold formatted. fold plan. rewrite Htext.
    by rewrite (dict_set_fresh _ _ _ Hfresh).
  - rewrite (get_plan_found (Some pid) pid plan t'); [|by destruct pid|done|done].
    unfold formatted. by rewrite Htext.
  - rewrite (get_plan_found None pid plan t'); [|by destruct pid|done|done].
    unfold formatted. by rewrite Htext.
Qed.

(** X6. A [mark_step] with an index inside [0, len(steps)) and a status
    that is absent or one of the four valid ones succeeds; it writes the
    status and the note, when given, at that index of the addressed plan
    and changes nothing else: the plan's id, title and steps, the other
    plans and the current plan id stay. *)
Theorem X6_mark_step_updates_one_entry plan_id pid plan idx status notes t :
  or_current plan_id t = Some pid → pid ≠ "" →
  Dict.get (plans t) pid = Some plan →
  plan_wf plan →
  (0 ≤ idx < Z.of_nat (length (steps plan)))%Z →
  (truthy status = true → str_in (fmt_opt status) valid_statuses = true) →
  ∃ v plan',
    fst (_mark_step percent_1f plan_id (Some idx) status notes t) = Ret v
    ∧ Dict.get (plans (snd (_mark_step percent_1f plan_id (Some idx) status notes t))) pid
      = Some plan'
    ∧ Planning.plan_id plan' = Planning.plan_id plan
    ∧ title plan' = title plan
    ∧ steps plan' = steps plan
    ∧ step_statuses plan'
      = (if truthy status
         then <[Z.to_nat idx:=fmt_opt status]> (step_statuses plan)
         else step_statuses plan)
    ∧ step_notes plan'
      = (if truthy notes
         then <[Z.to_nat idx:=fmt_opt notes]> (step_notes plan)
         else step_notes plan)
    ∧ (∀ other, other ≠ pid →
         Dict.get (plans (snd (_mark_step percent_1f plan_id (Some idx) status notes t)))
           other
         = Dict.get (plans t) other)
    ∧ _current_plan_id (snd (_mark_step percent_1f plan_id (Some idx) status notes t))
      = _current_plan_id t.
Proof.
  intros Hcur Hpid Hget Hwf Hidx Hvalid.
  destruct (mark_step_ok plan_id pid plan idx status notes t Hcur Hpid Hget Hwf Hidx Hvalid)
    as (text & _ & ->).
  cbn [fst snd].
  destruct (truthy status) eqn:Hs, (truthy notes) eqn:Hn;
    cbn [orb store plans _current_plan_id]; eexists _, _; (split; [done|]).
  - split; [apply dict_get_set_eq|]. split_and!; try done.
    intros other Hother. by rewrite dict_get_set_ne.
  - split; [apply dict_get_set_eq|]. split_and!; try done.
    intros other Hother. by rewrite dict_get_set_ne.
  - split; [apply dict_get_set_eq|]. split_and!; try done.
    intros other Hother. by rewrite dict_get_set_ne.
  - split; [exact Hget|]. by split_and!.
Qed.

(** X7. An [update] of a stored plan with a non-empty list of strings
    succeeds and stores the new steps; a step that has the text of the old
    step at the same index keeps that step's status and note, every other
    step is not started with an empty note; the title changes only when a
    non-empty one is given. *)
Theorem X7_update_carries_over_unchanged_steps pid plan ttl items sts t :
  pid ≠ "" → Dict.get (plans t) pid = Some plan → plan_wf plan →
  items ≠ [] → all_str items = Some sts →
  ∃ v plan',
    fst (_update_plan percent_1f (Some pid) ttl (StepsList items) t) = Ret v
    ∧ Dict.get (plans (snd (_update_plan percent_1f (Some pid) ttl (StepsList items) t)))
        pid = Some plan'
    ∧ steps plan' = sts
    ∧ title plan' = (if truthy ttl then fmt_opt ttl else title plan)
    ∧ ∀ j step, sts !! j = Some step →
        (steps plan !! j = Some step →
         step_statuses plan' !! j = step_statuses plan !! j
         ∧ step_notes plan' !! j = step_notes plan !! j)
        ∧ (steps plan !! j ≠ Some step →
           step_statuses plan' !! j = Some "not_started"
           ∧ step_notes plan' !! j = Some "").
Proof.
  intros Hpid Hget [W1 W2] Hitems Hstr. unfold _update_plan.
  destruct pid as [|c pid]; [done|]. rewrite Hget.
  set (plan0 := match ttl with
                | Some (String _ _ as x) => set_title x plan
                | _ => plan end).
  set (t0 := match ttl with
             | Some (String _ _) => store (String c pid) plan0 t
             | _ => t end).
  assert (Hfields : steps plan0 = steps plan ∧ step_statuses plan0 = step_statuses plan
                    ∧ step_notes plan0 = step_notes plan
                    ∧ title plan0 = (if truthy ttl then fmt_opt ttl else title plan)).
  { subst plan0. by destruct ttl as [[|]|]. }
  destruct Hfields as (F1 & F2 & F3 & F4).
  destruct items as [|item items]; [done|]. cbn [steps_truthy str_list]. rewrite Hstr.
  rewrite F1, F2, F3.
  destruct (carry_over_ok sts 0 _ _ _ [] [] W1 W2) as (ns & nn & Hc). rewrite Hc.
  apply carry_over_imap in Hc as [-> ->]. simpl.
  assert (Hsts : sts ≠ []).
  { apply all_str_length in Hstr. by destruct sts. }
  match goal with |- context [formatted _ ?h ?p ?s] =>
    destruct (formatted_ok h p s) as [r ->]; [done|] end.
  cbn [fst snd store plans]. eexists _, _. split; [done|].
  split; [apply dict_get_set_eq|]. split_and!; [done|done|].
  intros j step Hj. simpl. rewrite !list_lookup_imap, Hj. simpl. split.
  - intros Hold. rewrite !bool_decide_eq_true_2 by done.
    apply lookup_lt_Some in Hold.
    destruct (lookup_lt_is_Some_2 (step_statuses plan) j) as [x ->]; [lia|].
    by destruct (lookup_lt_is_Some_2 (step_notes plan) j) as [y ->]; [lia|].
  - intros Hold. by rewrite !bool_decide_eq_false_2.
Qed.

(** X8. A [delete] of a stored plan removes that plan and no other,
    clears the current plan id exactly when it named the deleted plan, and
    a following [get] of the id is rejected. *)
Theorem X8_delete_removes_one_plan pid plan t :
  store_ok t → pid ≠ "" → Dict.get (plans t) pid = Some plan →
  fst (_delete_plan (Some pid) t) = Ret (VResult (result_output ("已删除计划：" +:+ pid)))
  ∧ Dict.get (plans (snd (_delete_plan (Some pid) t))) pid = None
  ∧ (∀ other, other ≠ pid →
       Dict.get (plans (snd (_delete_plan (Some pid) t))) other = Dict.get (plans t) other)
  ∧ _current_plan_id (snd (_delete_plan (Some pid) t))
    = (if bool_decide (_current_plan_id t = Some pid) then None else _current_plan_id t)
  ∧ fst (_get_plan percent_1f (Some pid) (snd (_delete_plan (Some pid) t)))
    = tool_error ("未找到ID为" +:+ pid +:+ "的计划").
Proof.
  intros [Hk _] Hpid Hget. unfold _delete_plan.
  destruct pid as [|c pid]; [done|]. unfold Dict.mem. rewrite Hget. cbn [fst snd plans].
  split_and!; try done.
  - by apply dict_get_del_eq.
  - intros other Hother. by apply dict_get_del_ne.
  - unfold _get_plan, or_current. simpl. by rewrite dict_get_del_eq.
Qed.

Lemma counts_add_up (l : list string) :
  Forall (fun s => str_in s valid_statuses = true) l →
  (count_str "completed" l + count_str "in_progress" l + count_str "blocked" l
   + count_str "not_started" l)%nat = length l.
Proof.
  unfold count_str. induction 1 as [|x l Hx Hl IH]; [done|].
  rewrite !filter_cons. simpl. unfold str_in, valid_statuses in Hx. simpl in Hx.
  destruct (String.eqb x "not_started") eqn:E1.
  { apply String.eqb_eq in E1. subst x. simpl. lia. }
  destruct (String.eqb x "in_progress") eqn:E2.
  { apply String.eqb_eq in E2. subst x. simpl. lia. }
  destruct (String.eqb x "completed") eqn:E3.
  { apply String.eqb_eq in E3. subst x. simpl. lia. }
  destruct (String.eqb x "blocked") eqn:E4; [|done].
  apply String.eqb_eq in E4. subst x. simpl. lia.
Qed.

(** X9. For a plan of a store that satisfies the invariant, the
    rendering goes through (there is a step to divide by), and it is the
    title with its underline, the progress line, the status line and the
    step details, where the four numbers that the status line prints
    (completed, in progress, blocked, not started) add up to the number
    of steps that the progress line prints as the total. *)
Theorem X9_status_counts_add_up pid plan t :
  store_ok t → Dict.get (plans t) pid = Some plan →
  ∃ completed in_progress blocked not_started : nat,
    let total := length (steps plan) in
    let title_line :=
      "计划：" +:+ title plan +:+ " (ID：" +:+ plan_id plan +:+ ")" +:+ nl in
    _format_plan percent_1f plan
    = Ret (title_line +:+ repeat_str "=" (len title_line) +:+ nl +:+ nl
           +:+ "进度：" +:+ pretty completed +:+ "/" +:+ pretty total
           +:+ " (" +:+ percent_1f completed total +:+ "%)" +:+ nl
           +:+ "状态：完成" +:+ pretty completed
           +:+ "个，进行中" +:+ pretty in_progress
           +:+ "个，阻塞" +:+ pretty blocked
           +:+ "个，未开始" +:+ pretty not_started
           +:+ "个" +:+ nl +:+ nl
           +:+ "步骤详情：" +:+ nl
           +:+ format_steps 0 (steps plan) (step_statuses plan) (step_notes plan))
    ∧ (completed + in_progress + blocked + not_started)%nat = total
    ∧ completed = length (filter (fun s => s = "completed") (step_statuses plan)).
Proof.
  intros Ht Hget. destruct (store_ok_get _ _ _ Ht Hget) as (_ & Hne & [W1 _] & Hval).
  exists (count_str "completed" (step_statuses plan)),
         (count_str "in_progress" (step_statuses plan)),
         (count_str "blocked" (step_statuses plan)),
         (count_str "not_started" (step_statuses plan)).
  cbv zeta. split; [|split].
  - unfold _format_plan. destruct (steps plan) as [|step rest] eqn:Hsteps; [done|].
    cbv zeta. by rewrite !str_app_assoc.
  - rewrite W1. by apply counts_add_up.
  - unfold count_str. f_equal. apply list_filter_iff. intros s.
    by rewrite String.eqb_eq.
Qed.

End PlanningMore.

(** ** The tool registry, continued *)

Section RegistryMore.

Import ToolCollection ToolCollectionMore.

Context {W I : Type}.
Variable empty_input : I.
Implicit Types (c : ToolCollection W I) (tool : BaseTool W I).

Lemma last_named_snoc (ts : list (BaseTool W I)) tool n :
  last (filter (fun tool => name tool = n) (ts ++ [tool]))
  = if decide (name tool = n) then Some tool
    else last (filter (fun tool => name tool = n) ts).
Proof.
  rewrite filter_app, filter_cons, filter_nil.
  destruct (decide (name tool = n)).
  - apply last_snoc.
  - by rewrite app_nil_r.
Qed.

Lemma add_tool_follows c tool :
  map_follows_tools c → map_follows_tools (add_tool c tool).
Proof.
  intros Hc n. simpl. rewrite last_named_snoc.
  destruct (decide (name tool = n)) as [<-|Hne].
  - apply lookup_insert_eq.
  - rewrite lookup_insert_ne by done. apply Hc.
Qed.

Lemma add_tools_follows ts : ∀ c,
  map_follows_tools c → map_follows_tools (add_tools c ts).
Proof.
  induction ts as [|tool ts IH]; intros c Hc; [done|].
  apply IH. by apply add_tool_follows.
Qed.

Lemma init_as_add_tools (ts : list (BaseTool W I)) :
  __init__ ts = add_tools (__init__ []) ts.
Proof.
  unfold __init__, add_tools.
  assert (H : ∀ (m : gmap string (BaseTool W I)) pre,
            {| tools := pre ++ ts;
               tool_map := foldl (fun m tool => <[name tool := tool]> m) m ts |}
            = foldl add_tool {| tools := pre; tool_map := m |} ts).
  { induction ts as [|tool ts IH]; intros m pre; simpl.
    - by rewrite app_nil_r.
    - change (add_tool {| tools := pre; tool_map := m |} tool)
        with {| tools := pre ++ [tool]; tool_map := <[name tool := tool]> m |}.
      rewrite <- IH. by rewrite <- app_assoc. }
  apply (H ∅ []).
Qed.

Lemma init_follows (ts : list (BaseTool W I)) : map_follows_tools (__init__ ts).
Proof.
  rewrite init_as_add_tools. apply add_tools_follows.
  intros k. simpl. apply lookup_empty.
Qed.

(** X10. In a registry made by the constructor and grown by [add_tool]
    and [add_tools], the lookup map is determined by the tool sequence: a
    name resolves to the last tool of that name in the sequence, and to
    nothing when the sequence has none. *)
Theorem X10_lookup_is_last_registered (ts more : list (BaseTool W I)) tool n :
  tool_map (__init__ ts) !! n = last (filter (fun tool => name tool = n) ts)
  ∧ tool_map (add_tool (__init__ ts) tool) !! n
    = last (filter (fun tool => name tool = n) (ts ++ [tool]))
  ∧ tool_map (add_tools (__init__ ts) more) !! n
    = last (filter (fun tool => name tool = n) (tools (add_tools (__init__ ts) more))).
Proof.
  pose proof (init_follows ts) as Hinit.
  split_and!.
  - apply Hinit.
  - apply (add_tool_follows _ tool Hinit n).
  - apply (add_tools_follows more _ Hinit n).
Qed.

(** X11. When the lookup map follows the tool sequence, every schema
    that [to_params] advertises names a tool that [execute] can find: the
    name resolves to a tool of the sequence that carries this name. And
    every entry of the lookup map is a tool of the sequence, stored under
    its own name. *)
Theorem X11_advertised_names_resolve c :
  map_follows_tools c →
  (∀ p, p ∈ to_params c →
     ∃ tool, tool_map c !! function_name p = Some tool
             ∧ name tool = function_name p ∧ tool ∈ tools c)
  ∧ (∀ n tool, tool_map c !! n = Some tool → name tool = n ∧ tool ∈ tools c).
Proof.
  intros Hc.
  assert (Hentry : ∀ n tool, tool_map c !! n = Some tool → name tool = n ∧ tool ∈ tools c).
  { intros n tool. rewrite Hc. intros Hlast.
    apply last_Some_elem_of in Hlast. by apply list_elem_of_filter in Hlast. }
  split; [|done].
  intros p Hp. unfold to_params in Hp. apply list_elem_of_In, in_map_iff in Hp.
  destruct Hp as (tool & <- & Hin). apply list_elem_of_In in Hin. simpl.
  destruct (last (filter (fun t => name t = name tool) (tools c))) as [found|] eqn:Hlast.
  - exists found. rewrite Hc, Hlast. destruct (Hentry (name tool) found) as [? ?];
      [by rewrite Hc|done].
  - apply last_None in Hlast.
    assert (Hmem : tool ∈ filter (fun t => name t = name tool) (tools c))
      by (by apply list_elem_of_filter).
    rewrite Hlast in Hmem. by apply elem_of_nil in Hmem.
Qed.

Lemma ran_all_length (ts : list (BaseTool W I)) (w : W) results w' :
  ran_all empty_input ts w results w' → length results = length ts.
Proof. induction 1; simpl; congruence. Qed.

(** How the loop of [execute_all] is left. *)
Lemma execute_all_loop_spec (ts : list (BaseTool W I)) : ∀ results (w : W),
  match execute_all_loop empty_input ts results w with
  | (Ret all, w') => ∃ new, all = results ++ new ∧ ran_all empty_input ts w new w'
  | (Raise e, w') =>
    is_ToolError e = false
    ∧ ∃ before tool rest new w0,
        ts = before ++ tool :: rest
        ∧ ran_all empty_input before w new w0
        ∧ tool_execute tool empty_input w0 = (Raise e, w')
  end.
Proof.
  induction ts as [|tool ts IH]; intros results w; simpl.
  - exists []. split; [by rewrite app_nil_r|constructor].
  - destruct (tool_execute tool empty_input w) as [[r|e] w1] eqn:Htool.
    + specialize (IH (results ++ [r]) w1).
      destruct (execute_all_loop _ _ _ _) as [[all|e] w'].
      * destruct IH as (new & -> & Hran). exists (r :: new).
        split; [by rewrite <- app_assoc|]. by apply (ran_result _ tool ts w r w1).
      * destruct IH as (He & before & tool' & rest & new & w0 & -> & Hran & Hfault).
        split; [done|]. exists (tool :: before), tool', rest, (r :: new), w0.
        split; [done|]. split; [|done]. by apply (ran_result _ tool before w r w1).
    + destruct (is_ToolError e) eqn:He.
      * specialize (IH (results ++ [VResult (ToolFailure (exn_msg e))]) w1).
        destruct (execute_all_loop _ _ _ _) as [[all|e'] w'].
        -- destruct IH as (new & -> & Hran).
           exists (VResult (ToolFailure (exn_msg e)) :: new).
           split; [by rewrite <- app_assoc|].
           by apply (ran_tool_error _ tool ts w e w1).
        -- destruct IH as (He' & before & tool' & rest & new & w0 & -> & Hran & Hfault).
           split; [done|].
           exists (tool :: before), tool', rest,
                  (VResult (ToolFailure (exn_msg e)) :: new), w0.
           split; [done|]. split; [|done].
           by apply (ran_tool_error _ tool before w e w1).
      * split; [done|]. exists [], tool, ts, [], w.
        split; [done|]. split; [constructor|done].
Qed.

(** X12. [execute_all] runs the tools in order, each without arguments on
    the world the tool before it left. When it returns, it returns one
    result per registered tool: what the tool handed back, or the failure
    result of its [ToolError]. When it raises, the fault is one that a
    tool of the collection raised, after the tools before it had run, and
    it is not a [ToolError]. So when every fault of the tools is a
    [ToolError], [execute_all] returns. *)
Theorem X12_execute_all_one_result_per_tool c (w : W) :
  (∀ results w',
     execute_all empty_input c w = (Ret results, w') →
     ran_all empty_input (tools c) w results w'
     ∧ length results = length (tools c))
  ∧ (∀ e w',
       execute_all empty_input c w = (Raise e, w') →
       is_ToolError e = false
       ∧ ∃ before tool rest results w0,
           tools c = before ++ tool :: rest
           ∧ ran_all empty_input before w results w0
           ∧ tool_execute tool empty_input w0 = (Raise e, w'))
  ∧ ((∀ tool w0 e w1,
        tool ∈ tools c →
        tool_execute tool empty_input w0 = (Raise e, w1) →
        is_ToolError e = true) →
     ∃ results w', execute_all empty_input c w = (Ret results, w')).
Proof.
  pose proof (execute_all_loop_spec (tools c) [] w) as Hspec.
  unfold execute_all. split_and!.
  - intros results w' Hrun. rewrite Hrun in Hspec.
    destruct Hspec as (new & -> & Hran). simpl.
    split; [done|]. by apply ran_all_length in Hran.
  - intros e w' Hrun. by rewrite Hrun in Hspec.
  - intros Hfaults.
    destruct (execute_all_loop empty_input (tools c) [] w) as [[results|e] w'];
      [by eexists _, _|].
    destruct Hspec as (He & before & tool & rest & new & w0 & Hts & _ & Hfault).
    rewrite (Hfaults tool w0 e w') in He; [done| |done].
    rewrite Hts. apply elem_of_app. right. apply elem_of_cons. by left.
Qed.

End RegistryMore.

Lemma X11_advertised_names_resolve_witness :
  ∃ tool, ToolCollection.tool_map Scenario.terminate_registry !! "terminate" = Some tool
          ∧ ToolCollection.name tool = "terminate".
Proof.
  destruct (X11_advertised_names_resolve Scenario.terminate_registry
              (init_follows [Scenario.terminate_tool])) as [Hadv _].
  destruct (Hadv (ToolCollection.to_param Scenario.terminate_tool)) as (tool & Hm & Hn & _).
  - apply list_elem_of_singleton. reflexivity.
  - exists tool. split; [exact Hm|exact Hn].
Defined.

(** ** Tool results, continued *)

Section ResultFacts.

Import ToolResultMore.

Lemma combine_true (x y : option string) :
  ∃ z, combine_fields x y true = Ret z ∧ truthy z = truthy x || truthy y.
Proof.
  unfold combine_fields.
  destruct x as [[|c x]|], y as [[|c' y]|]; simpl; by eexists.
Qed.

Lemma combine_assoc (x y z xy yz : option string) :
  combine_fields x y true = Ret xy → combine_fields y z true = Ret yz →
  combine_fields xy z true = combine_fields x yz true.
Proof.
  unfold combine_fields.
  destruct x as [[|c x]|], y as [[|c' y]|], z as [[|c'' z]|]; simpl;
    intros [= <-] [= <-]; simpl; try done.
  by rewrite <- (str_app_assoc (String c x) (String c' y) (String c'' z)).
Qed.

(** X13. The sum of two tool results never raises and is a plain
    [ToolResult], whatever the classes of the operands; it is truthy
    exactly when one of the operands is; and summing is associative. *)
Theorem X13_result_sum (a b c : ToolResult) :
  ∃ ab bc abc,
    __add__ a b = Ret ab ∧ __add__ b c = Ret bc
    ∧ result_cls ab = ToolResultClass
    ∧ result_bool ab = result_bool a || result_bool b
    ∧ __add__ ab c = Ret abc ∧ __add__ a bc = Ret abc.
Proof.
  assert (Hadd : ∀ p q, ∃ o e s,
            combine_fields (output p) (output q) true = Ret o
            ∧ combine_fields (error p) (error q) true = Ret e
            ∧ combine_fields (system p) (system q) true = Ret s
            ∧ __add__ p q = Ret (mk_result ToolResultClass o e s)
            ∧ result_bool (mk_result ToolResultClass o e s)
              = result_bool p || result_bool q).
  { intros p q. unfold __add__, result_bool.
    destruct (combine_true (output p) (output q)) as (o & -> & Ho).
    destruct (combine_true (error p) (error q)) as (e & -> & He).
    destruct (combine_true (system p) (system q)) as (s & -> & Hs).
    exists o, e, s. split_and!; try done. simpl. rewrite Ho, He, Hs.
    by destruct (truthy (output p)), (truthy (output q)), (truthy (error p)),
      (truthy (error q)), (truthy (system p)), (truthy (system q)). }
  destruct (Hadd a b) as (o1 & e1 & s1 & Ho1 & He1 & Hs1 & Hab & Hbool).
  destruct (Hadd b c) as (o2 & e2 & s2 & Ho2 & He2 & Hs2 & Hbc & _).
  destruct (Hadd (mk_result ToolResultClass o1 e1 s1) c)
    as (o3 & e3 & s3 & Ho3 & He3 & Hs3 & Habc & _).
  eexists _, _, _. split_and!; try done.
  unfold __add__. simpl.
  simpl in Ho3, He3, Hs3.
  rewrite <- (combine_assoc _ _ _ _ _ Ho1 Ho2), Ho3.
  rewrite <- (combine_assoc _ _ _ _ _ He1 He2), He3.
  by rewrite <- (combine_assoc _ _ _ _ _ Hs1 Hs2), Hs3.
Qed.

End ResultFacts.

(** ** The agent core, continued *)

Section AgentMore.

Import BaseAgent Spec.

Context {X : Type}.
Implicit Types (a : BaseAgent X).

Variable step : BaseAgent X → outcome string * BaseAgent X.

(** X14. The loop of [run] invokes [step] only on an agent whose state is
    not FINISHED and whose step counter, already incremented, is within
    the budget: whatever [step] preserves under these two conditions, and
    the loop's own writes to the counter and to the next-step prompt
    preserve, holds of the agent when the loop is left. *)
Theorem X14_step_runs_only_unfinished_within_budget
    (Q : BaseAgent X → Prop) fuel a results calls l :
  (∀ b o b', state b ≠ FINISHED → (current_step b ≤ max_steps b)%Z →
             Q b → step b = (o, b') → Q b') →
  (∀ b n, Q b → Q (set_current_step n b)) →
  (∀ b p, Q b → Q (set_next_step_prompt p b)) →
  Q a →
  run_loop step fuel a results calls = Some l →
  Q (loop_agent l).
Proof.
  intros Hstep Hcount Hprompt. revert a results calls.
  induction fuel as [|fuel IH]; intros a results calls HQ; simpl.
  - destruct (_ && _); [done|]. by intros [= <-].
  - case_bool_decide as Hlt; simpl; [|by intros [= <-]].
    case_bool_decide as Hfin; simpl; [|by intros [= <-]].
    destruct (step (set_current_step (current_step a + 1) a)) as [[r|e] a2] eqn:Hrun.
    + apply IH. assert (HQ2 : Q a2).
      { eapply Hstep; [| |apply Hcount, HQ|exact Hrun]; simpl; [done|lia]. }
      destruct (is_stuck a2); [by apply Hprompt|done].
    + intros [= <-]. simpl.
      eapply Hstep; [| |apply Hcount, HQ|exact Hrun]; simpl; [done|lia].
Qed.

Lemma filter_and_length {A} (P Q : A → Prop) `{∀ x, Decision (P x)} `{∀ x, Decision (Q x)}
    (l : list A) :
  (length (filter (fun x => P x ∧ Q x) l) ≤ length (filter P l))%nat.
Proof.
  induction l as [|x l IH]; simpl; [done|].
  rewrite !filter_cons.
  destruct (decide (P x ∧ Q x)) as [[HP _]|Hn]; destruct (decide (P x)); simpl; try lia.
  done.
Qed.

(** X15. Stuck detection needs history: when [is_stuck] answers true,
    the last message has non-empty content, at least [duplicate_threshold]
    assistant messages precede it, and memory holds more than
    [duplicate_threshold] messages. *)
Theorem X15_stuck_needs_history a :
  is_stuck a = true →
  (∃ last_message, last (messages a) = Some last_message
                   ∧ truthy (content last_message) = true)
  ∧ (duplicate_threshold a
     ≤ Z.of_nat (length (filter (fun m => role m = Assistant) (removelast (messages a)))))%Z
  ∧ (duplicate_threshold a < Z.of_nat (length (messages a)))%Z.
Proof.
  unfold is_stuck.
  destruct (Nat.ltb_spec (length (messages a)) 2) as [Hlen|Hlen]; [done|].
  destruct (last (messages a)) as [last_message|] eqn:Hlast; [|done].
  destruct (truthy (content last_message)) eqn:Hcontent; [|done]. simpl.
  rewrite sum_ones, filter_rev_length. intros Hthr. apply bool_decide_eq_true in Hthr.
  pose proof (filter_and_length (fun m => role m = Assistant)
                (fun m => content m = content last_message)
                (removelast (messages a))) as Hle.
  pose proof (length_filter (fun m => role m = Assistant) (removelast (messages a))) as Hle'.
  assert (Hrm : length (removelast (messages a)) = (length (messages a) - 1)%nat).
  { apply last_Some in Hlast as [l' ->]. rewrite removelast_last, length_app. simpl. lia. }
  split; [by eexists|]. split; lia.
Qed.

End AgentMore.

(** ** The tool-calling agent, continued *)

Section ActFacts.

Import BaseAgent ToolCallAgent ToolResultMore ToolCallMore.

Context {W I : Type}.
Variable empty_input : I.
Variable json_loads : string → outcome (json_args I).
Variable lower : string → string.
Variable max_observe : option Z.
Implicit Types (a : Agent W I) (w : W) (command : ToolCall).

(** [execute_tool] leaves the agent alone or sets its state to FINISHED,
    the latter only for a special tool that is registered. *)
Lemma execute_tool_agent command a w :
  snd (fst (execute_tool empty_input json_loads lower command a w)) = a
  ∨ (snd (fst (execute_tool empty_input json_loads lower command a w))
       = set_state FINISHED a
     ∧ _is_special_tool lower (call_function_name command) a = true
     ∧ is_Some (ToolCollection.tool_map (available_tools (ext a))
                  !! call_function_name command)).
Proof.
  unfold execute_tool. destruct (String.eqb _ ""); [by left|].
  destruct (ToolCollection.tool_map _ !! _) as [tool|] eqn:Hreg; [|by left].
  unfold execute_tool_try. destruct (json_loads _) as [args|e]; simpl.
  2: { destruct (is_JSONDecodeError e); by left. }
  destruct (run_tool _ _ _ _ _) as [[result|e] w'].
  2: { destruct (is_JSONDecodeError e); by left. }
  destruct (observation_of _ _) as [obs|e]; simpl.
  2: { destruct (is_JSONDecodeError e); by left. }
  unfold _handle_special_tool.
  destruct (_is_special_tool _ _ _) eqn:Hsp; simpl; [right|by left].
  by split_and!.
Qed.

(** X16. Executing a tool call changes nothing of the agent, except
    that it sets the state to FINISHED when the named tool is special,
    registered, and the call came back without a fault. When the name is
    empty or not registered, or the arguments do not parse, no tool runs:
    agent and world stay as they were. When the tool, called with the
    parsed arguments, hands back a value, the observation made of that
    value is returned, the world is the one the tool left, and the state
    is FINISHED if the tool is special and untouched if not.
    When the tool raises a fault that is not a [ToolError], the fault is
    reported in the returned text, the world is the one the tool left,
    and the agent, its state included, stays as it was. *)
Theorem X16_execute_tool_effects command a w text a' w' :
  execute_tool empty_input json_loads lower command a w = (text, a', w') →
  (a' = a ∨ a' = set_state FINISHED a)
  ∧ (_is_special_tool lower (call_function_name command) a = false → a' = a)
  ∧ (ToolCollection.tool_map (available_tools (ext a)) !! call_function_name command
       = None → a' = a ∧ w' = w)
  ∧ (call_function_name command = "" → a' = a ∧ w' = w)
  ∧ (raises (json_loads (if String.eqb (call_arguments command) "" then "{}"
                         else call_arguments command)) = true →
     a' = a ∧ w' = w)
  ∧ (∀ tool kw,
       call_function_name command ≠ "" →
       ToolCollection.tool_map (available_tools (ext a)) !! call_function_name command
         = Some tool →
       json_loads (if String.eqb (call_arguments command) "" then "{}"
                   else call_arguments command) = Ret (ArgsDict kw) →
       (∀ value w1 observation,
          ToolCollection.tool_execute tool kw w = (Ret value, w1) →
          observation_of (call_function_name command) value = Ret observation →
          text = observation ∧ w' = w1
          ∧ a' = (if _is_special_tool lower (call_function_name command) a
                  then set_state FINISHED a else a))
       ∧ (∀ e w1,
            ToolCollection.tool_execute tool kw w = (Raise e, w1) →
            is_ToolError e = false →
            text = (if is_JSONDecodeError e
                    then "Error: Error parsing arguments for "
                           +:+ call_function_name command +:+ ": Invalid JSON format"
                    else "Error: ⚠️ Tool '" +:+ call_function_name command
                           +:+ "' encountered a problem: " +:+ exn_msg e)
            ∧ w' = w1 ∧ a' = a)).
Proof.
  intros Hrun.
  pose proof (execute_tool_agent command a w) as Hagent. rewrite Hrun in Hagent.
  simpl in Hagent. split_and!.
  - destruct Hagent as [?|[? _]]; auto.
  - intros Hsp. destruct Hagent as [?|(_ & Hsp' & _)]; [done|congruence].
  - intros Hreg. unfold execute_tool in Hrun. rewrite Hreg in Hrun.
    by destruct (String.eqb _ ""); injection Hrun as _ <- <-.
  - intros Hname. unfold execute_tool in Hrun. rewrite Hname in Hrun. simpl in Hrun.
    by injection Hrun as _ <- <-.
  - intros Hjson. unfold execute_tool, execute_tool_try in Hrun.
    destruct (String.eqb (call_function_name command) ""); [by injection Hrun as _ <- <-|].
    destruct (ToolCollection.tool_map _ !! _); [|by injection Hrun as _ <- <-].
    destruct (json_loads _) as [args|e]; [done|].
    by destruct (is_JSONDecodeError e); injection Hrun as _ <- <-.
  - intros tool kw Hname Hreg Hjson.
    unfold execute_tool in Hrun. apply String.eqb_neq in Hname.
    rewrite Hname, Hreg in Hrun. unfold execute_tool_try in Hrun.
    rewrite Hjson in Hrun. unfold run_tool, ToolCollection.execute in Hrun.
    rewrite Hreg in Hrun. simpl in Hrun. split.
    + intros value w1 observation Htool Hobs. rewrite Htool, Hobs in Hrun.
      unfold _handle_special_tool in Hrun.
      by destruct (_is_special_tool _ _ _); injection Hrun as <- <- <-.
    + intros e w1 Htool He. rewrite Htool, He in Hrun.
      by destruct (is_JSONDecodeError e); injection Hrun as <- <- <-.
Qed.

(** X17. A special tool that is registered and fails with a [ToolError]
    still ends the run: the registry turns the error into a failure
    result, the observation reports it, and the state becomes FINISHED. *)
Theorem X17_failed_special_tool_still_finishes command a w tool kw e w1 :
  call_function_name command ≠ "" →
  ToolCollection.tool_map (available_tools (ext a)) !! call_function_name command
    = Some tool →
  json_loads (if String.eqb (call_arguments command) "" then "{}"
              else call_arguments command) = Ret (ArgsDict kw) →
  ToolCollection.tool_execute tool kw w = (Raise e, w1) →
  is_ToolError e = true →
  _is_special_tool lower (call_function_name command) a = true →
  execute_tool empty_input json_loads lower command a w
  = (if String.eqb (exn_msg e) ""
     then "Cmd `" +:+ call_function_name command +:+ "` completed with no output"
     else "Observed output of cmd `" +:+ call_function_name command
            +:+ "` executed:" +:+ nl +:+ "Error: " +:+ exn_msg e,
     set_state FINISHED a, w1).
Proof.
  intros Hname Hreg Hjson Hrun He Hsp.
  unfold execute_tool. apply String.eqb_neq in Hname. rewrite Hname, Hreg.
  unfold execute_tool_try. rewrite Hjson.
  unfold run_tool, ToolCollection.execute. rewrite Hreg. simpl. rewrite Hrun, He.
  unfold observation_of, value_bool, value_str, result_bool, str_result, __str__.
  simpl. unfold _handle_special_tool. rewrite Hsp. simpl.
  by destruct (String.eqb (exn_msg e) "").
Qed.

(** What [execute_tool] leaves of the agent besides the state. *)
Lemma execute_tool_frame command a w :
  let a1 := snd (fst (execute_tool empty_input json_loads lower command a w)) in
  messages a1 = messages a ∧ ext a1 = ext a
  ∧ name a1 = name a ∧ system_prompt a1 = system_prompt a
  ∧ next_step_prompt a1 = next_step_prompt a
  ∧ max_steps a1 = max_steps a ∧ current_step a1 = current_step a
  ∧ duplicate_threshold a1 = duplicate_threshold a
  ∧ (state a1 = state a ∨ state a1 = FINISHED).
Proof.
  simpl. destruct (execute_tool_agent command a w) as [->|[-> _]];
    split_and!; auto.
Qed.

(** The loop of [act] executes the calls, when each has a function. *)
Lemma act_loop_spec calls : ∀ results a w,
  Forall (fun call => is_Some (call_function call)) calls →
  ∃ observations a' w',
    executed empty_input json_loads lower max_observe calls a w observations a' w'
    ∧ act_loop empty_input json_loads lower max_observe calls results a w
      = (Ret (results ++ observations), a', w').
Proof.
  induction calls as [|command rest IH]; intros results a w Hcalls.
  - exists [], a, w. split; [constructor|]. simpl. by rewrite app_nil_r.
  - apply Forall_cons in Hcalls as [[function Hf] Hrest]. simpl.
    destruct (execute_tool empty_input json_loads lower command a w)
      as [[text a1] w1] eqn:Hexec.
    rewrite Hf.
    destruct (IH (results ++ [observe max_observe text])
                (remember (tool_message (observe max_observe text) (call_id command)
                             (fn_name function)) a1) w1 Hrest)
      as (observations & a' & w' & Hdone & Hloop).
    exists (observe max_observe text :: observations), a', w'. split.
    + by apply (executed_cons _ _ _ _ command function rest a w text a1 w1).
    + rewrite Hloop. by rewrite <- app_assoc.
Qed.

(** What a sequence of executed calls leaves of the agent. *)
Lemma executed_frame calls a w observations a' w' :
  executed empty_input json_loads lower max_observe calls a w observations a' w' →
  length observations = length calls
  ∧ messages a'
    = messages a
      ++ zip_with (fun r c => tool_message r (call_id c) (call_function_name c))
           observations calls
  ∧ ext a' = ext a
  ∧ name a' = name a ∧ system_prompt a' = system_prompt a
  ∧ next_step_prompt a' = next_step_prompt a
  ∧ max_steps a' = max_steps a ∧ current_step a' = current_step a
  ∧ duplicate_threshold a' = duplicate_threshold a
  ∧ (state a' = state a ∨ state a' = FINISHED).
Proof.
  induction 1 as [a w|command function rest a w text a1 w1 observations a' w'
                      Hf Hexec Hrest IH].
  - simpl. rewrite app_nil_r. split_and!; auto.
  - pose proof (execute_tool_frame command a w) as Hframe.
    rewrite Hexec in Hframe. simpl in Hframe.
    destruct Hframe as (F1 & F2 & F3 & F4 & F5 & F6 & F7 & F8 & F9).
    destruct IH as (I1 & I2 & I3 & I4 & I5 & I6 & I7 & I8 & I9 & I10).
    simpl in I2, I3, I4, I5, I6, I7, I8, I9, I10.
    split_and!; try congruence.
    + simpl. by rewrite I1.
    + rewrite I2, F1. unfold add_message. rewrite <- app_assoc. simpl.
      unfold call_function_name at 2. by rewrite Hf.
    + destruct I10 as [->|?]; auto.
Qed.

(** X18. With tool calls queued, each with a function, [act] returns
    normally and executes every call: the calls go through
    [execute_tool] one after the other, each on the agent and the world
    the call before it left, and after each exactly one tool message is
    appended to memory, tagged with the id and the tool name of the call
    and carrying its observation; the returned text joins the
    observations. Of the agent nothing else changes but, possibly, the
    state to FINISHED. *)
Theorem X18_act_appends_one_tool_message_per_call a w :
  tool_calls (ext a) ≠ [] →
  Forall (fun call => is_Some (call_function call)) (tool_calls (ext a)) →
  ∃ observations a' w',
    executed empty_input json_loads lower max_observe
      (tool_calls (ext a)) a w observations a' w'
    ∧ act empty_input json_loads lower max_observe a w
      = (Ret (join (nl +:+ nl) observations), a', w')
    ∧ length observations = length (tool_calls (ext a))
    ∧ messages a'
      = messages a
        ++ zip_with (fun r c => tool_message r (call_id c) (call_function_name c))
             observations (tool_calls (ext a))
    ∧ ext a' = ext a
    ∧ name a' = name a ∧ system_prompt a' = system_prompt a
    ∧ next_step_prompt a' = next_step_prompt a
    ∧ max_steps a' = max_steps a ∧ current_step a' = current_step a
    ∧ duplicate_threshold a' = duplicate_threshold a
    ∧ (state a' = state a ∨ state a' = FINISHED).
Proof.
  intros Hcalls Hfun.
  destruct (act_loop_spec (tool_calls (ext a)) [] a w Hfun)
    as (observations & a' & w' & Hdone & Hloop).
  exists observations, a', w'. split; [done|]. split.
  - unfold act. destruct (tool_calls (ext a)) as [|command rest]; [done|].
    by rewrite Hloop.
  - exact (executed_frame _ _ _ _ _ _ Hdone).
Qed.

Variable ask_tool :
  list Message → option (list Message) → list ToolCollection.Param
  → ToolChoice → outcome (option Response).
Variable from_tool_calls : option string → list ToolCall → outcome Message.

Lemma prompted_ext a : ext (prompted a) = ext a.
Proof. unfold prompted. by destruct (truthy (next_step_prompt a)). Qed.

Lemma queued_choice calls a :
  tool_choices (ext (set_tool_calls calls (prompted a))) = tool_choices (ext a).
Proof. simpl. by rewrite prompted_ext. Qed.

(** [think] when the model has answered without a tool call. *)
Lemma think_without_calls a reply :
  ask ask_tool (prompted a) = Ret (Some (mk_response reply [])) →
  think ask_tool from_tool_calls a
  = match tool_choices (ext a) with
    | NONE =>
      if truthy reply
      then (Ret true, remember (assistant_message reply) (set_tool_calls [] (prompted a)))
      else (Ret false, set_tool_calls [] (prompted a))
    | AUTO =>
      (Ret (truthy reply),
       remember (assistant_message reply) (set_tool_calls [] (prompted a)))
    | REQUIRED =>
      (Ret true, remember (assistant_message reply) (set_tool_calls [] (prompted a)))
    end.
Proof.
  intros Hask. unfold think. rewrite Hask.
  cbn [response_content response_tool_calls logged_names].
  unfold think_try. cbn [response_content response_tool_calls].
  pose proof (queued_choice [] a) as Hchoice.
  change (has_calls (set_tool_calls [] (prompted a))) with false. cbn iota.
  change (tool_choices (ext (remember (assistant_message reply)
                               (set_tool_calls [] (prompted a)))))
    with (tool_choices (ext (set_tool_calls [] (prompted a)))).
  change (has_calls (remember (assistant_message reply)
                       (set_tool_calls [] (prompted a)))) with false.
  rewrite Hchoice. destruct (tool_choices (ext a)); simpl; [|done|done].
  by destruct (truthy reply).
Qed.

(** X19. When the mode is not REQUIRED and the model answers with
    non-empty text and no tool call, the step returns that text: [think]
    records it as an assistant message and [act] hands back the content of
    this last message; no tool runs. *)
Theorem X19_text_answer_is_the_step_result a w text :
  tool_choices (ext a) ≠ REQUIRED →
  text ≠ "" →
  ask ask_tool (prompted a) = Ret (Some (mk_response (Some text) [])) →
  step empty_input json_loads lower max_observe ask_tool from_tool_calls a w
  = (Ret text,
     remember (assistant_message (Some text)) (set_tool_calls [] (prompted a)),
     w).
Proof.
  intros Hmode Htext Hask. unfold step. rewrite (think_without_calls a _ Hask).
  assert (Htruthy : truthy (Some text) = true) by (by destruct text).
  rewrite Htruthy.
  assert (Hact : act empty_input json_loads lower max_observe
                   (remember (assistant_message (Some text))
                      (set_tool_calls [] (prompted a))) w
                 = (Ret text,
                    remember (assistant_message (Some text))
                      (set_tool_calls [] (prompted a)), w)).
  { unfold act. cbn [ext remember set_messages set_tool_calls set_ext tool_calls
                       tool_choices messages].
    rewrite prompted_ext. rewrite bool_decide_eq_false_2 by done.
    unfold add_message. rewrite last_snoc. cbn [content assistant_message].
    by rewrite Htruthy. }
  by destruct (tool_choices (ext a)).
Qed.

(** X20. In mode REQUIRED, when the model answers without a tool call,
    [think] still records the assistant message and asks for action, and
    [act] raises the error "Tool calls required but none provided": the
    step raises. *)
Theorem X20_required_mode_without_calls_raises a w reply :
  tool_choices (ext a) = REQUIRED →
  ask ask_tool (prompted a) = Ret (Some (mk_response reply [])) →
  step empty_input json_loads lower max_observe ask_tool from_tool_calls a w
  = (Raise (mk_exn ValueError "Tool calls required but none provided"),
     remember (assistant_message reply) (set_tool_calls [] (prompted a)),
     w).
Proof.
  intros Hmode Hask. unfold step. rewrite (think_without_calls a _ Hask), Hmode.
  cbn [negb]. unfold act.
  cbn [ext remember set_messages set_tool_calls set_ext tool_calls tool_choices].
  rewrite prompted_ext, Hmode. by rewrite bool_decide_eq_true_2.
Qed.

(** X21. In mode NONE the calls of the answer, each with a function, are
    stored on the agent all the same. When the answer also has text,
    [think] records the text and asks for action, and [act] executes
    every stored call, each through [execute_tool] on the agent and the
    world the call before it left, and appends one tool message per call
    after the assistant message; the calls stay stored. When the answer
    has no text, the step ends without action, no tool runs, and the
    calls stay stored. *)
Theorem X21_mode_none_still_runs_the_calls a w reply calls :
  tool_choices (ext a) = NONE →
  calls ≠ [] →
  Forall (fun call => is_Some (call_function call)) calls →
  ask ask_tool (prompted a) = Ret (Some (mk_response reply calls)) →
  if truthy reply then
    ∃ observations a' w',
      executed empty_input json_loads lower max_observe calls
        (remember (assistant_message reply) (set_tool_calls calls (prompted a))) w
        observations a' w'
      ∧ step empty_input json_loads lower max_observe ask_tool from_tool_calls a w
        = (Ret (join (nl +:+ nl) observations), a', w')
      ∧ length observations = length calls
      ∧ tool_calls (ext a') = calls
      ∧ messages a'
        = messages (prompted a) ++ [assistant_message reply]
          ++ zip_with (fun r c => tool_message r (call_id c) (call_function_name c))
               observations calls
  else
    step empty_input json_loads lower max_observe ask_tool from_tool_calls a w
    = (Ret "思考完成 - 无需操作", set_tool_calls calls (prompted a), w)
    ∧ tool_calls (ext (set_tool_calls calls (prompted a))) = calls.
Proof.
  intros Hmode Hcalls Hfun Hask. unfold step, think. rewrite Hask.
  cbn [response_content response_tool_calls].
  destruct (logged_names_ok _ Hfun) as [names ->].
  unfold think_try. cbn [response_content response_tool_calls].
  rewrite (queued_choice calls a), Hmode. rewrite bool_decide_eq_true_2 by done.
  destruct (truthy reply); [|done]. cbn [negb].
  destruct (act_loop_spec calls []
              (remember (assistant_message reply) (set_tool_calls calls (prompted a)))
              w Hfun) as (observations & a' & w' & Hdone & Hloop).
  destruct (executed_frame _ _ _ _ _ _ Hdone) as (Hlen & Hmsg & Hext & _).
  exists observations, a', w'. split; [done|]. split.
  { unfold act.
    change (tool_calls (ext (remember (assistant_message reply)
                               (set_tool_calls calls (prompted a))))) with calls.
    destruct calls as [|command rest]; [done|]. by rewrite Hloop. }
  split; [done|]. split; [by rewrite Hext|].
  rewrite Hmsg. unfold remember, add_message. simpl. by rewrite <- app_assoc.
Qed.

(** The step of the tool-calling agent leaves the step counter and the
    step budget alone, whatever the model client and the tools do. *)
Lemma act_loop_counters calls : ∀ results a w,
  let a' := snd (fst (act_loop empty_input json_loads lower max_observe
                        calls results a w)) in
  current_step a' = current_step a ∧ max_steps a' = max_steps a.
Proof.
  induction calls as [|command rest IH]; intros results a w; [done|]. simpl.
  pose proof (execute_tool_frame command a w) as Hframe.
  destruct (execute_tool empty_input json_loads lower command a w) as [[text a1] w1].
  simpl in Hframe. destruct Hframe as (_ & _ & _ & _ & _ & Hm & Hc & _).
  destruct (call_function command) as [function|]; [|by simpl].
  specialize (IH (results ++ [observe max_observe text])
                (remember (tool_message (observe max_observe text) (call_id command)
                             (fn_name function)) a1) w1).
  simpl in IH. destruct IH as [IHc IHm]. split; congruence.
Qed.

Lemma think_counters a :
  let a' := snd (think ask_tool from_tool_calls a) in
  current_step a' = current_step a ∧ max_steps a' = max_steps a.
Proof.
  assert (Hp : current_step (prompted a) = current_step a
               ∧ max_steps (prompted a) = max_steps a).
  { unfold prompted. by destruct (truthy (next_step_prompt a)). }
  simpl. unfold think.
  destruct (ask ask_tool (prompted a)) as [[response|]|e]; [|done..].
  destruct (logged_names _); [|done].
  destruct (think_try _ _ _) as [[b|e] a2] eqn:Htry.
  - unfold think_try in Htry. simpl.
    repeat (case_bool_decide || destruct (truthy _) || destruct (has_calls _)
            || destruct (from_tool_calls _ _) || destruct (_ && _));
      injection Htry as _ <-; done.
  - apply think_try_raise in Htry. by subst a2.
Qed.

Lemma toolcall_step_counters a w :
  let a' := snd (fst (step empty_input json_loads lower max_observe
                        ask_tool from_tool_calls a w)) in
  current_step a' = current_step a ∧ max_steps a' = max_steps a.
Proof.
  simpl. unfold step. pose proof (think_counters a) as Hthink.
  destruct (think ask_tool from_tool_calls a) as [[should_act|e] a1]; [|done].
  simpl in Hthink. destruct should_act; [|done]. cbn [negb].
  unfold act. destruct (tool_calls (ext a1)) as [|command rest].
  - case_bool_decide; [done|]. by destruct (last (messages a1)).
  - pose proof (act_loop_counters (command :: rest) [] a1 w) as Hact.
    destruct (act_loop _ _ _ _ (command :: rest) [] a1 w) as [[[results|e] a2] w2];
      simpl in Hact; destruct Hact, Hthink; split; simpl; congruence.
Qed.

End ActFacts.

(** ** The planning agent, continued *)

Section OverlayFacts.

Import Planning Spec PlanningAgent PlanningAgentMore.

Variable percent_1f : nat → nat → string.

(** X22. [update_plan_status] for a tracked call that is completed marks
    the tracked step of the active plan as completed, through the
    registry, and changes nothing else; when the tracked index is outside
    the plan, the store stays as it was. *)
Theorem X22_update_plan_status_marks_tracked_step
    (reg : ToolCollection.ToolCollection PlanningTool kwargs) tool
    pid plan (tracker : gmap string Track) call_id tr t :
  ToolCollection.tool_map reg !! "planning" = Some tool →
  ToolCollection.tool_execute tool = execute percent_1f →
  pid ≠ "" → Dict.get (plans t) pid = Some plan → plan_wf plan →
  tracker !! call_id = Some tr → status tr = "completed" →
  update_plan_status reg (Some pid) tracker call_id t
  = if bool_decide (step_index tr < length (steps plan))%nat
    then store pid
           (set_statuses (<[step_index tr:="completed"]> (step_statuses plan)) plan) t
    else t.
Proof.
  intros Hreg Hexec Hpid Hget Hwf Htr Hstatus.
  unfold update_plan_status. rewrite Htr, Hstatus.
  assert (Htruthy : truthy (Some pid) = true) by (by destruct pid).
  rewrite Htruthy. cbn [negb String.eqb].
  change (String.eqb "completed" "completed") with true. cbn [negb].
  unfold call_planning, ToolCollection.execute. rewrite Hreg, Hexec.
  cbn [default from_option]. unfold id.
  change (execute percent_1f
            (mk_kwargs (Some "mark_step") (Some pid) None StepsNone
               (Some (Z.of_nat (step_index tr))) (Some "completed") None) t)
    with (_mark_step percent_1f (Some pid) (Some (Z.of_nat (step_index tr)))
            (Some "completed") None t).
  assert (Hcur : or_current (Some pid) t = Some pid).
  { unfold or_current. by rewrite Htruthy. }
  case_bool_decide as Hidx.
  - destruct (mark_step_ok percent_1f (Some pid) pid plan (Z.of_nat (step_index tr))
                (Some "completed") None t) as (text & _ & ->); try done; [lia|].
    simpl. by rewrite Nat2Z.id.
  - unfold _mark_step. rewrite Hcur. destruct pid as [|c pid]; [done|]. rewrite Hget.
    rewrite (proj2 (orb_true_iff _ _)); [done|]. right. lia.
Qed.

Lemma find_active_line_spec lines : ∀ k i,
  find_active_line k lines = Some i ↔
  (k ≤ i)%nat
  ∧ (∃ line, lines !! (i - k)%nat = Some line ∧ has_marker line = true)
  ∧ ∀ j line, (j < i - k)%nat → lines !! j = Some line → has_marker line = false.
Proof.
  induction lines as [|line rest IH]; intros k i; simpl.
  - split; [done|]. by intros (_ & (l & Hl & _) & _).
  - fold (has_marker line). destruct (has_marker line) eqn:Hm.
    + split.
      * intros [= <-]. rewrite Nat.sub_diag. split; [done|]. split; [by exists line|].
        intros j l Hj. lia.
      * intros (Hk & (l & Hl & Hml) & Hfirst).
        destruct (i - k)%nat as [|d] eqn:Hd; [f_equal; lia|].
        specialize (Hfirst 0%nat line). rewrite Hm in Hfirst.
        discriminate Hfirst; [lia|done].
    + rewrite IH. split.
      * intros (Hk & (l & Hl & Hml) & Hfirst). split; [lia|].
        replace (i - k)%nat with (S (i - S k)) by lia. split; [by exists l|].
        intros [|j] l' Hj; simpl; [by intros [= <-]|].
        intros Hl'. apply (Hfirst j l'); [lia|done].
      * intros (Hk & (l & Hl & Hml) & Hfirst).
        destruct (i - k)%nat as [|d] eqn:Hd.
        { simpl in Hl. injection Hl as <-. congruence. }
        simpl in Hl. split; [lia|]. replace (i - S k)%nat with d by lia.
        split; [by exists l|]. intros j l' Hj Hl'.
        apply (Hfirst (S j) l'); [lia|done].
Qed.

Lemma find_steps_line_spec lines : ∀ k i,
  find_steps_line k lines = Some i ↔
  (k ≤ i)%nat
  ∧ (∃ line, lines !! (i - k)%nat = Some line ∧ strip line = steps_marker)
  ∧ ∀ j line, (j < i - k)%nat → lines !! j = Some line → strip line ≠ steps_marker.
Proof.
  induction lines as [|line rest IH]; intros k i; simpl.
  - split; [done|]. by intros (_ & (l & Hl & _) & _).
  - unfold cps_eqb. case_bool_decide as Hm.
    + split.
      * intros [= <-]. rewrite Nat.sub_diag. split; [done|]. split; [by exists line|].
        intros j l Hj. lia.
      * intros (Hk & (l & Hl & Hml) & Hfirst).
        destruct (i - k)%nat as [|d] eqn:Hd; [f_equal; lia|].
        destruct (Hfirst 0%nat line); [lia|done|done].
    + rewrite IH. split.
      * intros (Hk & (l & Hl & Hml) & Hfirst). split; [lia|].
        replace (i - k)%nat with (S (i - S k)) by lia. split; [by exists l|].
        intros [|j] l' Hj; simpl; [by intros [= <-]|].
        intros Hl'. apply (Hfirst j l'); [lia|done].
      * intros (Hk & (l & Hl & Hml) & Hfirst).
        destruct (i - k)%nat as [|d] eqn:Hd.
        { simpl in Hl. injection Hl as <-. congruence. }
        simpl in Hl. split; [lia|]. replace (i - S k)%nat with d by lia.
        split; [by exists l|]. intros j l' Hj Hl'.
        apply (Hfirst (S j) l'); [lia|done].
Qed.

(** X23. The two searches of [_get_current_step_index] find the first
    match: the header search returns the index of the first line that is
    [Steps:] once stripped, the step search the index of the first line
    that contains the marker [[ ]] or [[→]]; each returns an index exactly
    when such a line exists. *)
Theorem X23_plan_searches_find_first_match (lines : list (list N)) (i : nat) :
  (find_steps_line 0 lines = Some i ↔
     (∃ line, lines !! i = Some line ∧ strip line = steps_marker)
     ∧ ∀ j line, (j < i)%nat → lines !! j = Some line → strip line ≠ steps_marker)
  ∧ (find_active_line 0 lines = Some i ↔
       (∃ line, lines !! i = Some line ∧ has_marker line = true)
       ∧ ∀ j line, (j < i)%nat → lines !! j = Some line → has_marker line = false).
Proof.
  split.
  - rewrite find_steps_line_spec, Nat.sub_0_r. split; [by intros (_ & ? & ?)|].
    intros [? ?]. split_and!; [lia|done|done].
  - rewrite find_active_line_spec, Nat.sub_0_r. split; [by intros (_ & ? & ?)|].
    intros [? ?]. split_and!; [lia|done|done].
Qed.

(** X24. When the active plan is not in the store, the planning agent
    gets no plan text from the registry (the failure result has no
    output), resolves no current step, and leaves the store as it was. *)
Theorem X24_missing_plan_gives_no_current_step
    (reg : ToolCollection.ToolCollection PlanningTool kwargs) tool pid t :
  ToolCollection.tool_map reg !! "planning" = Some tool →
  ToolCollection.tool_execute tool = execute percent_1f →
  pid ≠ "" → Dict.get (plans t) pid = None →
  get_plan reg (Some pid) t = (Ret None, t)
  ∧ _get_current_step_index reg (Some pid) t = (Ret None, t).
Proof.
  intros Hreg Hexec Hpid Hget.
  assert (Htruthy : truthy (Some pid) = true) by (by destruct pid).
  assert (Hplan : get_plan reg (Some pid) t = (Ret None, t)).
  { unfold get_plan. rewrite Htruthy. cbn [negb].
    unfold call_planning, ToolCollection.execute. rewrite Hreg, Hexec.
    cbn [default from_option]. unfold id.
    change (execute percent_1f
              (mk_kwargs (Some "get") (Some pid) None StepsNone None None None) t)
      with (_get_plan percent_1f (Some pid) t).
    unfold _get_plan, or_current. rewrite Htruthy. cbn [negb andb mbind option_bind].
    by rewrite Hget. }
  split; [done|]. unfold _get_current_step_index. rewrite Htruthy. cbn [negb].
  by rewrite Hplan.
Qed.

End OverlayFacts.

(** ** Observations *)

Section ObserveFacts.

Import ToolCallMore.

Lemma concat_cons (x : string) (l : list string) :
  String.concat "" (x :: l) = x +:+ String.concat "" l.
Proof.
  destruct l as [|y l]; simpl.
  - induction x as [|c x IH]; [done|].
    change (String c x = String c (x +:+ "")). by f_equal.
  - done.
Qed.

Lemma concat_app (l1 l2 : list string) :
  String.concat "" (l1 ++ l2) = String.concat "" l1 +:+ String.concat "" l2.
Proof.
  induction l1 as [|x l1 IH]; [done|].
  change ((x :: l1) ++ l2) with (x :: (l1 ++ l2)).
  by rewrite !concat_cons, IH, str_app_assoc.
Qed.

Lemma utf8_chars_concat_le n : ∀ s,
  (String.length s ≤ n)%nat → String.concat "" (utf8_chars s) = s.
Proof.
  induction n as [|n IH]; intros s Hs.
  - destruct s; [done|simpl in Hs; lia].
  - destruct s as [|b0 r0]; [done|]. simpl in Hs. cbn [utf8_chars].
    destruct (_ <? 192)%N.
    { rewrite concat_cons, IH by lia. done. }
    destruct r0 as [|b1 r1]; [done|]. simpl in Hs.
    destruct (_ <? 224)%N.
    { rewrite concat_cons, IH by lia. done. }
    destruct r1 as [|b2 r2]; [done|]. simpl in Hs.
    destruct (_ <? 240)%N.
    { rewrite concat_cons, IH by lia. done. }
    destruct r2 as [|b3 r3]; [done|]. simpl in Hs.
    rewrite concat_cons, IH by lia. done.
Qed.

Lemma utf8_chars_length_le n : ∀ s,
  (String.length s ≤ n)%nat → length (utf8_chars s) = len s.
Proof.
  unfold len. induction n as [|n IH]; intros s Hs.
  - destruct s; [done|simpl in Hs; lia].
  - destruct s as [|b0 r0]; [done|]. simpl in Hs. cbn [utf8_chars utf8_decode].
    destruct (_ <? 192)%N.
    { simpl. rewrite IH by lia. done. }
    destruct r0 as [|b1 r1]; [done|]. simpl in Hs.
    destruct (_ <? 224)%N.
    { simpl. rewrite IH by lia. done. }
    destruct r1 as [|b2 r2]; [done|]. simpl in Hs.
    destruct (_ <? 240)%N.
    { simpl. rewrite IH by lia. done. }
    destruct r2 as [|b3 r3]; [done|]. simpl in Hs.
    simpl. rewrite IH by lia. done.
Qed.

Lemma str_cons_app (c : Ascii.ascii) (s t : string) :
  String c s +:+ t = String c (s +:+ t).
Proof. reflexivity. Qed.

Lemma str_nil_app (t : string) : "" +:+ t = t.
Proof. reflexivity. Qed.

(** The first code points of a text are the code points of its first
    chunks. *)
Lemma utf8_decode_take_le n : ∀ s k,
  (String.length s ≤ n)%nat →
  utf8_decode (String.concat "" (take k (utf8_chars s))) = take k (utf8_decode s).
Proof.
  induction n as [|n IH]; intros s k Hs.
  - destruct s; [by destruct k|simpl in Hs; lia].
  - destruct k as [|k]; [done|].
    destruct s as [|b0 r0]; [done|]. simpl in Hs.
    cbn [utf8_chars utf8_decode].
    destruct (Ascii.N_of_ascii b0 <? 192)%N eqn:E1.
    { cbn [take]. rewrite concat_cons, str_cons_app, str_nil_app.
      cbn [utf8_decode]. rewrite E1. f_equal. apply IH. lia. }
    destruct r0 as [|b1 r1].
    { destruct k; cbn [take String.concat utf8_decode]; by rewrite E1. }
    simpl in Hs.
    destruct (Ascii.N_of_ascii b0 <? 224)%N eqn:E2.
    { cbn [take]. rewrite concat_cons, !str_cons_app, str_nil_app.
      cbn [utf8_decode]. rewrite E1, E2. f_equal. apply IH. lia. }
    destruct r1 as [|b2 r2].
    { destruct k as [|k].
      - cbn [take String.concat utf8_decode]. by rewrite E1.
      - destruct k; cbn [take]; rewrite !concat_cons, !str_cons_app, !str_nil_app;
          cbn [String.concat utf8_decode]; by rewrite E1, E2. }
    simpl in Hs.
    destruct (Ascii.N_of_ascii b0 <? 240)%N eqn:E3.
    { cbn [take]. rewrite concat_cons, !str_cons_app, str_nil_app.
      cbn [utf8_decode]. rewrite E1, E2, E3. f_equal. apply IH. lia. }
    destruct r2 as [|b3 r3].
    { destruct k as [|k].
      - cbn [take String.concat utf8_decode]. by rewrite E1.
      - destruct k as [|k].
        + cbn [take]. rewrite !concat_cons, !str_cons_app, !str_nil_app.
          cbn [String.concat utf8_decode]. by rewrite E1, E2.
        + destruct k; cbn [take];
            rewrite !concat_cons, !str_cons_app, !str_nil_app;
            cbn [String.concat utf8_decode]; by rewrite E1, E2, E3. }
    simpl in Hs.
    cbn [take]. rewrite concat_cons, !str_cons_app, str_nil_app.
    cbn [utf8_decode]. rewrite E1, E2, E3. f_equal. apply IH. lia.
Qed.

(** X25. What [act] keeps of an observation is [result[:max_observe]],
    cut between code points: its code points are the first [max_observe]
    code points of the observation, or all but the last few, as many as
    the bound says, when the bound is negative, and its text is a prefix of the
    observation. It is the whole observation when [max_observe] is absent
    or zero, or not smaller than the number of code points. *)
Theorem X25_observe_keeps_a_prefix (max_observe : option Z) (result : string) :
  (∃ rest, result = observe max_observe result +:+ rest)
  ∧ (max_observe = None ∨ max_observe = Some 0%Z → observe max_observe result = result)
  ∧ (∀ n, max_observe = Some n → (Z.of_nat (len result) ≤ n)%Z →
          observe max_observe result = result)
  ∧ (∀ n, max_observe = Some n → n ≠ 0%Z →
          utf8_decode (observe max_observe result)
          = take (if (0 <=? n)%Z then Z.to_nat n
                  else (len result - Z.to_nat (- n))%nat)
              (utf8_decode result)).
Proof.
  assert (Hwhole : String.concat "" (utf8_chars result) = result)
    by (by apply (utf8_chars_concat_le (String.length result))).
  assert (Hnil : ∀ s : string, s = s +:+ "").
  { intros s. induction s as [|c s IH]; [done|].
    change (String c s = String c (s +:+ "")). by f_equal. }
  assert (Hslice : ∀ n, ∃ rest, result = slice_to n result +:+ rest).
  { intros n. unfold slice_to.
    set (stop := if (0 <=? n)%Z then Z.to_nat n
                 else (length (utf8_chars result) - Z.to_nat (- n))%nat).
    exists (String.concat "" (drop stop (utf8_chars result))).
    by rewrite <- concat_app, take_drop. }
  split_and!.
  - unfold observe. destruct max_observe as [n|]; [|by exists ""].
    destruct (n =? 0)%Z; [by exists ""|]. apply Hslice.
  - intros [->| ->]; done.
  - intros n -> Hlen. unfold observe. destruct (n =? 0)%Z; [done|].
    unfold slice_to. rewrite (proj2 (Z.leb_le 0 n)) by lia.
    rewrite take_ge; [done|].
    rewrite (utf8_chars_length_le (String.length result)) by done. lia.
  - intros n -> Hn. unfold observe. apply Z.eqb_neq in Hn. rewrite Hn.
    unfold slice_to. rewrite (utf8_chars_length_le (String.length result)) by done.
    by apply (utf8_decode_take_le (String.length result)).
Qed.

End ObserveFacts.

(** ** Flows *)

Section FlowFacts.

Import Flow.

Context {A T : Type}.





End FlowFacts.

(** ** The properties on the scenarios *)

Lemma created_plans :
  Scenario.created Scenario.one_third
  = Planning.mk_tool
      [("p", Planning.mk_plan "p" "T" ["a"; "b"; "c"]
               ["not_started"; "not_started"; "not_started"] [""; ""; ""])]
      (Some "p").
Proof. reflexivity. Qed.

Lemma created_ok : Invariant.store_ok (Scenario.created Scenario.one_third).
Proof.
  rewrite created_plans. split; simpl.
  - apply NoDup_singleton.
  - constructor; [|constructor]. split_and!; simpl; [done|done|by split|].
    by repeat constructor.
Qed.

Lemma X1_execute_keeps_store_invariant_witness :
  Invariant.store_ok
    (snd (Planning.execute Scenario.one_third
            (Planning.mk_kwargs (Some "mark_step") (Some "p") None Planning.StepsNone
               (Some 1%Z) (Some "completed") None)
            (Scenario.created Scenario.one_third))).
Proof.
  apply (X1_execute_keeps_store_invariant Scenario.one_third).
  exact created_ok.
Defined.

Lemma X3_failed_command_changes_nothing_witness :
  is_ToolError (mk_exn ToolError "ID为p的计划已存在") = true
  ∧ snd (Planning.execute Scenario.one_third
           (Planning.mk_kwargs (Some "create") (Some "p") (Some "Again")
              (Planning.StepsList [Planning.SStr "x"]) None None None)
           (Scenario.created Scenario.one_third))
    = Scenario.created Scenario.one_third.
Proof.
  apply (X3_failed_command_changes_nothing Scenario.one_third _ "create").
  - exact created_ok.
  - reflexivity.
  - discriminate.
  - reflexivity.
Defined.

Lemma X4_update_sets_title_before_rejecting_steps_witness :
  fst (Planning._update_plan Scenario.one_third (Some "p") (Some "New")
         (Planning.StepsList [Planning.SStr "a"; Planning.SOther])
         (Scenario.created Scenario.one_third))
    = Planning.tool_error "步骤必须为字符串列表"
  ∧ Dict.get
      (Planning.plans
         (snd (Planning._update_plan Scenario.one_third (Some "p") (Some "New")
                 (Planning.StepsList [Planning.SStr "a"; Planning.SOther])
                 (Scenario.created Scenario.one_third)))) "p"
    = Some (Planning.set_title "New"
              (Planning.mk_plan "p" "T" ["a"; "b"; "c"]
                 ["not_started"; "not_started"; "not_started"] [""; ""; ""])).
Proof.
  apply (X4_update_sets_title_before_rejecting_steps Scenario.one_third).
  - discriminate.
  - discriminate.
  - reflexivity.
  - reflexivity.
  - reflexivity.
Defined.

Lemma X5_create_then_get_witness :
  ∃ text,
    Planning._get_plan Scenario.one_third None
      (Planning.mk_tool
         [("p", Planning.mk_plan "p" "T" ["a"] ["not_started"] [""])] (Some "p"))
    = (Ret (VResult (result_output text)),
       Planning.mk_tool
         [("p", Planning.mk_plan "p" "T" ["a"] ["not_started"] [""])] (Some "p")).
Proof.
  destruct (X5_create_then_get Scenario.one_third "p" "T" [Planning.SStr "a"] ["a"]
              Planning.empty_tool) as (text & _ & _ & Hget).
  - discriminate.
  - discriminate.
  - reflexivity.
  - discriminate.
  - reflexivity.
  - exists text. exact Hget.
Defined.

Lemma X6_mark_step_updates_one_entry_witness :
  ∃ plan',
    Dict.get (Planning.plans (snd (Scenario.marked Scenario.one_third))) "p"
      = Some plan'
    ∧ Planning.step_statuses plan' = ["not_started"; "completed"; "not_started"].
Proof.
  destruct (X6_mark_step_updates_one_entry Scenario.one_third (Some "p") "p"
              (Planning.mk_plan "p" "T" ["a"; "b"; "c"]
                 ["not_started"; "not_started"; "not_started"] [""; ""; ""])
              1%Z (Some "completed") None (Scenario.created Scenario.one_third))
    as (v & plan' & _ & Hget & _ & _ & _ & Hst & _).
  - reflexivity.
  - discriminate.
  - reflexivity.
  - split; reflexivity.
  - simpl. lia.
  - reflexivity.
  - exists plan'. split; [exact Hget|exact Hst].
Defined.

Lemma X7_update_carries_over_unchanged_steps_witness :
  ∃ plan',
    Dict.get
      (Planning.plans
         (snd (Planning._update_plan Scenario.one_third (Some "p") None
                 (Planning.StepsList [Planning.SStr "a"; Planning.SStr "x"])
                 (snd (Scenario.marked Scenario.one_third))))) "p"
      = Some plan'
    ∧ Planning.steps plan' = ["a"; "x"].
Proof.
  destruct (X7_update_carries_over_unchanged_steps Scenario.one_third "p"
              (Planning.mk_plan "p" "T" ["a"; "b"; "c"]
                 ["not_started"; "completed"; "not_started"] [""; ""; ""])
              None [Planning.SStr "a"; Planning.SStr "x"] ["a"; "x"]
              (snd (Scenario.marked Scenario.one_third)))
    as (v & plan' & _ & Hget & Hsteps & _).
  - discriminate.
  - reflexivity.
  - split; reflexivity.
  - discriminate.
  - reflexivity.
  - exists plan'. split; [exact Hget|exact Hsteps].
Defined.

Lemma X8_delete_removes_one_plan_witness :
  Dict.get
    (Planning.plans
       (snd (Planning._delete_plan (Some "p") (Scenario.created Scenario.one_third))))
    "p" = None.
Proof.
  destruct (X8_delete_removes_one_plan Scenario.one_third "p"
              (Planning.mk_plan "p" "T" ["a"; "b"; "c"]
                 ["not_started"; "not_started"; "not_started"] [""; ""; ""])
              (Scenario.created Scenario.one_third)) as (_ & Hgone & _).
  - exact created_ok.
  - discriminate.
  - reflexivity.
  - exact Hgone.
Defined.

Lemma X9_status_counts_add_up_witness :
  ∃ completed in_progress blocked not_started : nat,
    (completed + in_progress + blocked + not_started)%nat = 3%nat
    ∧ completed = 0%nat.
Proof.
  destruct (X9_status_counts_add_up Scenario.one_third "p"
              (Planning.mk_plan "p" "T" ["a"; "b"; "c"]
                 ["not_started"; "not_started"; "not_started"] [""; ""; ""])
              (Scenario.created Scenario.one_third))
    as (completed & in_progress & blocked & not_started & _ & Hsum & Hcompleted).
  - exact created_ok.
  - reflexivity.
  - exists completed, in_progress, blocked, not_started.
    split; [exact Hsum|exact Hcompleted].
Defined.

Lemma X14_step_runs_only_unfinished_within_budget_witness :
  ∃ l, BaseAgent.run_loop Scenario.plain_step 4
         (Spec.entered None (Scenario.agent_in IDLE 3 0)) [] 0 = Some l
       ∧ BaseAgent.name (BaseAgent.loop_agent l) = "agent".
Proof.
  eexists. split; [vm_compute; reflexivity|].
  apply (X14_step_runs_only_unfinished_within_budget Scenario.plain_step
           (fun b => BaseAgent.name b = "agent") 4
           (Spec.entered None (Scenario.agent_in IDLE 3 0)) [] 0).
  - intros b o b' _ _ Hb Hstep. injection Hstep as _ <-. exact Hb.
  - intros b n Hb. exact Hb.
  - intros b p Hb. exact Hb.
  - reflexivity.
  - vm_compute. reflexivity.
Defined.

Lemma X15_stuck_needs_history_witness :
  (BaseAgent.duplicate_threshold ScenarioMore.repeating_agent
   < Z.of_nat (length (BaseAgent.messages ScenarioMore.repeating_agent)))%Z.
Proof.
  destruct (X15_stuck_needs_history ScenarioMore.repeating_agent) as (_ & _ & Hlen).
  - reflexivity.
  - exact Hlen.
Defined.

Lemma X16_execute_tool_effects_witness :
  BaseAgent.set_state FINISHED ScenarioMore.acting_agent = ScenarioMore.acting_agent
  ∨ BaseAgent.set_state FINISHED ScenarioMore.acting_agent
    = BaseAgent.set_state FINISHED ScenarioMore.acting_agent.
Proof.
  destruct (X16_execute_tool_effects None ScenarioMore.loads ScenarioMore.lower
              (mk_call "call_1" "terminate" ScenarioMore.success_payload)
              ScenarioMore.acting_agent ()
              ("Observed output of cmd `terminate` executed:" +:+ nl
                 +:+ "交互已完成，状态：success")
              (BaseAgent.set_state FINISHED ScenarioMore.acting_agent) ())
    as (Hagent & _).
  - vm_compute. reflexivity.
  - exact Hagent.
Defined.

Lemma X17_failed_special_tool_still_finishes_witness :
  ToolCallMore.execute_tool None ScenarioMore.loads ScenarioMore.lower
    (mk_call "call_1" "terminate" ScenarioMore.success_payload)
    ScenarioMore.refusing_agent ()
  = ("Observed output of cmd `terminate` executed:" +:+ nl +:+ "Error: not now",
     BaseAgent.set_state FINISHED ScenarioMore.refusing_agent, ()).
Proof.
  apply (X17_failed_special_tool_still_finishes None ScenarioMore.loads
           ScenarioMore.lower
           (mk_call "call_1" "terminate" ScenarioMore.success_payload)
           ScenarioMore.refusing_agent () ScenarioMore.refusing_terminate
           (Some "success") (mk_exn ToolError "not now") ()).
  - discriminate.
  - reflexivity.
  - reflexivity.
  - reflexivity.
  - reflexivity.
  - reflexivity.
Defined.

Lemma X18_act_appends_one_tool_message_per_call_witness :
  ∃ observations a' w',
    ToolCallMore.act None ScenarioMore.loads ScenarioMore.lower None
      ScenarioMore.acting_agent ()
      = (Ret (BaseAgent.join (nl +:+ nl) observations), a', w')
    ∧ length observations = 2%nat.
Proof.
  destruct (X18_act_appends_one_tool_message_per_call None ScenarioMore.loads
              ScenarioMore.lower None ScenarioMore.acting_agent ())
    as (observations & a' & w' & _ & Hact & Hlen & _).
  - discriminate.
  - repeat constructor; by eexists.
  - exists observations, a', w'. split; [exact Hact|exact Hlen].
Defined.

Lemma X19_text_answer_is_the_step_result_witness :
  fst (fst (ToolCallMore.step None ScenarioMore.loads ScenarioMore.lower None
              ScenarioMore.texting_llm Scenario.rejecting_factory
              (Scenario.toolcall_agent ToolCallAgent.AUTO) ()))
  = Ret "All done.".
Proof.
  rewrite (X19_text_answer_is_the_step_result None ScenarioMore.loads
             ScenarioMore.lower None ScenarioMore.texting_llm
             Scenario.rejecting_factory (Scenario.toolcall_agent ToolCallAgent.AUTO)
             () "All done.").
  - reflexivity.
  - discriminate.
  - discriminate.
  - reflexivity.
Defined.

Lemma X20_required_mode_without_calls_raises_witness :
  fst (fst (ToolCallMore.step None ScenarioMore.loads ScenarioMore.lower None
              ScenarioMore.texting_llm Scenario.rejecting_factory
              (Scenario.toolcall_agent ToolCallAgent.REQUIRED) ()))
  = Raise (mk_exn ValueError "Tool calls required but none provided").
Proof.
  rewrite (X20_required_mode_without_calls_raises None ScenarioMore.loads
             ScenarioMore.lower None ScenarioMore.texting_llm
             Scenario.rejecting_factory
             (Scenario.toolcall_agent ToolCallAgent.REQUIRED) () (Some "All done.")).
  - reflexivity.
  - reflexivity.
  - reflexivity.
Defined.

Lemma X21_mode_none_still_runs_the_calls_witness :
  ∃ observations a' w',
    ToolCallMore.step None ScenarioMore.loads ScenarioMore.lower None
      ScenarioMore.answering_llm Scenario.rejecting_factory
      (Scenario.toolcall_agent ToolCallAgent.NONE) ()
      = (Ret (BaseAgent.join (nl +:+ nl) observations), a', w')
    ∧ length observations = 1%nat.
Proof.
  destruct (X21_mode_none_still_runs_the_calls None ScenarioMore.loads
              ScenarioMore.lower None ScenarioMore.answering_llm
              Scenario.rejecting_factory (Scenario.toolcall_agent ToolCallAgent.NONE)
              () (Some "On it.")
              [mk_call "call_1" "terminate" ScenarioMore.success_payload])
    as (observations & a' & w' & _ & Hstep & Hlen & _).
  - reflexivity.
  - discriminate.
  - repeat constructor; by eexists.
  - reflexivity.
  - exists observations, a', w'. split; [exact Hstep|exact Hlen].
Defined.

Lemma X22_update_plan_status_marks_tracked_step_witness :
  PlanningAgentMore.update_plan_status (Scenario.registry Scenario.one_third)
    (Some "p") {[ "call_1" := PlanningAgentMore.mk_track 1 "search" "completed" None ]}
    "call_1" (Scenario.created Scenario.one_third)
  = Planning.mk_tool
      [("p", Planning.mk_plan "p" "T" ["a"; "b"; "c"]
               ["not_started"; "completed"; "not_started"] [""; ""; ""])]
      (Some "p").
Proof.
  rewrite (X22_update_plan_status_marks_tracked_step Scenario.one_third
             (Scenario.registry Scenario.one_third)
             (PlanningAgent.planning_tool Scenario.one_third "{}") "p"
             (Planning.mk_plan "p" "T" ["a"; "b"; "c"]
                ["not_started"; "not_started"; "not_started"] [""; ""; ""])
             _ "call_1" (PlanningAgentMore.mk_track 1 "search" "completed" None)).
  - reflexivity.
  - reflexivity.
  - reflexivity.
  - discriminate.
  - reflexivity.
  - split; reflexivity.
  - reflexivity.
  - reflexivity.
Defined.

Lemma X24_missing_plan_gives_no_current_step_witness :
  PlanningAgent._get_current_step_index (Scenario.registry Scenario.one_third)
    (Some "q") (Scenario.created Scenario.one_third)
  = (Ret None, Scenario.created Scenario.one_third).
Proof.
  destruct (X24_missing_plan_gives_no_current_step Scenario.one_third
              (Scenario.registry Scenario.one_third)
              (PlanningAgent.planning_tool Scenario.one_third "{}") "q"
              (Scenario.created Scenario.one_third)) as [_ Hidx].
  - reflexivity.
  - reflexivity.
  - discriminate.
  - reflexivity.
  - exact Hidx.
Defined.
